(** * mlflow-export-import: the copy / export engine, embedded in Rocq

    A shallow embedding of the parts of the repository that the specification
    speaks about:

    - [HttpClient]         <- mlflow_export_import/client/http_client.py
    - [CopyModelVersion]   <- mlflow_export_import/copy/copy_model_version.py
    - [ExportExperiment]   <- mlflow_export_import/experiment/export_experiment.py
    - [ModelPath]          <- the resolver exercised by tests/test_models.py
    - [CopyMain]           <- [mk_tracking_uri] of copy_model_version.py's [main]
    - [Notebooks]          <- databricks_notebooks/copy/Common.py and
                              databricks_notebooks/bulk/Import_Experiments.py

    Python values are modelled as the code has them: [str] as [string],
    [int] as [Z], a [dict] as an insertion-ordered association list with
    unique keys, an object reference as a location in a store, [None] as
    [option].  Code that talks to a remote service or raises is written in a
    state-and-exception monad in which the state survives a raise, as it does
    in Python. *)

From Stdlib Require Import ZArith Lia Bool Ascii String List Sorted.
From stdpp Require Import base list strings.

Set Default Proof Using "Type".

(** * Python strings *)

Module PyStr.

#[local] Arguments String.append _ _ : simpl nomatch.

(** [s[n:]] *)
Fixpoint drop (n : nat) (s : string) : string :=
  match n, s with
  | O, _ => s
  | S _, EmptyString => EmptyString
  | S n', String _ s' => drop n' s'
  end.

(** [s.find(sub)]: the lowest index at which [sub] occurs in [s];
    [None] stands for Python's [-1]. *)
Fixpoint find (sub s : string) : option nat :=
  if String.prefix sub s then Some 0
  else match s with
       | EmptyString => None
       | String _ s' => S <$> find sub s'
       end.

(** [c in s] for a one-character [c]. *)
Fixpoint contains_char (c : ascii) (s : string) : bool :=
  match s with
  | EmptyString => false
  | String a s' => Ascii.eqb a c || contains_char c s'
  end.

(** [s.replace(old, new)] for one-character [old] and [new]: every
    occurrence is substituted, left to right. *)
Fixpoint replace_char (old new : ascii) (s : string) : string :=
  match s with
  | EmptyString => EmptyString
  | String a s' =>
      String (if Ascii.eqb a old then new else a) (replace_char old new s')
  end.

(** [s.startswith(p)] and [s.endswith(c)] for a one-character [c]. *)
Definition startswith (s p : string) : bool := String.prefix p s.

Fixpoint endswith_char (s : string) (c : ascii) : bool :=
  match s with
  | EmptyString => false
  | String a EmptyString => Ascii.eqb a c
  | String _ s' => endswith_char s' c
  end.

(** Truth value of a string: the empty string is falsy. *)
Definition truthy (s : string) : bool :=
  match s with EmptyString => false | _ => true end.

(** [os.path.join(a, b)] of posixpath, for two components. *)
Definition os_path_join (a b : string) : string :=
  if startswith b "/" then b
  else if negb (truthy a) || endswith_char a "/" then a +:+ b
  else a +:+ "/" +:+ b.

Lemma drop_app (p s : string) : drop (String.length p) (p +:+ s) = s.
Proof. induction p as [|c p IH]; simpl; [reflexivity | exact IH]. Qed.

Lemma drop_plus (n m : nat) (s : string) : drop (n + m) s = drop m (drop n s).
Proof.
  revert s; induction n as [|n IH]; intros s; simpl; [reflexivity|].
  destruct s as [|c s]; [destruct m; reflexivity | apply IH].
Qed.

Lemma prefix_app (p s : string) : String.prefix p (p +:+ s) = true.
Proof.
  induction p as [|c p IH]; simpl; [destruct s; reflexivity|].
  destruct (ascii_dec c c); [exact IH | congruence].
Qed.

Lemma prefix_split (p s : string) :
  String.prefix p s = true -> exists t, s = p +:+ t.
Proof.
  revert s; induction p as [|c p IH]; intros s H.
  - exists s; reflexivity.
  - destruct s as [|d s]; simpl in H; [discriminate|].
    destruct (ascii_dec c d) as [->|]; [|discriminate].
    destruct (IH _ H) as [t ->]. exists t; reflexivity.
Qed.

Lemma app_assoc (a b c : string) : (a +:+ b) +:+ c = a +:+ (b +:+ c).
Proof. induction a as [|x a IH]; simpl; [reflexivity | now rewrite IH]. Qed.

Lemma app_nil_r (a : string) : a +:+ EmptyString = a.
Proof. induction a as [|x a IH]; simpl; [reflexivity | now rewrite IH]. Qed.

Lemma length_app (a b : string) :
  String.length (a +:+ b) = String.length a + String.length b.
Proof. induction a as [|x a IH]; simpl; [reflexivity | now rewrite IH]. Qed.

(** Two decompositions of one string: the shorter head is a prefix of the
    longer one. *)
Lemma app_eq_app_le (a b c d : string) :
  a +:+ b = c +:+ d -> String.length a <= String.length c ->
  exists t, c = a +:+ t /\ b = t +:+ d.
Proof.
  revert c; induction a as [|x a IH]; intros c H Hlen.
  - exists c; split; [reflexivity | exact H].
  - destruct c as [|y c]; simpl in Hlen; [lia|].
    simpl in H. injection H as -> H.
    destruct (IH c H ltac:(lia)) as (t & -> & ->).
    exists t; split; reflexivity.
Qed.

(** [sub] occurs in [p +:+ sub] only as its final segment. *)
Definition occurs_only_last (sub p : string) : Prop :=
  forall a b, p +:+ sub = a +:+ sub +:+ b -> b = EmptyString.

(** The same, as a test that computes: searching [p +:+ sub] for [sub]
    stops at the end of [p]. *)
Definition first_at_end (sub p : string) : Prop :=
  find sub (p +:+ sub) = Some (String.length p).

Lemma find_prefix (sub s : string) :
  String.prefix sub s = true -> find sub s = Some 0.
Proof. intros H. destruct s; cbn [find]; now rewrite H. Qed.

Lemma find_app (sub p rest : string) :
  occurs_only_last sub p ->
  find sub (p +:+ sub +:+ rest) = Some (String.length p).
Proof.
  induction p as [|c p IH]; intros Hocc.
  - apply find_prefix. exact (prefix_app sub rest).
  - cbn [append find].
    destruct (String.prefix sub (String c (p +:+ sub +:+ rest))) eqn:Hp.
    + exfalso. apply prefix_split in Hp as [t Ht].
      change (String c (p +:+ sub +:+ rest))
        with (String c p +:+ sub +:+ rest) in Ht.
      rewrite <- app_assoc in Ht.
      symmetry in Ht.
      destruct (app_eq_app_le sub t (String c p +:+ sub) rest Ht)
        as (u & Hu & _).
      { rewrite length_app. lia. }
      specialize (Hocc EmptyString u). simpl in Hocc.
      assert (u = EmptyString) as -> by (apply Hocc; exact Hu).
      rewrite app_nil_r in Hu.
      apply (f_equal String.length) in Hu. simpl in Hu.
      rewrite length_app in Hu. lia.
    + rewrite IH; [reflexivity|].
      intros a b Hab. apply (Hocc (String c a) b). simpl. now rewrite Hab.
Qed.

Lemma find_le (a sub b : string) :
  exists i, find sub (a +:+ sub +:+ b) = Some i /\ i <= String.length a.
Proof.
  induction a as [|c a (i & Hi & Hle)].
  - exists 0. split; [|simpl; lia].
    apply find_prefix. exact (prefix_app sub b).
  - cbn [append find].
    destruct (String.prefix sub (String c (a +:+ sub +:+ b))).
    + exists 0. split; [reflexivity | simpl; lia].
    + exists (S i). rewrite Hi. split; [reflexivity | simpl; lia].
Qed.

Lemma first_at_end_only_last (sub p : string) :
  first_at_end sub p -> occurs_only_last sub p.
Proof.
  unfold first_at_end. intros H a b Hab.
  destruct (find_le a sub b) as (i & Hi & Hle).
  rewrite <- Hab, H in Hi. injection Hi as <-.
  apply (f_equal String.length) in Hab.
  rewrite !length_app in Hab.
  destruct b; [reflexivity | simpl in Hab; lia].
Qed.

Lemma replace_char_free (old new : ascii) (s : string) :
  old <> new -> contains_char old (replace_char old new s) = false.
Proof.
  intros Hne. induction s as [|a s IH]; simpl; [reflexivity|].
  rewrite IH, orb_false_r.
  destruct (Ascii.eqb a old) eqn:E.
  - apply Ascii.eqb_neq. congruence.
  - exact E.
Qed.

End PyStr.

(** * The Reference Resolver *)

Module ModelPath.
Import PyStr.

(** Raised when a source URI matches no known artifact layout. *)
Inductive error : Type :=
| UnrecognizedArtifactPathError (uri run_id : string).

Definition artifacts_marker : string := "/artifacts/".

(** Modelled from the spec: [_extract_model_path] lives in
    mlflow_export_import/model/import_model.py, which is not among the
    sources (only its test, tests/test_models.py, is).  Following
    section 4.3: the source URI embeds the run id, followed by an
    [artifacts/<model-path>] suffix; everything up to and including the run
    id and the [artifacts/] marker is stripped and the trailing path is
    returned; a URI without that shape fails with
    [UnrecognizedArtifactPathError] and is never truncated. *)
Definition resolve_destination_artifact_path (uri run_id : string)
  : error + string :=
  match find run_id uri with
  | None => inl (UnrecognizedArtifactPathError uri run_id)
  | Some i =>
      let rest := drop (i + String.length run_id) uri in
      if startswith rest artifacts_marker
      then inr (drop (String.length artifacts_marker) rest)
      else inl (UnrecognizedArtifactPathError uri run_id)
  end.

(** The name under which the test imports the resolver. *)
Definition _extract_model_path := resolve_destination_artifact_path.

(** The two layout conventions of tests/test_models.py: a
    platform-managed storage path and a locally rooted tracking
    directory. *)
Definition managed_storage_prefix (experiment_id : string) : string :=
  "dbfs:/databricks/mlflow-tracking/" +:+ experiment_id +:+ "/".

Definition local_tracking_prefix (root experiment_id : string) : string :=
  root +:+ "/mlruns/" +:+ experiment_id +:+ "/".

Inductive layout : Type :=
| ManagedStorage (experiment_id : string)
| LocalTracking (root experiment_id : string).

Definition layout_prefix (l : layout) : string :=
  match l with
  | ManagedStorage e => managed_storage_prefix e
  | LocalTracking r e => local_tracking_prefix r e
  end.

Definition artifact_uri (layout_prefix run_id model_path : string) : string :=
  layout_prefix +:+ run_id +:+ "/artifacts/" +:+ model_path.

(** tests/test_models.py *)
Definition run_id : string := "48cf29167ddb4e098da780f0959fb4cf".
Definition model_path : string := "models/my_model".
Definition source_databricks : string :=
  artifact_uri (managed_storage_prefix "4072937019901104") run_id model_path.
Definition source_oss : string :=
  artifact_uri (local_tracking_prefix "/opt/mlflow_server/local_mlrun" "3")
               run_id model_path.

Lemma resolve_artifact_uri (layout_prefix rid path : string) :
  occurs_only_last rid layout_prefix ->
  resolve_destination_artifact_path (artifact_uri layout_prefix rid path) rid
  = inr path.
Proof.
  intros Hocc. unfold resolve_destination_artifact_path, artifact_uri.
  rewrite (find_app rid layout_prefix _ Hocc).
  rewrite drop_plus, drop_app, drop_app.
  unfold startswith, artifacts_marker.
  now rewrite (prefix_app "/artifacts/" path), (drop_app "/artifacts/" path).
Qed.

Example test_extract_model_path_databricks :
  _extract_model_path source_databricks run_id = inr model_path.
Proof. vm_compute. reflexivity. Qed.

Example test_extract_model_path_oss :
  _extract_model_path source_oss run_id = inr model_path.
Proof. vm_compute. reflexivity. Qed.

(** A path that is already relative (no run id in it) is refused, not
    truncated. *)
Example resolve_relative_path_fails :
  resolve_destination_artifact_path model_path run_id
  = inl (UnrecognizedArtifactPathError model_path run_id).
Proof. vm_compute. reflexivity. Qed.

(** C5.  For a source URI in either layout convention that embeds the run
    id followed by the [artifacts/] marker, the resolver returns exactly
    the path after [artifacts/], whatever the layout.  The run id is the
    one the URI embeds: searching the URI for it finds the segment in
    front of the marker first. *)
Theorem resolve_both_layouts (l : layout) (rid path : string) :
  first_at_end rid (layout_prefix l) ->
  resolve_destination_artifact_path (artifact_uri (layout_prefix l) rid path) rid
  = inr path.
Proof.
  intros H. apply resolve_artifact_uri, first_at_end_only_last, H.
Qed.

Lemma resolve_both_layouts_witness :
  (first_at_end run_id (layout_prefix (ManagedStorage "4072937019901104"))
   /\ resolve_destination_artifact_path source_databricks run_id
      = inr "models/my_model")
  /\ (first_at_end run_id
       (layout_prefix (LocalTracking "/opt/mlflow_server/local_mlrun" "3"))
     /\ resolve_destination_artifact_path source_oss run_id
        = inr "models/my_model").
Proof.
  split; split.
  - vm_compute; reflexivity.
  - apply (resolve_both_layouts (ManagedStorage "4072937019901104")).
    vm_compute; reflexivity.
  - vm_compute; reflexivity.
  - apply (resolve_both_layouts (LocalTracking "/opt/mlflow_server/local_mlrun" "3")).
    vm_compute; reflexivity.
Defined.

End ModelPath.


(** * Effects: state that survives a raise *)

Module Eff.

Inductive outcome (E A : Type) : Type :=
| Ret (a : A)
| Raise (e : E).
Arguments Ret {E A} a.
Arguments Raise {E A} e.

(** A computation reads and updates a state [S] and either returns or
    raises; what it did to the state before raising stays done. *)
Definition M (S E A : Type) : Type := S -> outcome E A * S.

Definition ret {S E A} (a : A) : M S E A := fun s => (Ret a, s).

Definition raise {S E A} (e : E) : M S E A := fun s => (Raise e, s).

Definition bind {S E A B} (m : M S E A) (k : A -> M S E B) : M S E B :=
  fun s => match m s with
           | (Ret a, s') => k a s'
           | (Raise e, s') => (Raise e, s')
           end.

(** [try: m  except <handles>: h] *)
Definition try_except {S E A} (m : M S E A) (handles : E -> bool)
    (h : E -> M S E A) : M S E A :=
  fun s => match m s with
           | (Ret a, s') => (Ret a, s')
           | (Raise e, s') => if handles e then h e s' else (Raise e, s')
           end.

Definition get {S E} : M S E S := fun s => (Ret s, s).

Definition modify {S E} (f : S -> S) : M S E unit := fun s => (Ret tt, f s).

(** [for x in l: body(x)] *)
Fixpoint for_each {S E A} (l : list A) (body : A -> M S E unit) : M S E unit :=
  match l with
  | [] => ret tt
  | x :: l' => bind (body x) (fun _ => for_each l' body)
  end.

Definition returned {E A} (o : outcome E A) : bool :=
  match o with Ret _ => true | Raise _ => false end.

(** ** Triples

    [hoare P m Q X]: from a state in [P], [m] either returns [a] in a
    state in [Q a] or raises in a state in [X]. *)
Definition hoare {S E A} (P : S -> Prop) (m : M S E A)
    (Q : A -> S -> Prop) (X : S -> Prop) : Prop :=
  forall s, P s ->
    match m s with
    | (Ret a, s') => Q a s'
    | (Raise _, s') => X s'
    end.

Section Rules.

Context {S E : Type}.
Implicit Types (P X : S -> Prop).

Lemma hoare_ret {A} P X (Q : A -> S -> Prop) (a : A) :
  (forall s, P s -> Q a s) -> hoare P (ret (E := E) a) Q X.
Proof. intros H s Hs. exact (H s Hs). Qed.

Lemma hoare_raise {A} P X (Q : A -> S -> Prop) (e : E) :
  (forall s, P s -> X s) -> hoare P (raise (A := A) e) Q X.
Proof. intros H s Hs. exact (H s Hs). Qed.

Lemma hoare_bind {A B} P X (R : A -> S -> Prop) (Q : B -> S -> Prop)
    (m : M S E A) (k : A -> M S E B) :
  hoare P m R X -> (forall a, hoare (R a) (k a) Q X) -> hoare P (bind m k) Q X.
Proof.
  intros Hm Hk s Hs. unfold bind. specialize (Hm s Hs).
  destruct (m s) as [[a|e] s']; [exact (Hk a s' Hm) | exact Hm].
Qed.

Lemma hoare_conseq {A} P P' X X' (Q Q' : A -> S -> Prop) (m : M S E A) :
  hoare P' m Q' X' ->
  (forall s, P s -> P' s) -> (forall a s, Q' a s -> Q a s) ->
  (forall s, X' s -> X s) ->
  hoare P m Q X.
Proof.
  intros Hm HP HQ HX s Hs. specialize (Hm s (HP s Hs)).
  destruct (m s) as [[a|e] s']; auto.
Qed.

Lemma hoare_modify P X (Q : unit -> S -> Prop) (f : S -> S) :
  (forall s, P s -> Q tt (f s)) -> hoare P (modify (E := E) f) Q X.
Proof. intros H s Hs. exact (H s Hs). Qed.

Lemma hoare_for_each {A} (I : S -> Prop) X (l : list A) (body : A -> M S E unit) :
  (forall x, hoare I (body x) (fun _ => I) X) ->
  hoare I (for_each l body) (fun _ => I) X.
Proof.
  intros Hb. induction l as [|x l IH].
  - apply hoare_ret. auto.
  - simpl. eapply hoare_bind; [apply Hb | intros ?; exact IH].
Qed.

Lemma hoare_try_except {A} P X X' (Q : A -> S -> Prop)
    (m : M S E A) (handles : E -> bool) (h : E -> M S E A) :
  hoare P m Q X' ->
  (forall e, hoare X' (h e) Q X) ->
  (forall s, X' s -> X s) ->
  hoare P (try_except m handles h) Q X.
Proof.
  intros Hm Hh HX s Hs. unfold try_except. specialize (Hm s Hs).
  destruct (m s) as [[a|e] s']; [exact Hm|].
  destruct (handles e); [exact (Hh e s' Hm) | exact (HX s' Hm)].
Qed.

(** A loop that runs into a raise: the items before the failing one are
    done, the failing one raises, the rest is never started. *)
Lemma for_each_raise {A} (pre post : list A) (x : A) (body : A -> M S E unit)
    (s s1 s2 : S) (e : E) :
  for_each pre body s = (Ret tt, s1) ->
  body x s1 = (Raise e, s2) ->
  for_each (pre ++ x :: post) body s = (Raise e, s2).
Proof.
  revert s; induction pre as [|y pre IH]; intros s Hpre Hx; simpl in *.
  - injection Hpre as <-. unfold bind. now rewrite Hx.
  - unfold bind in *. destruct (body y s) as [[[]|e'] s']; [|discriminate].
    now apply IH.
Qed.

Lemma bind_ret_run {A B} (m : M S E A) (k : A -> M S E B) (s s1 : S) (a : A) :
  m s = (Ret a, s1) -> bind m k s = k a s1.
Proof. intros H. unfold bind. now rewrite H. Qed.

Lemma bind_ret_inv {A B} (m : M S E A) (k : A -> M S E B) (s s' : S) (b : B) :
  bind m k s = (Ret b, s') ->
  exists a s1, m s = (Ret a, s1) /\ k a s1 = (Ret b, s').
Proof.
  unfold bind. destruct (m s) as [[a|e] s1]; [eauto | discriminate].
Qed.

End Rules.

End Eff.

Declare Scope eff_scope.
Delimit Scope eff_scope with eff.
Notation "x <- m ;; k" := (Eff.bind m (fun x => k))
  (at level 100, m at next level, right associativity) : eff_scope.
Notation "m ;; k" := (Eff.bind m (fun _ => k))
  (at level 100, right associativity) : eff_scope.


(** * The Transport Client (client/http_client.py) *)

Module HttpClient.
Import Eff.
Local Open Scope eff_scope.

Definition _TIMEOUT : Z := 15.

Inductive verb : Type := GET | POST | PUT | PATCH | DELETE.

Section Client.

(** Parsed JSON values, with [json.dumps], the decoder behind [rsp.json()]
    and [json.loads] ([None] stands for a JSONDecodeError), and the truth
    value of a JSON-like Python object. *)
Variable Json : Type.
Variable json_dumps : Json -> string.
Variable json_loads : string -> option Json.
Variable json_truthy : Json -> bool.

(** What a request submits or an error reports: a Python object or text. *)
Inductive payload : Type :=
| PObject (j : Json)
| PText (s : string).

Record Response : Type := mkResponse {
  status_code : Z;
  reason : string;
  url : string;
  text : string
}.

(** [MlflowExportImportException(message, **kwargs)]; a keyword that was
    not passed, or was passed [None], is [None]. *)
Record MlflowExportImportException : Type := mkException {
  message : string;
  http_status_code : option Z;
  http_reason : option string;
  exc_uri : option string;
  exc_params : option payload;
  exc_text : option payload
}.

Inductive exn : Type :=
| ApiError (e : MlflowExportImportException)
| RequestException (msg : string)
| JSONDecodeError (doc : string).

Record Request : Type := mkRequest {
  req_verb : verb;
  req_uri : string;
  req_headers : list (string * string);
  req_body : option payload;
  req_timeout : Z
}.

(** What the process did to the outside: looked up the process-wide
    configuration, or sent a request. *)
Inductive event : Type :=
| ReadConfig
| Sent (r : Request).

(** The process-wide configuration and the network are the client's
    environment; [get_mlflow_host_token] (client/mlflow_auth_utils.py) and
    the [requests] library are given. *)
Variable Config : Type.
Variable Net : Type.
Variable USER_AGENT : string.
Variable resolve_host_token : Config -> option string * option string.
Variable requests_send : Request -> Net -> outcome exn Response * Net.

Record world : Type := mkWorld {
  config : Config;
  net : Net;
  trace : list event
}.

Definition log_event (e : event) : M world exn unit :=
  modify (fun w => {| config := config w; net := net w; trace := trace w ++ [e] |}).

Definition get_mlflow_host_token : M world exn (option string * option string) :=
  log_event ReadConfig ;;
  w <- get ;;
  ret (resolve_host_token (config w)).

Definition requests (v : verb) (uri : string) (headers : list (string * string))
    (body : option payload) : M world exn Response :=
  let r := mkRequest v uri headers body _TIMEOUT in
  log_event (Sent r) ;;
  fun w => let '(o, n) := requests_send r (net w) in
           (o, {| config := config w; net := n; trace := trace w |}).

Record HttpClient : Type := mkClient {
  api_uri : string;
  token : option string
}.

Definition missing_host_message : string :=
  "MLflow tracking URI (MLFLOW_TRACKING_URI environment variable) is not configured correctly".

Definition __init__ (api_name : string) (host token : option string)
  : M world exn HttpClient :=
  ht <- match host with
        | None =>
            ht <- get_mlflow_host_token ;;
            match fst ht with
            | None =>
                raise (ApiError (mkException missing_host_message (Some 401%Z)
                                             None None None None))
            | Some h => ret (h, snd ht)
            end
        | Some h => ret (h, token)
        end ;;
  ret {| api_uri := PyStr.os_path_join (fst ht) api_name; token := snd ht |}.

Definition DatabricksHttpClient (host token : option string) :=
  __init__ "api/2.0" host token.

Definition MlflowHttpClient (host token : option string) :=
  __init__ "api/2.0/mlflow" host token.

Definition _mk_headers (self : HttpClient) : list (string * string) :=
  [("User-Agent", USER_AGENT)] ++
  match token self with
  | Some t => if PyStr.truthy t then [("Authorization", "Bearer " +:+ t)] else []
  | None => []
  end.

Definition _mk_uri (self : HttpClient) (resource : string) : string :=
  api_uri self +:+ "/" +:+ resource.

Definition _get_response_text (rsp : Response) : payload :=
  match json_loads (text rsp) with
  | Some j => PObject j
  | None => PText (text rsp)
  end.

Definition _check_response (rsp : Response) (params : option payload)
  : M world exn unit :=
  if (status_code rsp <? 200)%Z || (status_code rsp >? 299)%Z
  then raise (ApiError {|
           message := reason rsp;
           http_status_code := Some (status_code rsp);
           http_reason := Some (reason rsp);
           exc_uri := Some (url rsp);
           exc_params := params;
           exc_text := Some (_get_response_text rsp) |})
  else ret tt.

(** [json.dumps(data) if data else None] *)
Definition dumps_if_truthy (data : option Json) : option payload :=
  match data with
  | Some d => if json_truthy d then Some (PText (json_dumps d)) else None
  | None => None
  end.

Definition _get (self : HttpClient) (resource : string) (params : option Json)
  : M world exn Response :=
  let uri := _mk_uri self resource in
  rsp <- requests GET uri (_mk_headers self) (PObject <$> params) ;;
  _check_response rsp (PObject <$> params) ;;
  ret rsp.

Definition _post (self : HttpClient) (resource : string) (data : option Json)
  : M world exn Response :=
  let uri := _mk_uri self resource in
  let data := dumps_if_truthy data in
  rsp <- requests POST uri (_mk_headers self) data ;;
  _check_response rsp data ;;
  ret rsp.

Definition _put (self : HttpClient) (resource : string) (data : option payload)
  : M world exn Response :=
  let uri := _mk_uri self resource in
  rsp <- requests PUT uri (_mk_headers self) data ;;
  _check_response rsp None ;;
  ret rsp.

Definition _patch (self : HttpClient) (resource : string) (data : option payload)
  : M world exn Response :=
  let uri := _mk_uri self resource in
  rsp <- requests PATCH uri (_mk_headers self) data ;;
  _check_response rsp None ;;
  ret rsp.

Definition _delete (self : HttpClient) (resource : string) (data : option Json)
  : M world exn Response :=
  let uri := _mk_uri self resource in
  let data := dumps_if_truthy data in
  rsp <- requests DELETE uri (_mk_headers self) data ;;
  _check_response rsp data ;;
  ret rsp.

(** [json.loads(rsp.text)] *)
Definition loads (rsp : Response) : M world exn Json :=
  match json_loads (text rsp) with
  | Some j => ret j
  | None => raise (JSONDecodeError (text rsp))
  end.

Definition post (self : HttpClient) resource data :=
  rsp <- _post self resource data ;; loads rsp.
Definition put (self : HttpClient) resource data :=
  rsp <- _put self resource data ;; loads rsp.
Definition patch (self : HttpClient) resource data :=
  rsp <- _patch self resource data ;; loads rsp.
Definition delete (self : HttpClient) resource data :=
  rsp <- _delete self resource data ;; loads rsp.
Definition get (self : HttpClient) resource params :=
  rsp <- _get self resource params ;; loads rsp.

(** ** Response checking *)

Definition is_2xx (rsp : Response) : Prop :=
  (200 <= status_code rsp <= 299)%Z.

(** The error [_check_response] builds from a response and the parameters
    it was handed. *)
Definition api_error (rsp : Response) (params : option payload) : exn :=
  ApiError {|
    message := reason rsp;
    http_status_code := Some (status_code rsp);
    http_reason := Some (reason rsp);
    exc_uri := Some (url rsp);
    exc_params := params;
    exc_text := Some (_get_response_text rsp) |}.

Lemma _check_response_2xx rsp params w :
  is_2xx rsp -> _check_response rsp params w = (Ret tt, w).
Proof.
  unfold is_2xx, _check_response. intros [Hlo Hhi].
  destruct (Z.ltb_spec (status_code rsp) 200); [lia|].
  destruct (Z.gtb_spec (status_code rsp) 299); [lia|]. reflexivity.
Qed.

Lemma _check_response_error rsp params w :
  ~ is_2xx rsp -> _check_response rsp params w = (Raise (api_error rsp params), w).
Proof.
  unfold is_2xx, _check_response. intros Hn.
  destruct (Z.ltb_spec (status_code rsp) 200);
    destruct (Z.gtb_spec (status_code rsp) 299); try reflexivity; lia.
Qed.

(** [_check_response] raises exactly on the statuses outside 200..299, and
    what it raises carries the status, the reason, the URL, the parameters
    it was given and the parsed (or raw) body. *)
Lemma _check_response_raises_iff rsp params w :
  (exists e, fst (_check_response rsp params w) = Raise e) <-> ~ is_2xx rsp.
Proof.
  split.
  - intros [e He] H2. rewrite (_check_response_2xx _ _ _ H2) in He. discriminate.
  - intros Hn. rewrite (_check_response_error _ _ _ Hn). eauto.
Qed.

Lemma requests_run v uri headers body w :
  requests v uri headers body w =
  (fst (requests_send (mkRequest v uri headers body _TIMEOUT) (net w)),
   {| config := config w;
      net := snd (requests_send (mkRequest v uri headers body _TIMEOUT) (net w));
      trace := trace w ++ [Sent (mkRequest v uri headers body _TIMEOUT)] |}).
Proof.
  unfold requests, log_event, bind, modify. simpl.
  destruct (requests_send _ _); reflexivity.
Qed.

(** An error answer to GET, POST or DELETE surfaces with what was
    submitted; an error answer to PUT or PATCH surfaces with
    [params = None], whatever was submitted. *)
Lemma verb_error_params self resource w rsp :
  ~ is_2xx rsp ->
  (forall params,
      fst (requests_send (mkRequest GET (_mk_uri self resource) (_mk_headers self)
                                    (PObject <$> params) _TIMEOUT) (net w)) = Ret rsp ->
      fst (_get self resource params w) = Raise (api_error rsp (PObject <$> params)))
  /\ (forall data,
      fst (requests_send (mkRequest POST (_mk_uri self resource) (_mk_headers self)
                                    (dumps_if_truthy data) _TIMEOUT) (net w)) = Ret rsp ->
      fst (_post self resource data w) = Raise (api_error rsp (dumps_if_truthy data)))
  /\ (forall data,
      fst (requests_send (mkRequest DELETE (_mk_uri self resource) (_mk_headers self)
                                    (dumps_if_truthy data) _TIMEOUT) (net w)) = Ret rsp ->
      fst (_delete self resource data w) = Raise (api_error rsp (dumps_if_truthy data)))
  /\ (forall data,
      fst (requests_send (mkRequest PUT (_mk_uri self resource) (_mk_headers self)
                                    data _TIMEOUT) (net w)) = Ret rsp ->
      fst (_put self resource data w) = Raise (api_error rsp None))
  /\ (forall data,
      fst (requests_send (mkRequest PATCH (_mk_uri self resource) (_mk_headers self)
                                    data _TIMEOUT) (net w)) = Ret rsp ->
      fst (_patch self resource data w) = Raise (api_error rsp None)).
Proof.
  intros Hn.
  repeat split; intros d Hsend;
    unfold _get, _post, _delete, _put, _patch, bind;
    rewrite requests_run, Hsend;
    rewrite (_check_response_error _ _ _ Hn); reflexivity.
Qed.

(** ** Construction *)

Definition missing_host_error : exn :=
  ApiError (mkException missing_host_message (Some 401%Z) None None None None).

(** C6, as the code has it.  With no explicit host the (host, token) pair
    is read from the process-wide configuration; construction fails, with
    nothing sent, exactly when no host is resolved, and a resolved host
    without a token constructs a client that has no token.  With an explicit
    host the configuration is not read and nothing is sent: the world is
    left as it was. *)
Theorem init_resolves_host api_name host token w :
  match host with
  | Some h =>
      __init__ api_name (Some h) token w
      = (Ret {| api_uri := PyStr.os_path_join h api_name; token := token |}, w)
  | None =>
      let w' := {| config := config w; net := net w;
                   trace := trace w ++ [ReadConfig] |} in
      match resolve_host_token (config w) with
      | (Some h, t) =>
          __init__ api_name None token w
          = (Ret {| api_uri := PyStr.os_path_join h api_name; token := t |}, w')
      | (None, _) =>
          __init__ api_name None token w = (Raise missing_host_error, w')
      end
  end.
Proof.
  destruct host as [h|]; [reflexivity|].
  unfold __init__, get_mlflow_host_token, log_event, bind, modify, get, ret, raise.
  cbn -[PyStr.os_path_join].
  destruct (resolve_host_token (config w)) as [[h|] t]; reflexivity.
Qed.

(** ** What a verb sends and what comes back *)

(** What [_check_response] makes of the answer of [requests]: an exception
    of [requests] passes through as it is, a 2xx response is returned, any
    other response becomes the error that reports [reported]. *)
Definition checked (reported : option payload) (o : outcome exn Response)
  : outcome exn Response :=
  match o with
  | Raise e => Raise e
  | Ret rsp =>
      if decide (200 <= status_code rsp <= 299)%Z then Ret rsp
      else Raise (api_error rsp reported)
  end.

(** [json.loads(rsp.text)] on what the underscore method returned. *)
Definition decoded (o : outcome exn Response) : outcome exn Json :=
  match o with
  | Raise e => Raise e
  | Ret rsp =>
      match json_loads (text rsp) with
      | Some j => Ret j
      | None => Raise (JSONDecodeError (text rsp))
      end
  end.

Definition request_of (self : HttpClient) (v : verb) (resource : string)
    (body : option payload) : Request :=
  mkRequest v (_mk_uri self resource) (_mk_headers self) body _TIMEOUT.

(** The world after one request: the network has answered, one [Sent]
    event is appended, the configuration is untouched. *)
Definition after_request (r : Request) (w : world) : world :=
  {| config := config w;
     net := snd (requests_send r (net w));
     trace := trace w ++ [Sent r] |}.

Lemma _check_response_checked rsp params w :
  _check_response rsp params w
  = (match checked params (Ret rsp) with
     | Ret _ => Ret tt
     | Raise e => Raise e
     end, w).
Proof.
  unfold checked. destruct (decide _) as [H|H].
  - now apply _check_response_2xx.
  - now apply _check_response_error.
Qed.

Lemma checked_verb (v : verb) uri headers body reported w :
  (rsp <- requests v uri headers body ;;
   _check_response rsp reported ;;
   ret rsp) w
  = (checked reported
       (fst (requests_send (mkRequest v uri headers body _TIMEOUT) (net w))),
     after_request (mkRequest v uri headers body _TIMEOUT) w).
Proof.
  unfold bind at 1. rewrite requests_run. unfold after_request.
  destruct (fst (requests_send _ (net w))) as [rsp|e]; [|reflexivity].
  unfold bind. rewrite _check_response_checked. unfold checked.
  destruct (decide _); reflexivity.
Qed.

(** X1.  Each of the five underscore methods sends exactly one request, built
    from the client's URI, headers and timeout, and leaves the world as that
    one request left it, whether it returns or raises: nothing is retried.
    Its outcome is the answer as [_check_response] classifies it; GET, POST
    and DELETE report what they submitted, PUT and PATCH report nothing. *)
Theorem underscore_verbs_send_once self resource w :
  (forall params,
      _get self resource params w
      = (checked (PObject <$> params)
           (fst (requests_send (request_of self GET resource (PObject <$> params)) (net w))),
         after_request (request_of self GET resource (PObject <$> params)) w))
  /\ (forall data,
      _post self resource data w
      = (checked (dumps_if_truthy data)
           (fst (requests_send (request_of self POST resource (dumps_if_truthy data)) (net w))),
         after_request (request_of self POST resource (dumps_if_truthy data)) w))
  /\ (forall data,
      _put self resource data w
      = (checked None
           (fst (requests_send (request_of self PUT resource data) (net w))),
         after_request (request_of self PUT resource data) w))
  /\ (forall data,
      _patch self resource data w
      = (checked None
           (fst (requests_send (request_of self PATCH resource data) (net w))),
         after_request (request_of self PATCH resource data) w))
  /\ (forall data,
      _delete self resource data w
      = (checked (dumps_if_truthy data)
           (fst (requests_send (request_of self DELETE resource (dumps_if_truthy data)) (net w))),
         after_request (request_of self DELETE resource (dumps_if_truthy data)) w)).
Proof.
  repeat split; intros d;
    unfold _get, _post, _put, _patch, _delete, request_of; apply checked_verb.
Qed.

Lemma decoded_verb (m : M world exn Response) w :
  (rsp <- m ;; loads rsp) w = (decoded (fst (m w)), snd (m w)).
Proof.
  unfold bind, loads, decoded. destruct (m w) as [[rsp|e] w']; cbn; [|reflexivity].
  destruct (json_loads (text rsp)); reflexivity.
Qed.

(** The public methods decode the body of what the underscore method
    returned: a 2xx answer whose body is JSON gives that JSON, a 2xx answer
    whose body is not JSON raises a JSONDecodeError, and an error of the
    underscore method passes through; the world is the underscore method's. *)
Theorem public_verbs_decode self resource w :
  (forall params,
      get self resource params w
      = (decoded (fst (_get self resource params w)),
         snd (_get self resource params w)))
  /\ (forall data,
      post self resource data w
      = (decoded (fst (_post self resource data w)),
         snd (_post self resource data w)))
  /\ (forall data,
      put self resource data w
      = (decoded (fst (_put self resource data w)),
         snd (_put self resource data w)))
  /\ (forall data,
      patch self resource data w
      = (decoded (fst (_patch self resource data w)),
         snd (_patch self resource data w)))
  /\ (forall data,
      delete self resource data w
      = (decoded (fst (_delete self resource data w)),
         snd (_delete self resource data w))).
Proof.
  repeat split; intros d; unfold get, post, put, patch, delete; apply decoded_verb.
Qed.

(** X2.  A 2xx answer with a body that does not parse: the underscore method
    returns the response, the public method raises a JSONDecodeError. *)
Theorem get_2xx_without_json self resource params w rsp :
  fst (requests_send (request_of self GET resource (PObject <$> params)) (net w))
  = Ret rsp ->
  (200 <= status_code rsp <= 299)%Z ->
  json_loads (text rsp) = None ->
  fst (_get self resource params w) = Ret rsp
  /\ fst (get self resource params w) = Raise (JSONDecodeError (text rsp)).
Proof.
  intros Hsend H2xx Hjson. unfold request_of in Hsend.
  assert (fst (_get self resource params w) = Ret rsp) as Hret.
  { unfold _get. rewrite checked_verb, Hsend. cbn [fst checked].
    destruct (decide _); [reflexivity | contradiction]. }
  split; [exact Hret|].
  unfold get. rewrite decoded_verb, Hret. cbn [fst decoded]. now rewrite Hjson.
Qed.

(** ** Headers and base paths *)

(** X3.  Every request names the client; it carries an Authorization header
    exactly when the client has a non-empty token, and then the header is
    the bearer form of that token. *)
Theorem headers_name_client_and_token self :
  In ("User-Agent", USER_AGENT) (_mk_headers self)
  /\ (forall k v, In (k, v) (_mk_headers self) ->
                  (k, v) = ("User-Agent", USER_AGENT)
                  \/ exists t, token self = Some t /\ t <> EmptyString
                               /\ (k, v) = ("Authorization", "Bearer " +:+ t))
  /\ (forall t, token self = Some t -> t <> EmptyString ->
                In ("Authorization", "Bearer " +:+ t) (_mk_headers self)).
Proof.
  unfold _mk_headers. split; [left; reflexivity|]. split.
  - intros k v [H|H]; [left; now symmetry|right].
    destruct (token self) as [t|]; [|destruct H].
    destruct t as [|c t]; [destruct H|].
    destruct H as [H|[]]. exists (String c t). repeat split; [discriminate | now symmetry].
  - intros t -> Hne. destruct t as [|c t]; [contradiction|]. right. left. reflexivity.
Qed.

Lemma os_path_join_relative (a b c : string) :
  PyStr.startswith b "/" = false ->
  PyStr.startswith (b +:+ c) "/" = false ->
  PyStr.os_path_join a (b +:+ c) = PyStr.os_path_join a b +:+ c.
Proof.
  intros Hb Hbc. unfold PyStr.os_path_join. rewrite Hb, Hbc.
  destruct (negb (PyStr.truthy a) || PyStr.endswith_char a "/").
  - now rewrite PyStr.app_assoc.
  - now rewrite !PyStr.app_assoc.
Qed.

Lemma init_explicit_host api_name h tok w :
  __init__ api_name (Some h) tok w
  = (Ret {| api_uri := PyStr.os_path_join h api_name; token := tok |}, w).
Proof. reflexivity. Qed.

Lemma init_configured_host api_name tok w :
  __init__ api_name None tok w
  = (match resolve_host_token (config w) with
     | (Some h, t) => Ret {| api_uri := PyStr.os_path_join h api_name; token := t |}
     | (None, _) => Raise missing_host_error
     end,
     {| config := config w; net := net w; trace := trace w ++ [ReadConfig] |}).
Proof.
  unfold __init__, get_mlflow_host_token, log_event, bind, modify, get, ret, raise.
  cbn -[PyStr.os_path_join].
  destruct (resolve_host_token (config w)) as [[h|] t]; reflexivity.
Qed.

(** X4.  The two clients share the transport and differ in the base path only:
    for one host, the MLflow client's base URI is the platform client's
    with [/mlflow] appended, and both construct or fail together. *)
Theorem mlflow_base_extends_databricks_base host tok w :
  match DatabricksHttpClient host tok w with
  | (Ret c, w') =>
      MlflowHttpClient host tok w
      = (Ret {| api_uri := api_uri c +:+ "/mlflow"; token := token c |}, w')
  | (Raise e, w') => MlflowHttpClient host tok w = (Raise e, w')
  end.
Proof.
  unfold DatabricksHttpClient, MlflowHttpClient.
  assert (forall h, PyStr.os_path_join h "api/2.0/mlflow"
                    = PyStr.os_path_join h "api/2.0" +:+ "/mlflow") as Hjoin.
  { intros h. apply (os_path_join_relative h "api/2.0" "/mlflow"); reflexivity. }
  destruct host as [h|].
  - rewrite !init_explicit_host. cbn [api_uri token]. now rewrite Hjoin.
  - rewrite !init_configured_host.
    destruct (resolve_host_token (config w)) as [[h|] t];
      [cbn [api_uri token]; now rewrite Hjoin | reflexivity].
Qed.

(** ** The command line

    [main]: the click command behind the module.  [str.upper], a [str] as
    the Python object that [json.dumps] is handed, the file system behind
    [open(f, "w")] and the lines [f"  {k}: {v}"] of the items of [locals()]
    are given. *)

Section Main.

Variable upper : string -> string.
Variable py_str : string -> Json.
Variable Files : Type.
Variable write_file : string -> string -> Files -> outcome string unit * Files.
Variable locals_lines :
  string -> string -> string -> option string -> option string -> option string ->
  bool -> list string.

Inductive level : Type := INFO | ERROR.

Inductive main_exn : Type :=
| ClientError (e : exn)
| OSError (msg : string).

Record process : Type := mkProcess {
  outside : world;
  files : Files;
  logged : list (level * string)
}.

Definition _logger (lv : level) (line : string) : M process main_exn unit :=
  modify (fun p => {| outside := outside p; files := files p;
                      logged := logged p ++ [(lv, line)] |}).

(** A call on the client, made from [main]. *)
Definition in_world {A} (m : M world exn A) : M process main_exn A :=
  fun p => (match fst (m (outside p)) with
            | Ret a => Ret a
            | Raise e => Raise (ClientError e)
            end,
            {| outside := snd (m (outside p)); files := files p; logged := logged p |}).

(** [with open(output_file, "w", encoding="utf-8") as f: f.write(text)] *)
Definition open_write (f text : string) : M process main_exn unit :=
  fun p => (match fst (write_file f text (files p)) with
            | Ret _ => Ret tt
            | Raise msg => Raise (OSError msg)
            end,
            {| outside := outside p; files := snd (write_file f text (files p));
               logged := logged p |}).

Definition write_output (rsp : Response) (output_file : option string)
  : M process main_exn unit :=
  match output_file with
  | Some f =>
      if PyStr.truthy f
      then _logger INFO ("Output file: " +:+ f) ;; open_write f (text rsp)
      else _logger INFO (text rsp)
  | None => _logger INFO (text rsp)
  end.

Definition main (api resource method : string) (params data output_file : option string)
    (verbose : bool) : M process main_exn unit :=
  (if verbose
   then _logger INFO "Options:" ;;
        for_each (locals_lines api resource method params data output_file verbose)
                 (_logger INFO)
   else ret tt) ;;
  client <- in_world (if String.eqb api "databricks"
                      then DatabricksHttpClient None None
                      else MlflowHttpClient None None) ;;
  let method := upper method in
  if String.eqb "GET" method then
    params <- match params with
              | Some p =>
                  if PyStr.truthy p
                  then match json_loads p with
                       | Some j => ret (Some j)
                       | None => raise (ClientError (JSONDecodeError p))
                       end
                  else ret (Some (py_str p))
              | None => ret None
              end ;;
    rsp <- in_world (_get client resource params) ;;
    write_output rsp output_file
  else if String.eqb "POST" method then
    rsp <- in_world (_post client resource (py_str <$> data)) ;;
    write_output rsp output_file
  else _logger ERROR ("Unsupported HTTP method '" +:+ method +:+ "'").

(** The lines the verbose listing logs. *)
Definition options_logged (api resource method : string)
    (params data output_file : option string) (verbose : bool)
  : list (level * string) :=
  if verbose
  then (INFO, "Options:")
       :: map (pair INFO) (locals_lines api resource method params data output_file verbose)
  else [].

Lemma log_lines_run (ls : list string) :
  forall p, for_each ls (_logger INFO) p
            = (Ret tt, {| outside := outside p; files := files p;
                          logged := logged p ++ map (pair INFO) ls |}).
Proof.
  induction ls as [|l ls IH]; intros [w fs lg]; cbn.
  - now rewrite app_nil_r.
  - unfold bind, _logger, modify. cbn. rewrite IH. cbn.
    now rewrite <- app_assoc.
Qed.

Lemma options_run api resource method params data output_file (verbose : bool)
    (p : process) :
  (if verbose
   then _logger INFO "Options:" ;;
        for_each (locals_lines api resource method params data output_file verbose)
                 (_logger INFO)
   else ret tt) p
  = (Ret tt, {| outside := outside p; files := files p;
                logged := logged p ++ options_logged api resource method params data
                                                     output_file verbose |}).
Proof.
  unfold options_logged. destruct verbose.
  - unfold bind, _logger, modify. cbn. rewrite log_lines_run. cbn.
    now rewrite <- app_assoc.
  - destruct p. cbn. now rewrite app_nil_r.
Qed.

Lemma client_for_run (api : string) w :
  (if String.eqb api "databricks"
   then DatabricksHttpClient None None
   else MlflowHttpClient None None) w
  = (match resolve_host_token (config w) with
     | (Some h, t) =>
         Ret {| api_uri := PyStr.os_path_join h
                             (if String.eqb api "databricks"
                              then "api/2.0" else "api/2.0/mlflow");
                token := t |}
     | (None, _) => Raise missing_host_error
     end,
     {| config := config w; net := net w; trace := trace w ++ [ReadConfig] |}).
Proof.
  unfold DatabricksHttpClient, MlflowHttpClient.
  destruct (String.eqb api "databricks"); apply init_configured_host.
Qed.

(** X5.  A method that is neither GET nor POST once in upper case: [main]
    still builds the client, so the configuration is read and a missing
    host raises; with a host it logs the one error line and returns.  No
    request is sent and no file is written. *)
Theorem main_unsupported_method_sends_nothing
    api resource method params data output_file verbose p :
  upper method <> "GET" -> upper method <> "POST" ->
  let r := main api resource method params data output_file verbose p in
  let listed := options_logged api resource method params data output_file verbose in
  trace (outside (snd r)) = trace (outside p) ++ [ReadConfig]
  /\ net (outside (snd r)) = net (outside p)
  /\ files (snd r) = files p
  /\ match fst (resolve_host_token (config (outside p))) with
     | None => fst r = Raise (ClientError missing_host_error)
               /\ logged (snd r) = logged p ++ listed
     | Some _ =>
         fst r = Ret tt
         /\ logged (snd r)
            = logged p ++ listed
              ++ [(ERROR, "Unsupported HTTP method '" +:+ upper method +:+ "'")]
     end.
Proof.
  intros Hget Hpost r listed. subst listed.
  assert (r = main api resource method params data output_file verbose p) as Hr
    by reflexivity.
  clearbody r. unfold main in Hr.
  erewrite bind_ret_run in Hr by apply options_run.
  unfold bind at 1, in_world at 1 in Hr. cbn [outside files logged] in Hr.
  rewrite client_for_run in Hr. cbn [fst snd] in Hr.
  destruct (resolve_host_token _) as [[h|] t]; cbn [fst snd] in *.
  - destruct (String.eqb_spec "GET" (upper method)) as [E|_]; [now symmetry in E|].
    destruct (String.eqb_spec "POST" (upper method)) as [E|_]; [now symmetry in E|].
    subst r. cbn. rewrite <- app_assoc. auto.
  - subst r. cbn. auto.
Qed.

Lemma _get_run self resource params w :
  _get self resource params w
  = (checked (PObject <$> params)
       (fst (requests_send (request_of self GET resource (PObject <$> params)) (net w))),
     after_request (request_of self GET resource (PObject <$> params)) w).
Proof. unfold _get, request_of. apply checked_verb. Qed.

Lemma _post_run self resource data w :
  _post self resource data w
  = (checked (dumps_if_truthy data)
       (fst (requests_send (request_of self POST resource (dumps_if_truthy data)) (net w))),
     after_request (request_of self POST resource (dumps_if_truthy data)) w).
Proof. unfold _post, request_of. apply checked_verb. Qed.

Lemma checked_ret reported o rsp :
  checked reported o = Ret rsp -> o = Ret rsp /\ is_2xx rsp.
Proof.
  unfold checked. destruct o as [rsp'|e]; [|discriminate].
  destruct (decide _) as [H|H]; [|discriminate].
  intros [= <-]. split; [reflexivity | exact H].
Qed.

(** What [write_output] leaves behind: the world is untouched, and the
    files are what they were unless a non-empty output file is named, and
    then they are what one write of the response text to it makes them. *)
Lemma write_output_run rsp output_file p :
  outside (snd (write_output rsp output_file p)) = outside p
  /\ (files (snd (write_output rsp output_file p)) = files p
      \/ exists f, output_file = Some f /\ f <> EmptyString
                   /\ files (snd (write_output rsp output_file p))
                      = snd (write_file f (text rsp) (files p))).
Proof.
  unfold write_output. destruct output_file as [f|]; [|cbn; auto].
  destruct f as [|c f]; cbn; [auto|]. split; [reflexivity|].
  right. exists (String c f). repeat split. discriminate.
Qed.

(** X6.  [main] reads the configuration once and sends at most one request.
    It writes a file only after that request was answered with a 2xx
    status, and then it is one write of the answer's text to the output
    file that was named. *)
Theorem main_writes_only_after_2xx
    api resource method params data output_file verbose p :
  let r := main api resource method params data output_file verbose p in
  exists sent,
    trace (outside (snd r)) = trace (outside p) ++ ReadConfig :: sent
    /\ length sent <= 1
    /\ (files (snd r) = files p
        \/ exists rq rsp f,
             sent = [Sent rq]
             /\ fst (requests_send rq (net (outside p))) = Ret rsp
             /\ is_2xx rsp
             /\ output_file = Some f /\ f <> EmptyString
             /\ files (snd r) = snd (write_file f (text rsp) (files p))).
Proof.
  intros r.
  assert (r = main api resource method params data output_file verbose p) as Hr
    by reflexivity.
  clearbody r. unfold main in Hr.
  erewrite bind_ret_run in Hr by apply options_run.
  unfold bind at 1, in_world at 1 in Hr. cbn [outside files logged] in Hr.
  rewrite client_for_run in Hr. cbn [fst snd] in Hr.
  destruct (resolve_host_token _) as [[h|] t]; cbn [fst snd] in Hr;
    [|subst r; exists []; cbn; auto].
  set (c := {| api_uri := _; token := t |}) in Hr.
  set (p1 := {| outside := _; files := files p; logged := _ |}) in Hr.
  assert (forall (m : M world exn Response) rq reported,
             (forall w, m w = (checked reported (fst (requests_send rq (net w))),
                               after_request rq w)) ->
             let r := (rsp <- in_world m ;; write_output rsp output_file) p1 in
             trace (outside (snd r)) = trace (outside p) ++ ReadConfig :: [Sent rq]
             /\ (files (snd r) = files p
                 \/ exists rsp f,
                      fst (requests_send rq (net (outside p))) = Ret rsp
                      /\ is_2xx rsp
                      /\ output_file = Some f /\ f <> EmptyString
                      /\ files (snd r) = snd (write_file f (text rsp) (files p))))
    as Hsend.
  { intros m rq reported Hm. cbv zeta. unfold bind, in_world. rewrite Hm.
    cbn [fst snd outside files logged].
    destruct (checked reported _) as [rsp|e] eqn:Hc; cbn [fst snd].
    - apply checked_ret in Hc as [Hrsp H2].
      match goal with |- context [write_output rsp output_file ?q] =>
        destruct (write_output_run rsp output_file q) as [Hw Hf] end.
      rewrite Hw. cbn. rewrite <- app_assoc. split; [reflexivity|].
      destruct Hf as [Hf|(f & Ho & Hne & Hf)]; [left; exact Hf|].
      right. exists rsp, f. auto.
    - cbn. rewrite <- app_assoc. auto. }
  destruct (String.eqb "GET" (upper method)).
  - unfold bind at 1 in Hr.
    destruct params as [q|].
    + destruct (PyStr.truthy q).
      * destruct (json_loads q) as [j|].
        -- cbn [ret] in Hr. subst r.
           destruct (Hsend _ _ _ (_get_run c resource (Some j))) as [Ht Hf].
           exists [Sent (request_of c GET resource (PObject <$> Some j))].
           split; [exact Ht|]. split; [cbn; lia|].
           destruct Hf as [Hf|(rsp & f & H)]; [left; exact Hf|].
           right. exists (request_of c GET resource (PObject <$> Some j)), rsp, f. auto.
        -- subst r. cbn. exists []. cbn. auto.
      * cbn [ret] in Hr. subst r.
        destruct (Hsend _ _ _ (_get_run c resource (Some (py_str q)))) as [Ht Hf].
        exists [Sent (request_of c GET resource (PObject <$> Some (py_str q)))].
        split; [exact Ht|]. split; [cbn; lia|].
        destruct Hf as [Hf|(rsp & f & H)]; [left; exact Hf|].
        right. exists (request_of c GET resource (PObject <$> Some (py_str q))), rsp, f.
        auto.
    + cbn [ret] in Hr. subst r.
      destruct (Hsend _ _ _ (_get_run c resource None)) as [Ht Hf].
      exists [Sent (request_of c GET resource (PObject <$> None))].
      split; [exact Ht|]. split; [cbn; lia|].
      destruct Hf as [Hf|(rsp & f & H)]; [left; exact Hf|].
      right. exists (request_of c GET resource (PObject <$> None)), rsp, f. auto.
  - destruct (String.eqb "POST" (upper method)).
    + subst r.
      destruct (Hsend _ _ _ (_post_run c resource (py_str <$> data))) as [Ht Hf].
      eexists. split; [exact Ht|]. split; [cbn; lia|].
      destruct Hf as [Hf|(rsp & f & H)]; [left; exact Hf|].
      right. eexists _, rsp, f. split; [reflexivity|]. exact H.
    + subst r. exists []. cbn. auto.
Qed.

End Main.

End Client.

(** ** A client against a canned server

    JSON documents are kept as their text; a document parses when it opens
    with a brace.  The configuration is the (host, token) pair it resolves
    to; the network answers every request with one fixed response. *)

Module Canned.

Definition Json : Type := string.
Definition json_loads (s : string) : option Json :=
  if PyStr.startswith s "{" then Some s else None.
Definition Config : Type := (option string * option string)%type.
Definition Net : Type := Response.
Definition send (r : Request Json) (n : Net) : outcome (exn Json) Response * Net :=
  (Ret n, n).

Definition world0 (c : Config) (answer : Response) : world Json Config Net :=
  {| config := c; net := answer; trace := [] |}.

Definition client : HttpClient :=
  {| api_uri := "http://localhost:5000/api/2.0/mlflow"; token := None |}.

Definition server_error : Response :=
  {| status_code := 500; reason := "Internal Server Error";
     url := "http://localhost:5000/api/2.0/mlflow/registered-models/alias";
     text := "oops" |}.

Definition submitted : string := "{name: m, alias: champion}".

Definition USER_AGENT : string := "mlflow-export-import".

Definition canned_put := _put Json json_loads Config Net USER_AGENT send.
Definition canned_patch := _patch Json json_loads Config Net USER_AGENT send.
Definition canned_post :=
  _post Json (fun j => j) json_loads PyStr.truthy Config Net USER_AGENT send.
Definition canned_init := __init__ Json Config Net (fun c => c).

Definition error_500 (params : option (payload Json)) : exn Json :=
  ApiError Json {|
    message := "Internal Server Error";
    http_status_code := Some 500%Z;
    http_reason := Some "Internal Server Error";
    exc_uri := Some "http://localhost:5000/api/2.0/mlflow/registered-models/alias";
    exc_params := params;
    exc_text := Some (PText Json "oops") |}.

(** C4 at a failing input: the server answers 500 to a PUT (or PATCH) that
    submitted [submitted].  The error raised reports no parameters; the
    same exchange through POST reports them. *)
Theorem put_error_omits_submitted_data :
  let w := world0 (None, None) server_error in
  fst (canned_put client "registered-models/alias" (Some (PText Json submitted)) w)
  = Raise (error_500 None)
  /\ fst (canned_patch client "registered-models/alias" (Some (PText Json submitted)) w)
    = Raise (error_500 None)
  /\ fst (canned_post client "registered-models/alias" (Some submitted) w)
    = Raise (error_500 (Some (PText Json submitted))).
Proof. repeat split; vm_compute; reflexivity. Qed.

(** C6 refuted as stated: the configuration resolves a host and no
    credential, and the client is constructed all the same. *)
Lemma init_without_credential_constructs :
  let c : Config := (Some "http://localhost:5000", None) in
  snd c = None
  /\ fst (canned_init "api/2.0/mlflow" None None (world0 c server_error))
    = Ret {| api_uri := "http://localhost:5000/api/2.0/mlflow"; token := None |}.
Proof. split; vm_compute; reflexivity. Qed.

Definition no_content : Response :=
  {| status_code := 200; reason := "OK";
     url := "http://localhost:5000/api/2.0/mlflow/runs/delete";
     text := "OK" |}.

Lemma get_2xx_without_json_witness :
  let w := world0 (None, None) no_content in
  fst (send (request_of Json USER_AGENT client GET "runs/delete" None) (net Json Config Net w))
  = Ret no_content
  /\ (200 <= status_code no_content <= 299)%Z
  /\ json_loads (text no_content) = None
  /\ fst (_get Json json_loads Config Net USER_AGENT send client "runs/delete" None w)
     = Ret no_content
  /\ fst (get Json json_loads Config Net USER_AGENT send client "runs/delete" None w)
     = Raise (JSONDecodeError Json "OK").
Proof.
  intros w.
  assert (fst (send (request_of Json USER_AGENT client GET "runs/delete"
                                (PObject Json <$> None)) (net Json Config Net w))
          = Ret no_content) as H1 by reflexivity.
  assert (200 <= status_code no_content <= 299)%Z as H2 by (cbn; lia).
  assert (json_loads (text no_content) = None) as H3 by reflexivity.
  split; [exact H1|]. split; [exact H2|]. split; [exact H3|].
  exact (get_2xx_without_json Json json_loads Config Net USER_AGENT send client
           "runs/delete" None w no_content H1 H2 H3).
Defined.

(** The command line against the canned server: a method is upper-cased
    letter by letter, the files are the (name, text) pairs written, and
    the verbose listing is empty. *)
Definition upper_char (c : ascii) : ascii :=
  let n := nat_of_ascii c in
  if (97 <=? n) && (n <=? 122) then ascii_of_nat (n - 32) else c.

Fixpoint upper (s : string) : string :=
  match s with
  | EmptyString => EmptyString
  | String c s' => String (upper_char c) (upper s')
  end.

Definition Files : Type := list (string * string).

Definition write_file (f t : string) (fs : Files) : outcome string unit * Files :=
  (Ret tt, fs ++ [(f, t)]).

Definition locals_lines (_ _ _ : string) (_ _ _ : option string) (_ : bool)
  : list string := [].

Definition canned_main :=
  main Json (fun j => j) json_loads PyStr.truthy Config Net USER_AGENT (fun c => c)
       send upper (fun s => s) Files write_file locals_lines.

Definition process0 (c : Config) (answer : Response) : process Json Config Net Files :=
  {| outside := world0 c answer; files := []; logged := [] |}.

Lemma main_unsupported_method_sends_nothing_witness :
  let p := process0 (Some "http://localhost:5000", None) no_content in
  let r := canned_main "mlflow" "experiments/search" "put" None None
                       (Some "out.json") false p in
  upper "put" <> "GET"
  /\ upper "put" <> "POST"
  /\ fst r = Ret tt
  /\ trace Json Config Net (outside Json Config Net Files (snd r)) = [ReadConfig Json]
  /\ files Json Config Net Files (snd r) = []
  /\ logged Json Config Net Files (snd r)
     = [(ERROR, "Unsupported HTTP method 'PUT'")].
Proof.
  intros p r.
  assert (upper "put" <> "GET") as H1 by discriminate.
  assert (upper "put" <> "POST") as H2 by discriminate.
  split; [exact H1|]. split; [exact H2|].
  pose proof (main_unsupported_method_sends_nothing
                Json (fun j => j) json_loads PyStr.truthy Config Net USER_AGENT
                (fun c => c) send upper (fun s => s) Files write_file locals_lines
                "mlflow" "experiments/search" "put" None None (Some "out.json")
                false p H1 H2) as H.
  cbv zeta in H. destruct H as (Ht & _ & Hf & Hm).
  cbn [process0 world0 outside config fst] in Hm. destruct Hm as [Hret Hlog].
  split; [exact Hret|]. split; [exact Ht|]. split; [exact Hf | exact Hlog].
Defined.

End Canned.

End HttpClient.


(** * Python dicts of tags *)

Module PyDict.

(** A [dict] from [str] to [str]: keys are unique and keep the order in
    which they were first inserted. *)
Definition dict : Type := list (string * string).

Definition keys (d : dict) : list string := map fst d.

(** [d.get(k)] *)
Fixpoint get (k : string) (d : dict) : option string :=
  match d with
  | [] => None
  | (k', v) :: d' => if String.eqb k' k then Some v else get k d'
  end.

(** [d[k] = v]: an existing key keeps its place, a new one goes last. *)
Fixpoint set (k v : string) (d : dict) : dict :=
  match d with
  | [] => [(k, v)]
  | (k', v') :: d' =>
      if String.eqb k' k then (k', v) :: d' else (k', v') :: set k v d'
  end.

(** [{ f(k): v for k, v in d.items() }] *)
Definition rekey (f : string -> string) (d : dict) : dict :=
  fold_left (fun acc kv => set (f (fst kv)) (snd kv) acc) d [].

Lemma keys_set (k v : string) (d : dict) (x : string) :
  In x (keys (set k v d)) <-> x = k \/ In x (keys d).
Proof.
  induction d as [|[k' v'] d IH]; simpl.
  - intuition congruence.
  - destruct (String.eqb_spec k' k) as [->|Hne]; simpl.
    + intuition congruence.
    + rewrite IH. intuition congruence.
Qed.

Lemma keys_rekey_acc (f : string -> string) (d acc : dict) (x : string) :
  In x (keys (fold_left (fun a kv => set (f (fst kv)) (snd kv) a) d acc))
  <-> In x (keys acc) \/ exists k, In k (keys d) /\ x = f k.
Proof.
  revert acc; induction d as [|[k v] d IH]; intros acc; simpl.
  - split; [auto | intros [H|(k & [] & _)]; exact H].
  - rewrite IH, keys_set. split.
    + intros [[->|H]|(k' & Hk' & ->)]; eauto 6.
    + intros [H|(k' & [<-|Hk'] & ->)]; eauto 6.
Qed.

Lemma keys_rekey (f : string -> string) (d : dict) (x : string) :
  In x (keys (rekey f d)) <-> exists k, In k (keys d) /\ x = f k.
Proof.
  unfold rekey. rewrite keys_rekey_acc. simpl. tauto.
Qed.

Lemma set_NoDup (k v : string) (d : dict) :
  NoDup (keys d) -> NoDup (keys (set k v d)).
Proof.
  induction d as [|[k' v'] d IH]; simpl; intros Hnd.
  - repeat constructor. intros H; inversion H.
  - apply NoDup_cons in Hnd as [Hnotin Hnd].
    destruct (String.eqb_spec k' k) as [->|Hne]; simpl.
    + apply NoDup_cons; split; assumption.
    + apply NoDup_cons; split; [|auto].
      rewrite list_elem_of_In, keys_set.
      intros [->|H]; [congruence|].
      apply Hnotin, list_elem_of_In, H.
Qed.

(** A key "has a dot" when ["." in k]. *)
Definition has_dot (k : string) : bool := PyStr.contains_char "." k.

Definition dot_free (d : dict) : Prop :=
  forall k, In k (keys d) -> has_dot k = false.

(** [k.replace(".", "_")] *)
Definition undot (k : string) : string := PyStr.replace_char "." "_" k.

Lemma rekey_undot_dot_free (d : dict) : dot_free (rekey undot d).
Proof.
  intros k Hk. apply keys_rekey in Hk as (k0 & _ & ->).
  apply PyStr.replace_char_free. discriminate.
Qed.

(** ** Lookup after update, and what a comprehension keeps *)

Lemma get_set_eq (k v : string) (d : dict) : get k (set k v d) = Some v.
Proof.
  induction d as [|[k' v'] d IH]; cbn.
  - now rewrite String.eqb_refl.
  - destruct (String.eqb_spec k' k) as [->|Hne]; cbn.
    + now rewrite String.eqb_refl.
    + apply String.eqb_neq in Hne. now rewrite Hne.
Qed.

Lemma get_set_ne (k k' v : string) (d : dict) :
  k <> k' -> get k' (set k v d) = get k' d.
Proof.
  intros Hne. induction d as [|[k0 v0] d IH]; cbn.
  - apply String.eqb_neq in Hne. now rewrite Hne.
  - destruct (String.eqb_spec k0 k) as [->|Hne0]; cbn.
    + apply String.eqb_neq in Hne. now rewrite Hne.
    + now rewrite IH.
Qed.

Lemma get_app (k : string) (d1 d2 : dict) :
  get k (d1 ++ d2) = match get k d1 with Some v => Some v | None => get k d2 end.
Proof.
  induction d1 as [|[k' v'] d1 IH]; cbn; [reflexivity|].
  destruct (String.eqb k' k); [reflexivity | exact IH].
Qed.

Lemma length_set (k v : string) (d : dict) : length (set k v d) <= S (length d).
Proof.
  induction d as [|[k' v'] d IH]; cbn; [lia|].
  destruct (String.eqb k' k); cbn; lia.
Qed.

(** The entries of [d] with their keys renamed, as a plain list. *)
Definition renamed (f : string -> string) (d : dict) : dict :=
  map (fun kv => (f (fst kv), snd kv)) d.

Lemma rekey_acc_spec (f : string -> string) (d acc : dict) :
  let r := fold_left (fun a kv => set (f (fst kv)) (snd kv) a) d acc in
  (NoDup (keys acc) -> NoDup (keys r))
  /\ length r <= length acc + length d
  /\ forall k, get k r = match get k (rev (renamed f d)) with
                         | Some v => Some v
                         | None => get k acc
                         end.
Proof.
  revert acc. induction d as [|[k0 v0] d IH]; intros acc.
  - cbn. repeat split; [auto | lia].
  - destruct (IH (set (f k0) v0 acc)) as (Hnd & Hlen & Hget).
    cbn [fold_left fst snd length].
    split; [intros H; apply Hnd, set_NoDup, H|]. split.
    + pose proof (length_set (f k0) v0 acc). lia.
    + intros k. rewrite Hget.
      change (renamed f ((k0, v0) :: d)) with ((f k0, v0) :: renamed f d).
      cbn [rev]. rewrite get_app.
      destruct (get k (rev (renamed f d))); [reflexivity|].
      cbn [get]. destruct (String.eqb_spec (f k0) k) as [<-|Hne].
      * apply get_set_eq.
      * now apply get_set_ne.
Qed.

(** X7.  The dict built by [{ f(k): v for k, v in d.items() }] has unique
    keys and at most as many entries as [d]; where two keys of [d] are
    renamed to the same key, the value of the later entry is the one kept. *)
Theorem rekey_last_wins (f : string -> string) (d : dict) :
  NoDup (keys (rekey f d))
  /\ length (rekey f d) <= length d
  /\ forall k, get k (rekey f d) = get k (rev (renamed f d)).
Proof.
  destruct (rekey_acc_spec f d []) as (Hnd & Hlen & Hget).
  split; [apply Hnd; constructor|]. split; [exact Hlen|].
  intros k. unfold rekey. rewrite Hget.
  destruct (get k (rev (renamed f d))); reflexivity.
Qed.

(** Two tags that differ only in dot against underscore are merged by the
    sanitisation, the later one winning. *)
Example undot_merges_tags :
  rekey undot [("a.b", "1"); ("c", "2"); ("a_b", "3")] = [("a_b", "3"); ("c", "2")].
Proof. reflexivity. Qed.

End PyDict.


(** * The Entity Copy Engine (copy/copy_model_version.py) *)

Module CopyModelVersion.
Import Eff PyDict.
Local Open Scope eff_scope.

(** A reference to a tag [dict] held in the store of Python objects. *)
Definition loc : Type := nat.

(** [mlflow.entities.model_registry.ModelVersion]; [T] is what [tags]
    holds: the dict itself on the wire, a reference to it in a Python
    object. *)
Record ModelVersionOf (T : Type) : Type := mkModelVersion {
  name : string;
  version : string;
  source : string;
  run_id : string;
  current_stage : string;
  aliases : list string;
  tags : T;
  description : string
}.
Arguments mkModelVersion {T}.
Arguments name {T}.
Arguments version {T}.
Arguments source {T}.
Arguments run_id {T}.
Arguments current_stage {T}.
Arguments aliases {T}.
Arguments tags {T}.
Arguments description {T}.

Definition ModelVersion : Type := ModelVersionOf loc.

(** [mlflow.entities.Run]: [run.info.run_id], [run.info.artifact_uri] and
    [run.data.tags]; the copy only reads a run's tags. *)
Record Run : Type := mkRun {
  info_run_id : string;
  info_artifact_uri : string;
  data_tags : dict
}.

Inductive exn : Type :=
| MlflowException (error_code msg : string)
| OtherException (msg : string).

(** [except MlflowException as e] *)
Definition is_MlflowException (e : exn) : bool :=
  match e with MlflowException _ _ => true | OtherException _ => false end.

(** The calls the copy makes on the MLflow clients and on [copy_run]. *)
Inductive call (client : Type) : Type :=
| GetRun (c : client) (run_id : string)
| CopyRun (run_id dst_experiment_name : string) (src dst : client)
| CreateRegisteredModel (c : client) (name : string)
| CreateModelVersion (c : client) (name source run_id : string) (tags : dict)
                     (description : string)
| TransitionModelVersionStage (c : client) (name version stage : string)
| SetRegisteredModelAlias (c : client) (name alias version : string)
| GetModelVersion (c : client) (name version : string).
Arguments GetRun {client}.
Arguments CopyRun {client}.
Arguments CreateRegisteredModel {client}.
Arguments CreateModelVersion {client}.
Arguments TransitionModelVersionStage {client}.
Arguments SetRegisteredModelAlias {client}.
Arguments GetModelVersion {client}.

(** What the tracking and registry servers do with those calls: [W] is the
    state of the servers, [client] names an [MlflowClient]. *)
Record Remote (W client : Type) : Type := mkRemote {
  tracking_uri : client -> string;
  remote_get_run : client -> string -> W -> outcome exn Run * W;
  remote_copy_run : string -> string -> client -> client -> W -> outcome exn Run * W;
  remote_create_registered_model : client -> string -> W -> outcome exn unit * W;
  remote_create_model_version :
    client -> string -> string -> string -> dict -> string ->
    W -> outcome exn (ModelVersionOf dict) * W;
  remote_transition_model_version_stage :
    client -> string -> string -> string -> W -> outcome exn unit * W;
  remote_set_registered_model_alias :
    client -> string -> string -> string -> W -> outcome exn unit * W;
  remote_get_model_version :
    client -> string -> string -> W -> outcome exn (ModelVersionOf dict) * W
}.
Arguments tracking_uri {W client}.
Arguments remote_get_run {W client}.
Arguments remote_copy_run {W client}.
Arguments remote_create_registered_model {W client}.
Arguments remote_create_model_version {W client}.
Arguments remote_transition_model_version_stage {W client}.
Arguments remote_set_registered_model_alias {W client}.
Arguments remote_get_model_version {W client}.

Section Copy.

Context {W client : Type}.
Variable api : Remote W client.

(** [ExportTags.PREFIX_ROOT] (common/source_tags.py),
    [copy_utils.get_model_name] and [model_utils.is_unity_catalog_model]
    are given. *)
Variable PREFIX_ROOT : string.
Variable get_model_name : string -> string.
Variable is_unity_catalog_model : string -> bool.

Record state : Type := mkState {
  store : list dict;
  remote : W;
  calls : list (call client);
  stdout : list string
}.

(** ** The store of tag dicts *)

Definition alloc (d : dict) : M state exn loc :=
  fun st => (Ret (length (store st)),
             {| store := store st ++ [d]; remote := remote st;
                calls := calls st; stdout := stdout st |}).

Definition load (l : loc) : M state exn dict :=
  fun st => (Ret (default [] (store st !! l)), st).

(** [tags[k] = v] *)
Definition setitem (l : loc) (k v : string) : M state exn unit :=
  fun st => (Ret tt,
             {| store := alter (PyDict.set k v) l (store st); remote := remote st;
                calls := calls st; stdout := stdout st |}).

(** [deepcopy(tags)]: a dict of strings is copied into a new object. *)
Definition deepcopy (l : loc) : M state exn loc :=
  d <- load l ;; alloc d.

Definition print (line : string) : M state exn unit :=
  modify (fun st => {| store := store st; remote := remote st;
                       calls := calls st; stdout := stdout st ++ [line] |}).

(** ** Calls on the clients *)

Definition invoke {A} (c : call client) (f : W -> outcome exn A * W)
  : M state exn A :=
  fun st => let '(o, w) := f (remote st) in
            (o, {| store := store st; remote := w;
                   calls := calls st ++ [c]; stdout := stdout st |}).

(** A model version arriving from a server becomes a Python object with a
    tag dict of its own. *)
Definition materialize (mv : ModelVersionOf dict) : M state exn ModelVersion :=
  l <- alloc (tags mv) ;;
  ret (mkModelVersion (name mv) (version mv) (source mv) (run_id mv)
                      (current_stage mv) (aliases mv) l (description mv)).

Definition get_run (c : client) (rid : string) : M state exn Run :=
  invoke (GetRun c rid) (remote_get_run api c rid).

Definition copy_run_copy (rid dst_experiment_name : string) (src dst : client)
  : M state exn Run :=
  invoke (CopyRun rid dst_experiment_name src dst)
         (remote_copy_run api rid dst_experiment_name src dst).

Definition create_registered_model (c : client) (nm : string) : M state exn unit :=
  invoke (CreateRegisteredModel c nm) (remote_create_registered_model api c nm).

(** [create_model_version(name, source, run_id, tags, description)]: the
    tags sent are what the dict holds at the time of the call. *)
Definition create_model_version (c : client) (nm src rid : string) (tgs : loc)
    (desc : string) : M state exn ModelVersion :=
  d <- load tgs ;;
  mv <- invoke (CreateModelVersion c nm src rid d desc)
               (remote_create_model_version api c nm src rid d desc) ;;
  materialize mv.

Definition transition_model_version_stage (c : client) (nm ver stage : string)
  : M state exn unit :=
  invoke (TransitionModelVersionStage c nm ver stage)
         (remote_transition_model_version_stage api c nm ver stage).

Definition set_registered_model_alias (c : client) (nm alias ver : string)
  : M state exn unit :=
  invoke (SetRegisteredModelAlias c nm alias ver)
         (remote_set_registered_model_alias api c nm alias ver).

Definition get_model_version (c : client) (nm ver : string)
  : M state exn ModelVersion :=
  mv <- invoke (GetModelVersion c nm ver) (remote_get_model_version api c nm ver) ;;
  materialize mv.

(** Modelled from the spec: [copy_utils.add_tag] is not among the
    sources.  Section 4.4, step 5: a selected tag of the source run is
    copied into the tag set, under the given prefix, only if the run has
    it; its absence is not an error. *)
Definition add_tag (src_tags : dict) (dst_tags : loc) (key prefix : string)
  : M state exn unit :=
  match PyDict.get key src_tags with
  | Some val => setitem dst_tags (prefix +:+ "." +:+ key) val
  | None => ret tt
  end.

(** ** copy_model_version.py *)

Definition _add_lineage_tags (src_version : ModelVersion) (run : Run)
    (dst_model_name : string) (src_client dst_client : client)
  : M state exn loc :=
  let prefix := PREFIX_ROOT +:+ ".src_run" in
  run <- (if negb (String.eqb (run_id src_version) (info_run_id run))
          then get_run src_client (run_id src_version)
          else ret run) ;;
  tags <- deepcopy (tags src_version) ;;
  setitem tags (PREFIX_ROOT +:+ ".src_version.name") (name src_version) ;;
  setitem tags (PREFIX_ROOT +:+ ".src_version.version") (version src_version) ;;
  setitem tags (PREFIX_ROOT +:+ ".src_version.run_id") (run_id src_version) ;;
  setitem tags (PREFIX_ROOT +:+ ".src_client.tracking_uri")
          (tracking_uri api src_client) ;;
  setitem tags (PREFIX_ROOT +:+ ".mlflow_exim.dst_client.tracking_uri")
          (tracking_uri api dst_client) ;;
  add_tag (data_tags run) tags "mlflow.databricks.workspaceURL" prefix ;;
  add_tag (data_tags run) tags "mlflow.databricks.webappURL" prefix ;;
  add_tag (data_tags run) tags "mlflow.databricks.workspaceID" prefix ;;
  add_tag (data_tags run) tags "mlflow.user" prefix ;;
  if is_unity_catalog_model dst_model_name
  then d <- load tags ;; alloc (rekey undot d)
  else ret tags.

Definition error_line (e : exn) : string :=
  match e with
  | MlflowException code msg =>
      "ERROR: error_code: " +:+ code +:+ ". Exception: " +:+ msg
  | OtherException msg => "ERROR: error_code: . Exception: " +:+ msg
  end.

(** [MlflowTrackingUriTweak(dst_client)] only swaps the process-wide
    tracking URI around the call it wraps; the calls here name their
    client, so it is left out. *)
Definition _copy_model_version (src_version : ModelVersion)
    (dst_model_name : string) (dst_experiment_name : option string)
    (src_client dst_client : client) (copy_lineage_tags : bool)
  : M state exn ModelVersion :=
  dst_run <- match dst_experiment_name with
             | Some e =>
                 if PyStr.truthy e
                 then copy_run_copy (run_id src_version) e src_client dst_client
                 else get_run src_client (run_id src_version)
             | None => get_run src_client (run_id src_version)
             end ;;
  let mlflow_model_name := get_model_name (source src_version) in
  let source_uri := info_artifact_uri dst_run +:+ "/" +:+ mlflow_model_name in
  tags <- (if copy_lineage_tags
           then _add_lineage_tags src_version dst_run dst_model_name
                                  src_client dst_client
           else ret (tags src_version)) ;;
  dst_version <- create_model_version dst_client dst_model_name source_uri
                   (info_run_id dst_run) tags (description src_version) ;;
  (if negb (is_unity_catalog_model (name dst_version))
   then transition_model_version_stage dst_client (name dst_version)
          (version dst_version) (current_stage src_version)
   else ret tt) ;;
  try_except
    (for_each (aliases src_version) (fun alias =>
       set_registered_model_alias dst_client (name dst_version) alias
                                  (version dst_version)))
    is_MlflowException
    (fun e => print (error_line e)) ;;
  get_model_version dst_client (name dst_version) (version dst_version).

(** [copy]: the two clients, which [copy_utils.mk_client] builds from
    the URIs, are given; the [verbose] dumps are left out. *)
Definition copy (src_model_name src_model_version dst_model_name : string)
    (dst_experiment_name : option string) (src_client dst_client : client)
    (copy_lineage_tags : bool)
  : M state exn (ModelVersion * ModelVersion) :=
  let src_uri := src_model_name +:+ "/" +:+ src_model_version in
  print ("Copying model version '" +:+ src_uri +:+ "' to '" +:+ dst_model_name +:+ "'") ;;
  create_registered_model dst_client dst_model_name ;;
  src_version <- get_model_version src_client src_model_name src_model_version ;;
  dst_version <- _copy_model_version src_version dst_model_name dst_experiment_name
                   src_client dst_client copy_lineage_tags ;;
  let dst_uri := name dst_version +:+ "/" +:+ version dst_version in
  print ("Copied model version '" +:+ src_uri +:+ "' to '" +:+ dst_uri +:+ "'") ;;
  ret (src_version, dst_version).

(** ** Dicts that exist are never written to

    [frame n st0 st]: the first [n] objects of the store are in [st] what
    they were in [st0]. *)
Definition frame (n : nat) (st0 st : state) : Prop :=
  n <= length (store st) /\ forall l, l < n -> store st !! l = store st0 !! l.

Section Frame.

Variable n : nat.
Variable st0 : state.
Let J : state -> Prop := frame n st0.

Lemma frame_alloc d : hoare J (alloc d) (fun l st => J st /\ n <= l) J.
Proof.
  intros st [Hlen Hkeep]. unfold J, frame. cbn.
  repeat split; [rewrite length_app; lia| |lia].
  intros l Hl. rewrite lookup_app_l by lia. auto.
Qed.

Lemma frame_load l : hoare J (load l) (fun _ => J) J.
Proof. intros st Hst. exact Hst. Qed.

Lemma frame_setitem l k v : n <= l -> hoare J (setitem l k v) (fun _ => J) J.
Proof.
  intros Hn st [Hlen Hkeep]. unfold J, frame. cbn.
  split; [now rewrite length_alter|].
  intros l' Hl'. rewrite list_lookup_alter_ne by lia. auto.
Qed.

Lemma frame_invoke {A} c (f : W -> outcome exn A * W) :
  hoare J (invoke c f) (fun _ => J) J.
Proof.
  intros st Hst. unfold invoke.
  destruct (f (remote st)) as [[a|e] w]; exact Hst.
Qed.

Lemma frame_add_tag src_tags l key prefix :
  n <= l -> hoare J (add_tag src_tags l key prefix) (fun _ => J) J.
Proof.
  intros Hn. unfold add_tag. destruct (PyDict.get key src_tags).
  - now apply frame_setitem.
  - apply hoare_ret. auto.
Qed.

Lemma frame_fresh {A} (m : loc -> M state exn A) l :
  (n <= l -> hoare J (m l) (fun _ => J) J) ->
  hoare (fun st => J st /\ n <= l) (m l) (fun _ => J) J.
Proof. intros H st [Hst Hl]. exact (H Hl st Hst). Qed.

Lemma frame_add_lineage_tags src_version run dst_model_name src_client dst_client :
  hoare J (_add_lineage_tags src_version run dst_model_name src_client dst_client)
        (fun _ => J) J.
Proof.
  unfold _add_lineage_tags.
  eapply hoare_bind.
  { destruct (negb _); [apply frame_invoke | apply hoare_ret; auto]. }
  intros run'. eapply hoare_bind.
  { eapply hoare_bind; [apply frame_load | intros d; apply frame_alloc]. }
  intros tgs. apply (frame_fresh (fun tgs => _ ;; _)). intros Hfresh.
  repeat (eapply hoare_bind;
          [first [now apply frame_setitem | now apply frame_add_tag] | intros ?]).
  destruct (is_unity_catalog_model dst_model_name).
  - eapply hoare_bind; [apply frame_load | intros d].
    eapply hoare_conseq; [apply frame_alloc | auto | | auto].
    intros ? ? [Hs _]. exact Hs.
  - apply hoare_ret. auto.
Qed.

End Frame.

(** C9.  Computing the lineage-tagged tag set leaves the source version's
    tag dict as it was: whatever [src_version.tags] held before the call it
    holds after it, whether the call returns or raises. *)
Theorem add_lineage_tags_keeps_source_tags
    src_version run dst_model_name src_client dst_client st d :
  store st !! tags src_version = Some d ->
  store (snd (_add_lineage_tags src_version run dst_model_name
                                src_client dst_client st))
    !! tags src_version = Some d.
Proof.
  intros Hd.
  pose proof (frame_add_lineage_tags (length (store st)) st
                src_version run dst_model_name src_client dst_client st) as H.
  assert (frame (length (store st)) st st) as H0 by (split; auto).
  specialize (H H0).
  apply lookup_lt_Some in Hd as Hlt.
  destruct (_add_lineage_tags _ _ _ _ _ st) as [[l|e] st']; cbn;
    destruct H as [_ H]; rewrite H; auto.
Qed.

(** ** Tags sent to a catalog-style registry *)

Definition creates_dot_free (cs : list (call client)) : Prop :=
  forall c nm src rid d desc,
    In (CreateModelVersion c nm src rid d desc) cs -> dot_free d.

Definition sends_dot_free (st : state) : Prop := creates_dot_free (calls st).

Lemma sends_calls_unchanged {A} (m : M state exn A) :
  (forall st, calls (snd (m st)) = calls st) ->
  hoare sends_dot_free m (fun _ => sends_dot_free) sends_dot_free.
Proof.
  intros H st Hst. specialize (H st). unfold sends_dot_free in *.
  destruct (m st) as [[a|e] st']; cbn in H; now rewrite H.
Qed.

Definition dot_free_call (c : call client) : Prop :=
  match c with
  | CreateModelVersion _ _ _ _ d _ => dot_free d
  | _ => True
  end.

Lemma sends_invoke {A} c (f : W -> outcome exn A * W) :
  dot_free_call c ->
  hoare sends_dot_free (invoke c f) (fun _ => sends_dot_free) sends_dot_free.
Proof.
  intros Hc st Hst. unfold invoke.
  assert (creates_dot_free (calls st ++ [c])) as H.
  { intros c' nm src rid d desc Hin. apply in_app_or in Hin as [Hin|[Heq|[]]].
    - exact (Hst _ _ _ _ _ _ Hin).
    - subst c. exact Hc. }
  destruct (f (remote st)) as [[a|e] w]; exact H.
Qed.

Lemma sends_add_tag src_tags l key prefix :
  hoare sends_dot_free (add_tag src_tags l key prefix)
        (fun _ => sends_dot_free) sends_dot_free.
Proof.
  apply sends_calls_unchanged. intros st. unfold add_tag.
  destruct (PyDict.get key src_tags); reflexivity.
Qed.

Lemma sends_materialize mv :
  hoare sends_dot_free (materialize mv) (fun _ => sends_dot_free) sends_dot_free.
Proof. apply sends_calls_unchanged. reflexivity. Qed.

(** With a catalog-style destination, the lineage-tagged tag set comes
    back with no dot in any key. *)
Lemma add_lineage_tags_dot_free src_version run dst_model_name src_client dst_client :
  is_unity_catalog_model dst_model_name = true ->
  hoare sends_dot_free
        (_add_lineage_tags src_version run dst_model_name src_client dst_client)
        (fun l st => sends_dot_free st /\ dot_free (default [] (store st !! l)))
        sends_dot_free.
Proof.
  intros Huc. unfold _add_lineage_tags. rewrite Huc.
  eapply hoare_bind.
  { destruct (negb _); [now apply sends_invoke | apply hoare_ret; auto]. }
  intros run'. eapply hoare_bind.
  { apply sends_calls_unchanged. reflexivity. }
  intros tgs.
  repeat (eapply hoare_bind;
          [first [apply sends_add_tag
                 | apply sends_calls_unchanged; reflexivity] | intros ?]).
  intros st Hst. cbn. split; [exact Hst|].
  rewrite list_lookup_middle by reflexivity. cbn.
  apply rekey_undot_dot_free.
Qed.

Lemma sends_create_model_version c nm src rid l desc :
  hoare (fun st => sends_dot_free st /\ dot_free (default [] (store st !! l)))
        (create_model_version c nm src rid l desc)
        (fun _ => sends_dot_free) sends_dot_free.
Proof.
  unfold create_model_version.
  eapply hoare_bind with
    (R := fun d st => sends_dot_free st /\ dot_free d).
  { intros st [Hst Hd]. split; assumption. }
  intros d. eapply hoare_bind with (R := fun _ => sends_dot_free).
  - intros st [Hst Hd].
    exact (sends_invoke (CreateModelVersion c nm src rid d desc) _ Hd st Hst).
  - intros mv. apply sends_materialize.
Qed.

(** X8.  The lineage path of a copy to a catalog-style destination sends only
    dot-free tag keys. *)
Lemma lineage_copy_sends_dot_free
    src_version dst_model_name dst_experiment_name src_client dst_client :
  is_unity_catalog_model dst_model_name = true ->
  hoare sends_dot_free
        (_copy_model_version src_version dst_model_name dst_experiment_name
                             src_client dst_client true)
        (fun _ => sends_dot_free) sends_dot_free.
Proof.
  intros Huc. unfold _copy_model_version.
  eapply hoare_bind with (R := fun _ => sends_dot_free).
  { destruct dst_experiment_name as [e|]; [destruct (PyStr.truthy e)|];
      now apply sends_invoke. }
  intros dst_run. eapply hoare_bind.
  { now apply add_lineage_tags_dot_free. }
  intros tgs. eapply hoare_bind; [apply sends_create_model_version|].
  intros dst_version. eapply hoare_bind with (R := fun _ => sends_dot_free).
  { destruct (negb _); [now apply sends_invoke | apply hoare_ret; auto]. }
  intros ?. eapply hoare_bind with (R := fun _ => sends_dot_free).
  { eapply hoare_try_except with (X' := sends_dot_free); [| |auto].
    - apply hoare_for_each. intros alias. now apply sends_invoke.
    - intros e. apply sends_calls_unchanged. reflexivity. }
  intros ?. eapply hoare_bind; [now apply sends_invoke|].
  intros mv. apply sends_materialize.
Qed.

(** ** Alias replication *)

(** Lines 58-79: the destination run, the tag set, the new version and its
    stage. *)
Definition copy_version_and_stage (src_version : ModelVersion)
    (dst_model_name : string) (dst_experiment_name : option string)
    (src_client dst_client : client) (copy_lineage_tags : bool)
  : M state exn ModelVersion :=
  dst_run <- match dst_experiment_name with
             | Some e =>
                 if PyStr.truthy e
                 then copy_run_copy (run_id src_version) e src_client dst_client
                 else get_run src_client (run_id src_version)
             | None => get_run src_client (run_id src_version)
             end ;;
  tags <- (if copy_lineage_tags
           then _add_lineage_tags src_version dst_run dst_model_name
                                  src_client dst_client
           else ret (tags src_version)) ;;
  dst_version <- create_model_version dst_client dst_model_name
                   (info_artifact_uri dst_run +:+ "/" +:+
                    get_model_name (source src_version))
                   (info_run_id dst_run) tags (description src_version) ;;
  (if negb (is_unity_catalog_model (name dst_version))
   then transition_model_version_stage dst_client (name dst_version)
          (version dst_version) (current_stage src_version)
   else ret tt) ;;
  ret dst_version.

(** Lines 82-83: the loop inside the [try]. *)
Definition set_aliases (dst_client : client) (dst_version : ModelVersion)
    (als : list string) : M state exn unit :=
  for_each als (fun alias =>
    set_registered_model_alias dst_client (name dst_version) alias
                               (version dst_version)).

Lemma _copy_model_version_blocks
    src_version dst_model_name dst_experiment_name src_client dst_client lineage st :
  _copy_model_version src_version dst_model_name dst_experiment_name
                      src_client dst_client lineage st
  = (dst_version <- copy_version_and_stage src_version dst_model_name
                      dst_experiment_name src_client dst_client lineage ;;
     try_except (set_aliases dst_client dst_version (aliases src_version))
                is_MlflowException (fun e => print (error_line e)) ;;
     get_model_version dst_client (name dst_version) (version dst_version)) st.
Proof.
  unfold _copy_model_version, copy_version_and_stage, set_aliases, bind.
  repeat match goal with
         | |- context [match ?m st with _ => _ end] =>
             destruct (m st) as [[?|?] ?]; try reflexivity
         | |- context [match ?m ?s with _ => _ end] =>
             is_var s; destruct (m s) as [[?|?] ?]; try reflexivity
         end.
Qed.

(** C2, as the code has it.  The [try] encloses the whole loop: when
    setting alias [a] raises an MlflowException after the aliases in front
    of it were set, the error is printed once, no alias after [a] is
    attempted, and the copy goes on to re-fetch the destination version,
    whose outcome is the outcome of the copy. *)
Theorem alias_failure_ends_replication
    src_version dst_model_name dst_experiment_name src_client dst_client lineage
    st dst_version st1 pre a post st2 code msg w3 :
  aliases src_version = pre ++ a :: post ->
  copy_version_and_stage src_version dst_model_name dst_experiment_name
                         src_client dst_client lineage st
  = (Ret dst_version, st1) ->
  set_aliases dst_client dst_version pre st1 = (Ret tt, st2) ->
  remote_set_registered_model_alias api dst_client (name dst_version) a
                                    (version dst_version) (remote st2)
  = (Raise (MlflowException code msg), w3) ->
  _copy_model_version src_version dst_model_name dst_experiment_name
                      src_client dst_client lineage st
  = get_model_version dst_client (name dst_version) (version dst_version)
      {| store := store st2;
         remote := w3;
         calls := calls st2 ++ [SetRegisteredModelAlias dst_client
                                  (name dst_version) a (version dst_version)];
         stdout := stdout st2 ++ [error_line (MlflowException code msg)] |}.
Proof.
  intros Hals Hhead Hpre Hfail.
  assert (set_aliases dst_client dst_version (aliases src_version) st1
          = (Raise (MlflowException code msg),
             {| store := store st2; remote := w3;
                calls := calls st2 ++ [SetRegisteredModelAlias dst_client
                           (name dst_version) a (version dst_version)];
                stdout := stdout st2 |})) as Hloop.
  { rewrite Hals. unfold set_aliases. eapply for_each_raise; [exact Hpre|].
    unfold set_registered_model_alias, invoke. now rewrite Hfail. }
  rewrite _copy_model_version_blocks. unfold bind at 1. rewrite Hhead.
  unfold bind at 1, try_except. rewrite Hloop. reflexivity.
Qed.

(** ** Which calls a copy makes *)

(** A computation that works on the store only: the servers, the calls
    made and the output are left as they were. *)
Definition store_only {A} (m : M state exn A) : Prop :=
  forall st, calls (snd (m st)) = calls st
             /\ stdout (snd (m st)) = stdout st
             /\ remote (snd (m st)) = remote st.

Lemma store_only_bind {A B} (m : M state exn A) (k : A -> M state exn B) :
  store_only m -> (forall a, store_only (k a)) -> store_only (bind m k).
Proof.
  intros Hm Hk st. unfold bind. specialize (Hm st).
  destruct (m st) as [[a|e] st1]; cbn in Hm; [|exact Hm].
  destruct (Hk a st1) as (H1 & H2 & H3), Hm as (H4 & H5 & H6).
  repeat split; congruence.
Qed.

Lemma store_only_add_tag src_tags l key prefix :
  store_only (add_tag src_tags l key prefix).
Proof.
  intros st. unfold add_tag. destruct (PyDict.get key src_tags); cbn; auto.
Qed.

(** Lines 95-112: [_add_lineage_tags] once the source run is at hand. *)
Definition lineage_tags_from (src_version : ModelVersion) (run : Run)
    (dst_model_name : string) (src_client dst_client : client)
  : M state exn loc :=
  let prefix := PREFIX_ROOT +:+ ".src_run" in
  tags <- deepcopy (tags src_version) ;;
  setitem tags (PREFIX_ROOT +:+ ".src_version.name") (name src_version) ;;
  setitem tags (PREFIX_ROOT +:+ ".src_version.version") (version src_version) ;;
  setitem tags (PREFIX_ROOT +:+ ".src_version.run_id") (run_id src_version) ;;
  setitem tags (PREFIX_ROOT +:+ ".src_client.tracking_uri")
          (tracking_uri api src_client) ;;
  setitem tags (PREFIX_ROOT +:+ ".mlflow_exim.dst_client.tracking_uri")
          (tracking_uri api dst_client) ;;
  add_tag (data_tags run) tags "mlflow.databricks.workspaceURL" prefix ;;
  add_tag (data_tags run) tags "mlflow.databricks.webappURL" prefix ;;
  add_tag (data_tags run) tags "mlflow.databricks.workspaceID" prefix ;;
  add_tag (data_tags run) tags "mlflow.user" prefix ;;
  if is_unity_catalog_model dst_model_name
  then d <- load tags ;; alloc (rekey undot d)
  else ret tags.

Lemma _add_lineage_tags_blocks src_version run dst_model_name src_client dst_client :
  _add_lineage_tags src_version run dst_model_name src_client dst_client
  = (run <- (if negb (String.eqb (run_id src_version) (info_run_id run))
             then get_run src_client (run_id src_version)
             else ret run) ;;
     lineage_tags_from src_version run dst_model_name src_client dst_client).
Proof. reflexivity. Qed.

Lemma lineage_tags_from_store_only src_version run dst_model_name src_client dst_client :
  store_only (lineage_tags_from src_version run dst_model_name src_client dst_client).
Proof.
  unfold lineage_tags_from.
  repeat (apply store_only_bind;
          [first [apply store_only_add_tag | intros st; cbn; auto] | intros ?]).
  destruct (is_unity_catalog_model dst_model_name).
  - apply store_only_bind; [|intros ?]; intros st; cbn; auto.
  - intros st; cbn; auto.
Qed.

(** X9.  Computing the lineage tags talks to a server for one thing only, the
    source run, and only when the run at hand is not the source run: then
    one [get_run] goes to the source client, otherwise no call is made and
    the servers are left alone.  Nothing is printed. *)
Theorem add_lineage_tags_fetches_only_source_run
    src_version run dst_model_name src_client dst_client st :
  let st' := snd (_add_lineage_tags src_version run dst_model_name
                                    src_client dst_client st) in
  stdout st' = stdout st
  /\ if String.eqb (run_id src_version) (info_run_id run)
     then calls st' = calls st /\ remote st' = remote st
     else calls st' = calls st ++ [GetRun src_client (run_id src_version)].
Proof.
  cbn zeta.
  destruct (String.eqb (run_id src_version) (info_run_id run)) eqn:E.
  - assert (_add_lineage_tags src_version run dst_model_name src_client dst_client st
            = lineage_tags_from src_version run dst_model_name src_client dst_client st)
      as ->.
    { rewrite _add_lineage_tags_blocks. unfold bind at 1. now rewrite E. }
    destruct (lineage_tags_from_store_only src_version run dst_model_name
                src_client dst_client st) as (H1 & H2 & H3). auto.
  - set (s1 w := {| store := store st; remote := w;
                    calls := calls st ++ [GetRun src_client (run_id src_version)];
                    stdout := stdout st |}).
    assert (_add_lineage_tags src_version run dst_model_name src_client dst_client st
            = match remote_get_run api src_client (run_id src_version) (remote st) with
              | (Ret run', w) =>
                  lineage_tags_from src_version run' dst_model_name
                                    src_client dst_client (s1 w)
              | (Raise e, w) => (Raise e, s1 w)
              end) as ->.
    { rewrite _add_lineage_tags_blocks. unfold bind at 1. rewrite E. cbn [negb].
      unfold get_run, invoke.
      destruct (remote_get_run api src_client (run_id src_version) (remote st))
        as [[run'|e] w]; reflexivity. }
    destruct (remote_get_run api src_client (run_id src_version) (remote st))
      as [[run'|e] w]; [|cbn; auto].
    destruct (lineage_tags_from_store_only src_version run' dst_model_name
                src_client dst_client (s1 w)) as (H1 & H2 & _).
    rewrite H1, H2. cbn. auto.
Qed.

(** ** Aliases that are all accepted, and failures that are not caught *)

Lemma set_aliases_returns dst_client dst_version als :
  forall st st',
    set_aliases dst_client dst_version als st = (Ret tt, st') ->
    calls st' = calls st ++ map (fun alias =>
                  SetRegisteredModelAlias dst_client (name dst_version) alias
                                          (version dst_version)) als
    /\ stdout st' = stdout st
    /\ store st' = store st.
Proof.
  unfold set_aliases.
  induction als as [|a als IH]; intros st st' H; cbn [for_each map] in *.
  - injection H as <-. now rewrite app_nil_r.
  - apply bind_ret_inv in H as ([] & s1 & Ha & Hrest).
    unfold set_registered_model_alias, invoke in Ha.
    destruct (remote_set_registered_model_alias api _ _ _ _ (remote st))
      as [[[]|e] w]; [|discriminate].
    injection Ha as <-.
    destruct (IH _ _ Hrest) as (Hc & Ho & Hs). cbn in Hc, Ho, Hs.
    rewrite Hc, Ho, Hs, <- app_assoc. auto.
Qed.

(** X10.  When the destination accepts every alias, the aliases of the source
    version are set on the new version one by one in their order, nothing
    is printed, and the copy ends with the re-fetch of the new version. *)
Theorem aliases_replicated_in_order
    src_version dst_model_name dst_experiment_name src_client dst_client lineage
    st dst_version st1 st2 :
  copy_version_and_stage src_version dst_model_name dst_experiment_name
                         src_client dst_client lineage st
  = (Ret dst_version, st1) ->
  set_aliases dst_client dst_version (aliases src_version) st1 = (Ret tt, st2) ->
  calls st2 = calls st1 ++ map (fun alias =>
                SetRegisteredModelAlias dst_client (name dst_version) alias
                                        (version dst_version)) (aliases src_version)
  /\ stdout st2 = stdout st1
  /\ _copy_model_version src_version dst_model_name dst_experiment_name
                         src_client dst_client lineage st
     = get_model_version dst_client (name dst_version) (version dst_version) st2.
Proof.
  intros Hhead Hloop.
  destruct (set_aliases_returns _ _ _ _ _ Hloop) as (Hc & Ho & _).
  split; [exact Hc|]. split; [exact Ho|].
  rewrite _copy_model_version_blocks. unfold bind at 1. rewrite Hhead.
  unfold bind at 1, try_except. now rewrite Hloop.
Qed.

(** X11.  Only an MlflowException is caught around the alias loop: when setting
    an alias raises anything else, the copy raises it, prints nothing and
    does not re-fetch the new version, which stays created. *)
Theorem other_alias_failure_aborts_copy
    src_version dst_model_name dst_experiment_name src_client dst_client lineage
    st dst_version st1 pre a post st2 msg w3 :
  aliases src_version = pre ++ a :: post ->
  copy_version_and_stage src_version dst_model_name dst_experiment_name
                         src_client dst_client lineage st
  = (Ret dst_version, st1) ->
  set_aliases dst_client dst_version pre st1 = (Ret tt, st2) ->
  remote_set_registered_model_alias api dst_client (name dst_version) a
                                    (version dst_version) (remote st2)
  = (Raise (OtherException msg), w3) ->
  _copy_model_version src_version dst_model_name dst_experiment_name
                      src_client dst_client lineage st
  = (Raise (OtherException msg),
     {| store := store st2;
        remote := w3;
        calls := calls st2 ++ [SetRegisteredModelAlias dst_client
                                 (name dst_version) a (version dst_version)];
        stdout := stdout st2 |}).
Proof.
  intros Hals Hhead Hpre Hfail.
  assert (set_aliases dst_client dst_version (aliases src_version) st1
          = (Raise (OtherException msg),
             {| store := store st2; remote := w3;
                calls := calls st2 ++ [SetRegisteredModelAlias dst_client
                           (name dst_version) a (version dst_version)];
                stdout := stdout st2 |})) as Hloop.
  { rewrite Hals. unfold set_aliases. eapply for_each_raise; [exact Hpre|].
    unfold set_registered_model_alias, invoke. now rewrite Hfail. }
  rewrite _copy_model_version_blocks. unfold bind at 1. rewrite Hhead.
  unfold bind at 1, try_except. rewrite Hloop. reflexivity.
Qed.

(** X12.  [copy] creates the destination registered model first and reads the
    source version second: when the source version cannot be read, the copy
    raises that error with the registered model already created and no
    version created. *)
Theorem copy_creates_model_before_reading_source
    src_model_name src_model_version dst_model_name dst_experiment_name
    src_client dst_client lineage st w1 e w2 :
  remote_create_registered_model api dst_client dst_model_name (remote st)
  = (Ret tt, w1) ->
  remote_get_model_version api src_client src_model_name src_model_version w1
  = (Raise e, w2) ->
  copy src_model_name src_model_version dst_model_name dst_experiment_name
       src_client dst_client lineage st
  = (Raise e,
     {| store := store st;
        remote := w2;
        calls := (calls st ++ [CreateRegisteredModel dst_client dst_model_name])
                 ++ [GetModelVersion src_client src_model_name src_model_version];
        stdout := stdout st ++
                  ["Copying model version '" +:+
                   (src_model_name +:+ "/" +:+ src_model_version) +:+
                   "' to '" +:+ dst_model_name +:+ "'"] |}).
Proof.
  intros Hcreate Hget.
  unfold copy, bind, print, modify, create_registered_model, get_model_version,
    invoke. cbn.
  rewrite Hcreate. unfold bind. cbn. rewrite Hget. reflexivity.
Qed.

(** ** Properties of the list of calls *)

(** [m] keeps a property of the calls made so far, whether it returns or
    raises. *)
Definition calls_inv (Pc : list (call client) -> Prop) {A} (m : M state exn A)
  : Prop :=
  hoare (fun s => Pc (calls s)) m (fun _ s => Pc (calls s)) (fun s => Pc (calls s)).

Definition calls_kept {A} (m : M state exn A) : Prop :=
  forall st, calls (snd (m st)) = calls st.

Definition is_create (c : call client) : bool :=
  match c with
  | CreateModelVersion _ _ _ _ _ _ => true
  | _ => false
  end.

Definition is_transition (c : call client) : bool :=
  match c with
  | TransitionModelVersionStage _ _ _ _ => true
  | _ => false
  end.

Section CallsInv.

Variable Pc : list (call client) -> Prop.

Lemma calls_inv_kept {A} (m : M state exn A) : calls_kept m -> calls_inv Pc m.
Proof.
  intros H st Hst. specialize (H st).
  destruct (m st) as [[a|e] st']; cbn in H; now rewrite H.
Qed.

Lemma calls_inv_store_only {A} (m : M state exn A) : store_only m -> calls_inv Pc m.
Proof. intros H. apply calls_inv_kept. intros st. apply H. Qed.

Lemma calls_inv_invoke {A} c (f : W -> outcome exn A * W) :
  (forall cs, Pc cs -> Pc (cs ++ [c])) -> calls_inv Pc (invoke c f).
Proof.
  intros Hc st Hst. unfold invoke.
  destruct (f (remote st)) as [[a|e] w]; cbn; auto.
Qed.

Lemma calls_inv_bind {A B} (m : M state exn A) (k : A -> M state exn B) :
  calls_inv Pc m -> (forall a, calls_inv Pc (k a)) -> calls_inv Pc (bind m k).
Proof. intros Hm Hk. eapply hoare_bind; [exact Hm | exact Hk]. Qed.

Lemma calls_inv_ret {A} (a : A) : calls_inv Pc (ret a).
Proof. apply hoare_ret. auto. Qed.

Lemma calls_inv_materialize mv : calls_inv Pc (materialize mv).
Proof. apply calls_inv_kept. intros st. reflexivity. Qed.

Lemma calls_inv_get_model_version c nm ver :
  (forall cs, Pc cs -> Pc (cs ++ [GetModelVersion c nm ver])) ->
  calls_inv Pc (get_model_version c nm ver).
Proof.
  intros H. apply calls_inv_bind; [now apply calls_inv_invoke|].
  apply calls_inv_materialize.
Qed.

Lemma calls_inv_add_lineage_tags (src_version : ModelVersion) run dst_model_name
    src_client dst_client :
  (forall cs, Pc cs -> Pc (cs ++ [GetRun src_client (run_id src_version)])) ->
  calls_inv Pc (_add_lineage_tags src_version run dst_model_name
                                  src_client dst_client).
Proof.
  intros H. rewrite _add_lineage_tags_blocks. apply calls_inv_bind.
  - destruct (negb _); [now apply calls_inv_invoke | apply calls_inv_ret].
  - intros run'. apply calls_inv_store_only, lineage_tags_from_store_only.
Qed.

(** Lines 58-61: the destination run. *)
Definition fetch_dst_run (src_version : ModelVersion)
    (dst_experiment_name : option string) (src_client dst_client : client)
  : M state exn Run :=
  match dst_experiment_name with
  | Some e =>
      if PyStr.truthy e
      then copy_run_copy (run_id src_version) e src_client dst_client
      else get_run src_client (run_id src_version)
  | None => get_run src_client (run_id src_version)
  end.

Lemma calls_inv_fetch_dst_run (src_version : ModelVersion) dst_experiment_name
    src_client dst_client :
  (forall c cs, Pc cs -> is_create c = false -> is_transition c = false ->
                Pc (cs ++ [c])) ->
  calls_inv Pc (fetch_dst_run src_version dst_experiment_name src_client dst_client).
Proof.
  intros H. unfold fetch_dst_run.
  destruct dst_experiment_name as [e|]; [destruct (PyStr.truthy e)|];
    apply calls_inv_invoke; intros cs Hcs; apply H; auto.
Qed.

(** The part of [_copy_model_version] after the version is created. *)
Lemma calls_inv_after_create (src_version : ModelVersion) dst_client
    (dst_version : ModelVersion) :
  (forall cs, Pc cs ->
     is_unity_catalog_model (name dst_version) = false ->
     Pc (cs ++ [TransitionModelVersionStage dst_client (name dst_version)
                  (version dst_version) (current_stage src_version)])) ->
  (forall alias cs, Pc cs ->
     Pc (cs ++ [SetRegisteredModelAlias dst_client (name dst_version) alias
                  (version dst_version)])) ->
  (forall cs, Pc cs ->
     Pc (cs ++ [GetModelVersion dst_client (name dst_version) (version dst_version)])) ->
  calls_inv Pc
    ((if negb (is_unity_catalog_model (name dst_version))
      then transition_model_version_stage dst_client (name dst_version)
             (version dst_version) (current_stage src_version)
      else ret tt) ;;
     try_except
       (for_each (aliases src_version) (fun alias =>
          set_registered_model_alias dst_client (name dst_version) alias
                                     (version dst_version)))
       is_MlflowException
       (fun e => print (error_line e)) ;;
     get_model_version dst_client (name dst_version) (version dst_version)).
Proof.
  intros Ht Ha Hg. apply calls_inv_bind.
  - destruct (is_unity_catalog_model (name dst_version)) eqn:E; cbn [negb].
    + apply calls_inv_ret.
    + apply calls_inv_invoke. intros cs Hcs. now apply Ht.
  - intros ?. apply calls_inv_bind; [|intros ?; now apply calls_inv_get_model_version].
    eapply hoare_try_except with (X' := fun s => Pc (calls s)); [| |auto].
    + apply hoare_for_each. intros alias. apply calls_inv_invoke.
      intros cs Hcs. now apply Ha.
    + intros e. apply calls_inv_kept. intros st. reflexivity.
Qed.

End CallsInv.

(** How many times a version was asked to be created. *)
Definition creations (cs : list (call client)) : nat :=
  length (List.filter is_create cs).

Lemma creations_app cs c :
  creations (cs ++ [c]) = creations cs + (if is_create c then 1 else 0).
Proof.
  unfold creations. rewrite List.filter_app, length_app. cbn.
  destruct (is_create c); reflexivity.
Qed.

(** X13.  A copy asks for the creation of a version exactly once when it
    returns, and at most once when it raises. *)
Theorem copy_creates_one_version
    src_version dst_model_name dst_experiment_name src_client dst_client lineage st :
  match _copy_model_version src_version dst_model_name dst_experiment_name
                            src_client dst_client lineage st with
  | (Ret _, st') => creations (calls st') = S (creations (calls st))
  | (Raise _, st') => creations (calls st') <= S (creations (calls st))
  end.
Proof.
  set (n := creations (calls st)).
  assert (hoare (fun s => creations (calls s) = n)
                (_copy_model_version src_version dst_model_name dst_experiment_name
                                     src_client dst_client lineage)
                (fun _ s => creations (calls s) = S n)
                (fun s => creations (calls s) <= S n)) as H.
  { assert (forall k c, is_create c = false ->
              forall cs, creations cs = k -> creations (cs ++ [c]) = k) as Hkeep.
    { intros k c Hc cs Hcs. rewrite creations_app, Hc. lia. }
    assert (forall A (m : M state exn A) k, k <= S n ->
              calls_inv (fun cs => creations cs = k) m ->
              hoare (fun s => creations (calls s) = k) m
                    (fun _ s => creations (calls s) = k)
                    (fun s => creations (calls s) <= S n)) as Hweak.
    { intros A m k Hk Hm s Hs. specialize (Hm s Hs).
      destruct (m s) as [[a|e] s']; cbn in *; lia. }
    unfold _copy_model_version.
    eapply hoare_bind with (R := fun _ s => creations (calls s) = n).
    { apply Hweak; [lia|].
      apply (calls_inv_fetch_dst_run (fun cs => creations cs = n)).
      intros c cs Hcs Hc _. now apply Hkeep. }
    intros dst_run.
    eapply hoare_bind with (R := fun _ s => creations (calls s) = n).
    { apply Hweak; [lia|]. destruct lineage.
      - apply (calls_inv_add_lineage_tags (fun cs => creations cs = n)).
        now apply Hkeep.
      - apply (calls_inv_ret (fun cs => creations cs = n)). }
    intros tgs.
    eapply hoare_bind with (R := fun _ s => creations (calls s) = S n).
    { unfold create_model_version.
      eapply hoare_bind with (R := fun _ s => creations (calls s) = n).
      { intros s Hs. exact Hs. }
      intros d.
      eapply hoare_bind with (R := fun _ s => creations (calls s) = S n).
      - intros s Hs. unfold invoke.
        destruct (remote_create_model_version api _ _ _ _ _ _ (remote s))
          as [[mv|e] w]; cbn [calls]; rewrite creations_app; cbn [is_create]; lia.
      - intros mv. apply Hweak; [lia|].
        apply (calls_inv_materialize (fun cs => creations cs = S n)). }
    intros dst_version. apply Hweak; [lia|].
    apply (calls_inv_after_create (fun cs => creations cs = S n));
      intros; now apply Hkeep. }
  specialize (H st eq_refl).
  destruct (_copy_model_version _ _ _ _ _ _ st) as [[mv|e] st']; exact H.
Qed.

(** X14.  A stage transition is only ever requested for a version whose name is
    not catalog-style, and with the stage of the source version. *)
Theorem copy_transitions_classic_names_only
    src_version dst_model_name dst_experiment_name src_client dst_client lineage st :
  let Pc := fun cs : list (call client) =>
    forall c nm ver stage,
      In (TransitionModelVersionStage c nm ver stage) cs ->
      is_unity_catalog_model nm = false /\ stage = current_stage src_version in
  Pc (calls st) ->
  Pc (calls (snd (_copy_model_version src_version dst_model_name
                    dst_experiment_name src_client dst_client lineage st))).
Proof.
  intros Pc Hst.
  assert (forall c, (forall cl nm ver stage,
                       c = TransitionModelVersionStage cl nm ver stage ->
                       is_unity_catalog_model nm = false
                       /\ stage = current_stage src_version) ->
                    forall cs, Pc cs -> Pc (cs ++ [c])) as Hkeep.
  { intros c Hc cs Hcs cl nm ver stage Hin.
    apply in_app_or in Hin as [Hin|[Heq|[]]]; [eauto|]. eapply Hc; eauto. }
  assert (calls_inv Pc (_copy_model_version src_version dst_model_name
                          dst_experiment_name src_client dst_client lineage)) as H.
  { unfold _copy_model_version. apply calls_inv_bind.
    { apply calls_inv_fetch_dst_run. intros c cs Hcs _ Hc. apply Hkeep; [|exact Hcs].
      intros cl nm ver stage ->. discriminate Hc. }
    intros dst_run. apply calls_inv_bind.
    { destruct lineage; [|apply calls_inv_ret].
      apply calls_inv_add_lineage_tags. apply Hkeep. discriminate. }
    intros tgs. apply calls_inv_bind.
    { unfold create_model_version. apply calls_inv_bind.
      { apply calls_inv_kept. intros s. reflexivity. }
      intros d. apply calls_inv_bind; [|apply calls_inv_materialize].
      apply calls_inv_invoke. apply Hkeep. discriminate. }
    intros dst_version. apply calls_inv_after_create.
    - intros cs Hcs Huc. apply Hkeep; [|exact Hcs].
      intros cl nm ver stage [= <- <- <- <-]. auto.
    - intros alias. apply Hkeep. discriminate.
    - apply Hkeep. discriminate. }
  specialize (H st Hst).
  destruct (_copy_model_version _ _ _ _ _ _ st) as [[mv|e] st']; exact H.
Qed.

(** ** The tags a copy sends *)

Lemma _copy_model_version_from_run
    src_version dst_model_name dst_experiment_name src_client dst_client lineage :
  _copy_model_version src_version dst_model_name dst_experiment_name
                      src_client dst_client lineage
  = (dst_run <- fetch_dst_run src_version dst_experiment_name src_client dst_client ;;
     tags <- (if lineage
              then _add_lineage_tags src_version dst_run dst_model_name
                                     src_client dst_client
              else ret (tags src_version)) ;;
     dst_version <- create_model_version dst_client dst_model_name
                      (info_artifact_uri dst_run +:+ "/" +:+
                       get_model_name (source src_version))
                      (info_run_id dst_run) tags (description src_version) ;;
     (if negb (is_unity_catalog_model (name dst_version))
      then transition_model_version_stage dst_client (name dst_version)
             (version dst_version) (current_stage src_version)
      else ret tt) ;;
     try_except
       (for_each (aliases src_version) (fun alias =>
          set_registered_model_alias dst_client (name dst_version) alias
                                     (version dst_version)))
       is_MlflowException
       (fun e => print (error_line e)) ;;
     get_model_version dst_client (name dst_version) (version dst_version)).
Proof. reflexivity. Qed.

Lemma fetch_dst_run_store src_version dst_experiment_name src_client dst_client st :
  store (snd (fetch_dst_run src_version dst_experiment_name src_client dst_client st))
  = store st.
Proof.
  unfold fetch_dst_run, copy_run_copy, get_run, invoke.
  destruct dst_experiment_name as [e|]; [destruct (PyStr.truthy e)|];
    match goal with |- context [let '(_, _) := ?x in _] => destruct x end;
    reflexivity.
Qed.

(** X15.  Without lineage tagging, once the destination run is at hand the
    destination is asked to create the version with the tags of the source
    version exactly as they are, under the id of the destination run, with
    the source's description, and with the destination run's artifact URI
    followed by [/] and the model name as its source. *)
Theorem passthrough_creates_with_source_tags
    src_version dst_model_name dst_experiment_name src_client dst_client
    st dst_run st1 :
  fetch_dst_run src_version dst_experiment_name src_client dst_client st
  = (Ret dst_run, st1) ->
  In (CreateModelVersion dst_client dst_model_name
        (info_artifact_uri dst_run +:+ "/" +:+ get_model_name (source src_version))
        (info_run_id dst_run)
        (default [] (store st !! tags src_version))
        (description src_version))
     (calls (snd (_copy_model_version src_version dst_model_name
                    dst_experiment_name src_client dst_client false st))).
Proof.
  intros Hf.
  set (target := CreateModelVersion dst_client dst_model_name _ _ _ _).
  pose proof (fetch_dst_run_store src_version dst_experiment_name
                src_client dst_client st) as Hstore.
  rewrite Hf in Hstore. cbn [snd] in Hstore.
  rewrite _copy_model_version_from_run. unfold bind at 1. rewrite Hf.
  unfold bind at 1. cbn [ret].
  match goal with
  | |- In _ (calls (snd (?m st1))) =>
      assert (hoare (fun s => s = st1) m
                    (fun _ s => In target (calls s))
                    (fun s => In target (calls s))) as H
  end.
  { assert (forall c cs, In target cs -> In target (cs ++ [c])) as Hmono.
    { intros c cs Hin. apply in_or_app. now left. }
    eapply hoare_bind with (R := fun _ s => In target (calls s)).
    - unfold create_model_version.
      eapply hoare_bind with
        (R := fun d s => s = st1 /\ d = default [] (store st !! tags src_version)).
      { intros s ->. cbn. now rewrite Hstore. }
      intros d. eapply hoare_bind with (R := fun _ s => In target (calls s)).
      + intros s [-> ->]. unfold invoke.
        destruct (remote_create_model_version api _ _ _ _ _ _ (remote st1))
          as [[mv|e] w]; cbn [calls]; apply in_or_app; right; left; reflexivity.
      + intros mv. apply (calls_inv_materialize (fun cs => In target cs)).
    - intros dst_version.
      apply (calls_inv_after_create (fun cs => In target cs)); intros; now apply Hmono. }
  specialize (H st1 eq_refl).
  match goal with
  | |- In _ (calls (snd (?m st1))) => destruct (m st1) as [[mv|e] st']; exact H
  end.
Qed.

(** The tag set [_add_lineage_tags] builds from the source tags [d] for a
    destination that is not catalog-style. *)
Definition add_tag_to (src_tags : dict) (key prefix : string) (d : dict) : dict :=
  match PyDict.get key src_tags with
  | Some val => PyDict.set (prefix +:+ "." +:+ key) val d
  | None => d
  end.

Definition lineage_dict (src_version : ModelVersion) (run : Run)
    (src_client dst_client : client) (d : dict) : dict :=
  let prefix := PREFIX_ROOT +:+ ".src_run" in
  add_tag_to (data_tags run) "mlflow.user" prefix
   (add_tag_to (data_tags run) "mlflow.databricks.workspaceID" prefix
    (add_tag_to (data_tags run) "mlflow.databricks.webappURL" prefix
     (add_tag_to (data_tags run) "mlflow.databricks.workspaceURL" prefix
      (PyDict.set (PREFIX_ROOT +:+ ".mlflow_exim.dst_client.tracking_uri")
                  (tracking_uri api dst_client)
       (PyDict.set (PREFIX_ROOT +:+ ".src_client.tracking_uri")
                   (tracking_uri api src_client)
        (PyDict.set (PREFIX_ROOT +:+ ".src_version.run_id") (run_id src_version)
         (PyDict.set (PREFIX_ROOT +:+ ".src_version.version") (version src_version)
          (PyDict.set (PREFIX_ROOT +:+ ".src_version.name") (name src_version)
                      d)))))))).

Lemma alter_last (f : dict -> dict) (l : list dict) (x : dict) :
  alter f (length l) (l ++ [x]) = l ++ [f x].
Proof.
  rewrite alter_app_r_alt by lia. now rewrite Nat.sub_diag.
Qed.

Lemma add_tag_last src_tags key prefix (l : list dict) (x : dict) st :
  store st = l ++ [x] ->
  add_tag src_tags (length l) key prefix st
  = (Ret tt, {| store := l ++ [add_tag_to src_tags key prefix x];
                remote := remote st; calls := calls st; stdout := stdout st |}).
Proof.
  intros Hs. unfold add_tag, add_tag_to.
  destruct (PyDict.get key src_tags).
  - unfold setitem. now rewrite Hs, alter_last.
  - unfold ret. rewrite <- Hs. now destruct st.
Qed.

Lemma lineage_tags_from_classic src_version run dst_model_name src_client dst_client st :
  is_unity_catalog_model dst_model_name = false ->
  lineage_tags_from src_version run dst_model_name src_client dst_client st
  = (Ret (length (store st)),
     {| store := store st ++
                 [lineage_dict src_version run src_client dst_client
                               (default [] (store st !! tags src_version))];
        remote := remote st; calls := calls st; stdout := stdout st |}).
Proof.
  intros Huc. unfold lineage_tags_from, lineage_dict. rewrite Huc.
  unfold deepcopy, bind, load, alloc, setitem. cbn [store remote calls stdout].
  rewrite !alter_last.
  repeat (erewrite add_tag_last by reflexivity; cbn [store remote calls stdout]).
  reflexivity.
Qed.

Lemma prefixed_ne (a b : string) :
  a <> b -> PREFIX_ROOT +:+ a <> PREFIX_ROOT +:+ b.
Proof. intros Hne H. apply Hne. exact (String.app_inj PREFIX_ROOT _ _ H). Qed.

Lemma run_tag_key (key : string) :
  (PREFIX_ROOT +:+ ".src_run") +:+ "." +:+ key
  = PREFIX_ROOT +:+ (".src_run" +:+ "." +:+ key).
Proof. apply PyStr.app_assoc. Qed.

Lemma get_add_tag_to_ne src_tags key prefix k d :
  k <> prefix +:+ "." +:+ key ->
  PyDict.get k (add_tag_to src_tags key prefix d) = PyDict.get k d.
Proof.
  intros Hne. unfold add_tag_to. destruct (PyDict.get key src_tags); [|reflexivity].
  apply get_set_ne. congruence.
Qed.

Ltac lineage_key_ne :=
  rewrite ?run_tag_key; apply prefixed_ne; vm_compute; discriminate.

Lemma lineage_dict_provenance src_version run src_client dst_client d :
  let d' := lineage_dict src_version run src_client dst_client d in
  PyDict.get (PREFIX_ROOT +:+ ".src_version.name") d' = Some (name src_version)
  /\ PyDict.get (PREFIX_ROOT +:+ ".src_version.version") d' = Some (version src_version)
  /\ PyDict.get (PREFIX_ROOT +:+ ".src_version.run_id") d' = Some (run_id src_version)
  /\ PyDict.get (PREFIX_ROOT +:+ ".src_client.tracking_uri") d'
     = Some (tracking_uri api src_client)
  /\ PyDict.get (PREFIX_ROOT +:+ ".mlflow_exim.dst_client.tracking_uri") d'
     = Some (tracking_uri api dst_client).
Proof.
  cbn zeta. unfold lineage_dict.
  repeat split;
    rewrite !get_add_tag_to_ne by lineage_key_ne;
    rewrite ?get_set_ne by (apply not_eq_sym; lineage_key_ne);
    apply get_set_eq.
Qed.

Lemma lineage_dict_keeps_user_tags src_version run src_client dst_client d k :
  String.prefix PREFIX_ROOT k = false ->
  PyDict.get k (lineage_dict src_version run src_client dst_client d)
  = PyDict.get k d.
Proof.
  intros Hk.
  assert (forall x, k <> PREFIX_ROOT +:+ x) as Hne.
  { intros x ->. now rewrite PyStr.prefix_app in Hk. }
  unfold lineage_dict.
  rewrite !get_add_tag_to_ne by (rewrite run_tag_key; apply Hne).
  rewrite !get_set_ne by (apply not_eq_sym, Hne). reflexivity.
Qed.

(** X16.  For a destination that is not catalog-style, the tag set that
    [_add_lineage_tags] returns holds the five provenance tags (the source
    version's name, version and run id and the tracking URIs of the two
    clients) under their keys, and every tag of the source version whose key
    does not begin with the reserved prefix with its value unchanged. *)
Theorem lineage_tags_extend_source_tags
    src_version run dst_model_name src_client dst_client st l st' d :
  is_unity_catalog_model dst_model_name = false ->
  store st !! tags src_version = Some d ->
  _add_lineage_tags src_version run dst_model_name src_client dst_client st
  = (Ret l, st') ->
  exists d',
    store st' !! l = Some d'
    /\ PyDict.get (PREFIX_ROOT +:+ ".src_version.name") d' = Some (name src_version)
    /\ PyDict.get (PREFIX_ROOT +:+ ".src_version.version") d'
       = Some (version src_version)
    /\ PyDict.get (PREFIX_ROOT +:+ ".src_version.run_id") d'
       = Some (run_id src_version)
    /\ PyDict.get (PREFIX_ROOT +:+ ".src_client.tracking_uri") d'
       = Some (tracking_uri api src_client)
    /\ PyDict.get (PREFIX_ROOT +:+ ".mlflow_exim.dst_client.tracking_uri") d'
       = Some (tracking_uri api dst_client)
    /\ forall k, String.prefix PREFIX_ROOT k = false ->
                 PyDict.get k d' = PyDict.get k d.
Proof.
  intros Huc Hd H. rewrite _add_lineage_tags_blocks in H.
  apply bind_ret_inv in H as (run' & s1 & Hrun & H).
  assert (store s1 = store st) as Hs1.
  { destruct (negb _); [|now injection Hrun as _ <-].
    unfold get_run, invoke in Hrun.
    destruct (remote_get_run api _ _ (remote st)) as [o w].
    now injection Hrun as _ <-. }
  rewrite (lineage_tags_from_classic _ _ _ _ _ _ Huc), Hs1 in H.
  unfold dict in *. rewrite Hd in H.
  injection H as <- <-. cbn [store default].
  exists (lineage_dict src_version run' src_client dst_client d).
  split; [now apply list_lookup_middle|].
  pose proof (lineage_dict_provenance src_version run' src_client dst_client d)
    as (H1 & H2 & H3 & H4 & H5).
  repeat (split; [assumption|]).
  intros k Hk. now apply lineage_dict_keeps_user_tags.
Qed.

(** ** A copy writes to no dict that existed before it *)

Section FrameCopy.

Variable n : nat.
Variable st0 : state.
Let J : state -> Prop := frame n st0.

Lemma frame_materialize mv : hoare J (materialize mv) (fun _ => J) J.
Proof.
  unfold materialize. eapply hoare_bind; [apply frame_alloc|].
  intros l. apply hoare_ret. now intros st [Hst _].
Qed.

Lemma frame_print line : hoare J (print line) (fun _ => J) J.
Proof. intros st Hst. exact Hst. Qed.

Lemma frame_create_model_version c nm src rid tgs desc :
  hoare J (create_model_version c nm src rid tgs desc) (fun _ => J) J.
Proof.
  unfold create_model_version.
  eapply hoare_bind; [apply frame_load | intros d].
  eapply hoare_bind; [apply frame_invoke | intros mv]. apply frame_materialize.
Qed.

Lemma frame_get_model_version c nm ver :
  hoare J (get_model_version c nm ver) (fun _ => J) J.
Proof.
  unfold get_model_version.
  eapply hoare_bind; [apply frame_invoke | intros mv]. apply frame_materialize.
Qed.

Lemma frame__copy_model_version
    src_version dst_model_name dst_experiment_name src_client dst_client lineage :
  hoare J (_copy_model_version src_version dst_model_name dst_experiment_name
                               src_client dst_client lineage)
        (fun _ => J) J.
Proof.
  unfold _copy_model_version.
  eapply hoare_bind with (R := fun _ => J).
  { destruct dst_experiment_name as [e|]; [destruct (PyStr.truthy e)|];
      apply frame_invoke. }
  intros dst_run. eapply hoare_bind with (R := fun _ => J).
  { destruct lineage; [apply frame_add_lineage_tags | apply hoare_ret; auto]. }
  intros tgs. eapply hoare_bind; [apply frame_create_model_version|].
  intros dst_version. eapply hoare_bind with (R := fun _ => J).
  { destruct (negb _); [apply frame_invoke | apply hoare_ret; auto]. }
  intros ?. eapply hoare_bind with (R := fun _ => J).
  { eapply hoare_try_except with (X' := J); [| |auto].
    - apply hoare_for_each. intros alias. apply frame_invoke.
    - intros e. apply frame_print. }
  intros ?. apply frame_get_model_version.
Qed.

Lemma frame_copy
    src_model_name src_model_version dst_model_name dst_experiment_name
    src_client dst_client lineage :
  hoare J (copy src_model_name src_model_version dst_model_name dst_experiment_name
                src_client dst_client lineage)
        (fun _ => J) J.
Proof.
  unfold copy.
  eapply hoare_bind; [apply frame_print | intros ?].
  eapply hoare_bind; [apply frame_invoke | intros ?].
  eapply hoare_bind; [apply frame_get_model_version | intros src_version].
  eapply hoare_bind; [apply frame__copy_model_version | intros dst_version].
  eapply hoare_bind; [apply frame_print | intros ?].
  apply hoare_ret. auto.
Qed.

End FrameCopy.

Lemma frame_take (st st' : state) :
  frame (length (store st)) st st' ->
  take (length (store st)) (store st') = store st.
Proof.
  intros [Hlen Hkeep]. apply list_eq. intros l.
  destruct (decide (l < length (store st))) as [Hl|Hl].
  - rewrite lookup_take_lt by exact Hl. now apply Hkeep.
  - rewrite lookup_take_ge by lia. symmetry. apply lookup_ge_None. lia.
Qed.

(** X17.  A copy writes to no tag dict that existed when it started: the store
    after it begins with the store before it, object by object, so the tags
    of the source version and of every other version at hand are what they
    were.  This holds with and without lineage tags, for [copy] and for
    [_copy_model_version], and whether the copy returns or raises. *)
Theorem copy_leaves_existing_dicts
    src_version src_model_name src_model_version dst_model_name dst_experiment_name
    src_client dst_client lineage st :
  take (length (store st))
       (store (snd (_copy_model_version src_version dst_model_name
                      dst_experiment_name src_client dst_client lineage st)))
  = store st
  /\ take (length (store st))
          (store (snd (copy src_model_name src_model_version dst_model_name
                         dst_experiment_name src_client dst_client lineage st)))
     = store st.
Proof.
  assert (frame (length (store st)) st st) as H0 by (split; auto).
  split; apply frame_take.
  - pose proof (frame__copy_model_version (length (store st)) st src_version
                  dst_model_name dst_experiment_name src_client dst_client lineage
                  st H0) as H.
    destruct (_copy_model_version _ _ _ _ _ _ st) as [[a|e] st']; exact H.
  - pose proof (frame_copy (length (store st)) st src_model_name src_model_version
                  dst_model_name dst_experiment_name src_client dst_client lineage
                  st H0) as H.
    destruct (copy _ _ _ _ _ _ _ st) as [[a|e] st']; exact H.
Qed.

End Copy.

(** ** An in-memory registry

    One server behind two clients.  It stores the versions created on it,
    numbers them from 1, keeps an alias table, and refuses the aliases
    listed in [rejected] the way a backend without alias support does. *)

Module InMemory.

Inductive endpoint : Type := Src | Dst.

Record server : Type := mkServer {
  versions : list (ModelVersionOf dict);
  alias_table : list (string * string * string);
  rejected : list string
}.

Definition run_of (rid : string) : Run :=
  {| info_run_id := rid;
     info_artifact_uri := "dbfs:/databricks/mlflow-tracking/1/" +:+ rid +:+ "/artifacts";
     data_tags := [("mlflow.user", "alice")] |}.

Definition aliases_of (nm ver : string) (w : server) : list string :=
  map (fun e => snd (fst e))
      (filter (fun e => String.eqb (fst (fst e)) nm && String.eqb (snd e) ver)
              (alias_table w)).

Definition server_api : Remote server endpoint := {|
  tracking_uri := fun c => match c with Src => "databricks://src" | Dst => "databricks://dst" end;
  remote_get_run := fun _ rid w => (Ret (run_of rid), w);
  remote_copy_run := fun rid _ _ _ w => (Ret (run_of rid), w);
  remote_create_registered_model := fun _ _ w => (Ret tt, w);
  remote_create_model_version := fun _ nm src rid tgs desc w =>
    let mv := mkModelVersion nm "1" src rid "None" [] tgs desc in
    (Ret mv, {| versions := versions w ++ [mv]; alias_table := alias_table w;
                rejected := rejected w |});
  remote_transition_model_version_stage := fun _ _ _ _ w => (Ret tt, w);
  remote_set_registered_model_alias := fun _ nm alias ver w =>
    if existsb (String.eqb alias) (rejected w)
    then (Raise (MlflowException "INVALID_PARAMETER_VALUE"
                                 "aliases are not supported"), w)
    else (Ret tt, {| versions := versions w;
                     alias_table := alias_table w ++ [(nm, alias, ver)];
                     rejected := rejected w |});
  remote_get_model_version := fun _ nm ver w =>
    match List.find (fun mv => String.eqb (name mv) nm && String.eqb (version mv) ver)
                    (versions w) with
    | Some mv =>
        (Ret (mkModelVersion (name mv) (version mv) (source mv) (run_id mv)
                             (current_stage mv) (aliases_of nm ver w)
                             (tags mv) (description mv)), w)
    | None => (Raise (MlflowException "RESOURCE_DOES_NOT_EXIST" "no such version"), w)
    end
|}.

(** databricks_notebooks/copy/Common.py, line 33: a name with a dot in it
    is a Unity Catalog model. *)
Definition is_unity_catalog_model (nm : string) : bool := has_dot nm.

Definition get_model_name (src : string) : string := "model".

Definition copy_model_version :=
  _copy_model_version server_api "mlflow_exim" get_model_name is_unity_catalog_model.

Definition add_lineage_tags :=
  _add_lineage_tags server_api "mlflow_exim" is_unity_catalog_model.

Definition src_tags : dict := [("team.owner", "alice")].

Definition src_version : ModelVersion :=
  mkModelVersion "sklearn_wine" "3"
    "dbfs:/databricks/mlflow-tracking/1/r1/artifacts/model" "r1" "Production"
    ["champion"; "staging"; "latest"] 0 "wine model".

Definition st0 : @state server endpoint :=
  {| store := [src_tags];
     remote := {| versions := []; alias_table := []; rejected := ["staging"] |};
     calls := []; stdout := [] |}.

Definition head_of_copy :=
  copy_version_and_stage server_api "mlflow_exim" get_model_name
    is_unity_catalog_model src_version "main.ml.wine" None Src Dst false.

(** The destination version as [create_model_version] hands it back. *)
Definition dst_version : ModelVersion :=
  mkModelVersion "main.ml.wine" "1"
    "dbfs:/databricks/mlflow-tracking/1/r1/artifacts/model" "r1" "None" [] 1
    "wine model".

Definition st1 : @state server endpoint := snd (head_of_copy st0).

Definition st2 : @state server endpoint :=
  snd (set_aliases server_api Dst dst_version ["champion"] st1).

Definition alias_error : exn :=
  MlflowException "INVALID_PARAMETER_VALUE" "aliases are not supported".

(** C1 at a failing input: a copy without lineage tags to the
    catalog-style name [main.ml.wine] of a version tagged [team.owner].
    The tag dict goes to the destination as it is, dotted key included. *)
Theorem passthrough_copy_sends_dotted_key :
  is_unity_catalog_model "main.ml.wine" = true
  /\ In (CreateModelVersion Dst "main.ml.wine"
          "dbfs:/databricks/mlflow-tracking/1/r1/artifacts/model" "r1"
          [("team.owner", "alice")] "wine model")
        (calls (snd (copy_model_version src_version "main.ml.wine" None
                                        Src Dst false st0)))
  /\ has_dot "team.owner" = true.
Proof.
  split; [reflexivity|]. split; [|reflexivity].
  vm_compute. right. left. reflexivity.
Qed.

(** The same copy with lineage tags sends dot-free keys only. *)
Example lineage_copy_sends_sanitized_keys :
  Forall (fun c => match c with
                   | CreateModelVersion _ _ _ _ d _ =>
                       forallb (fun k => negb (has_dot k)) (keys d) = true
                   | _ => True
                   end)
         (calls (snd (copy_model_version src_version "main.ml.wine" None
                                         Src Dst true st0))).
Proof. vm_compute. repeat constructor. Qed.

(** C2 refuted as stated: of the aliases [champion], [staging], [latest]
    the server refuses [staging] only.  The copy returns the destination
    version, yet [latest] is never sent and only [champion] is set. *)
Lemma later_aliases_are_not_set :
  let r := copy_model_version src_version "main.ml.wine" None Src Dst false st0 in
  aliases src_version = ["champion"; "staging"; "latest"]
  /\ rejected (remote st0) = ["staging"]
  /\ returned (fst r) = true
  /\ alias_table (remote (snd r)) = [("main.ml.wine", "champion", "1")]
  /\ ~ In (SetRegisteredModelAlias Dst "main.ml.wine" "latest" "1") (calls (snd r)).
Proof.
  repeat split; try (vm_compute; reflexivity).
  vm_compute. intros H. repeat destruct H as [H|H]; try discriminate H. exact H.
Qed.

Lemma alias_failure_ends_replication_witness :
  aliases src_version = ["champion"] ++ "staging" :: ["latest"]
  /\ head_of_copy st0 = (Ret dst_version, st1)
  /\ set_aliases server_api Dst dst_version ["champion"] st1 = (Ret tt, st2)
  /\ remote_set_registered_model_alias server_api Dst "main.ml.wine" "staging" "1"
                                       (remote st2)
     = (Raise alias_error, remote st2)
  /\ copy_model_version src_version "main.ml.wine" None Src Dst false st0
     = get_model_version server_api Dst "main.ml.wine" "1"
         {| store := store st2;
            remote := remote st2;
            calls := calls st2 ++ [SetRegisteredModelAlias Dst "main.ml.wine"
                                     "staging" "1"];
            stdout := stdout st2 ++ [error_line alias_error] |}.
Proof.
  assert (aliases src_version = ["champion"] ++ "staging" :: ["latest"]) as H1
    by reflexivity.
  assert (head_of_copy st0 = (Ret dst_version, st1)) as H2
    by (vm_compute; reflexivity).
  assert (set_aliases server_api Dst dst_version ["champion"] st1 = (Ret tt, st2))
    as H3 by (vm_compute; reflexivity).
  assert (remote_set_registered_model_alias server_api Dst (name dst_version)
            "staging" (version dst_version) (remote st2)
          = (Raise (MlflowException "INVALID_PARAMETER_VALUE"
                                    "aliases are not supported"), remote st2))
    as H4 by (vm_compute; reflexivity).
  split; [exact H1|]. split; [exact H2|]. split; [exact H3|]. split; [exact H4|].
  exact (alias_failure_ends_replication server_api "mlflow_exim" get_model_name
           is_unity_catalog_model src_version "main.ml.wine" None Src Dst false
           st0 dst_version st1 ["champion"] "staging" ["latest"] st2
           "INVALID_PARAMETER_VALUE" "aliases are not supported" (remote st2)
           H1 H2 H3 H4).
Defined.

Lemma add_lineage_tags_keeps_source_tags_witness :
  store st0 !! tags src_version = Some src_tags
  /\ store (snd (add_lineage_tags src_version (run_of "r1") "main.ml.wine"
                                  Src Dst st0)) !! tags src_version
     = Some src_tags.
Proof.
  split; [reflexivity|].
  apply (add_lineage_tags_keeps_source_tags server_api "mlflow_exim"
           is_unity_catalog_model src_version (run_of "r1") "main.ml.wine"
           Src Dst st0 src_tags).
  reflexivity.
Defined.

(** *** Further runs on the in-memory registry *)

(** A server that accepts every alias. *)
Definition st_open : @state server endpoint :=
  {| store := [src_tags];
     remote := {| versions := []; alias_table := []; rejected := [] |};
     calls := []; stdout := [] |}.

(** The registry behind a connection that breaks, instead of answering,
    when a rejected alias is set. *)
Definition broken_api : Remote server endpoint := {|
  tracking_uri := tracking_uri server_api;
  remote_get_run := remote_get_run server_api;
  remote_copy_run := remote_copy_run server_api;
  remote_create_registered_model := remote_create_registered_model server_api;
  remote_create_model_version := remote_create_model_version server_api;
  remote_transition_model_version_stage :=
    remote_transition_model_version_stage server_api;
  remote_set_registered_model_alias := fun _ nm alias ver w =>
    if existsb (String.eqb alias) (rejected w)
    then (Raise (OtherException "connection reset"), w)
    else (Ret tt, {| versions := versions w;
                     alias_table := alias_table w ++ [(nm, alias, ver)];
                     rejected := rejected w |});
  remote_get_model_version := remote_get_model_version server_api
|}.

Lemma aliases_replicated_in_order_witness :
  let head := copy_version_and_stage server_api "mlflow_exim" get_model_name
                is_unity_catalog_model src_version "main.ml.wine" None Src Dst false in
  let s1 := snd (head st_open) in
  let s2 := snd (set_aliases server_api Dst dst_version (aliases src_version) s1) in
  head st_open = (Ret dst_version, s1)
  /\ set_aliases server_api Dst dst_version (aliases src_version) s1 = (Ret tt, s2)
  /\ calls s2 = calls s1 ++ [SetRegisteredModelAlias Dst "main.ml.wine" "champion" "1";
                             SetRegisteredModelAlias Dst "main.ml.wine" "staging" "1";
                             SetRegisteredModelAlias Dst "main.ml.wine" "latest" "1"]
  /\ stdout s2 = stdout s1.
Proof.
  intros head s1 s2.
  assert (head st_open = (Ret dst_version, s1)) as H1 by (vm_compute; reflexivity).
  assert (set_aliases server_api Dst dst_version (aliases src_version) s1
          = (Ret tt, s2)) as H2 by (vm_compute; reflexivity).
  split; [exact H1|]. split; [exact H2|].
  destruct (aliases_replicated_in_order server_api "mlflow_exim" get_model_name
              is_unity_catalog_model src_version "main.ml.wine" None Src Dst false
              st_open dst_version s1 s2 H1 H2) as (Hc & Ho & _).
  split; [exact Hc | exact Ho].
Defined.

Lemma other_alias_failure_aborts_copy_witness :
  let head := copy_version_and_stage broken_api "mlflow_exim" get_model_name
                is_unity_catalog_model src_version "main.ml.wine" None Src Dst false in
  let s1 := snd (head st0) in
  let s2 := snd (set_aliases broken_api Dst dst_version ["champion"] s1) in
  aliases src_version = ["champion"] ++ "staging" :: ["latest"]
  /\ head st0 = (Ret dst_version, s1)
  /\ set_aliases broken_api Dst dst_version ["champion"] s1 = (Ret tt, s2)
  /\ remote_set_registered_model_alias broken_api Dst "main.ml.wine" "staging" "1"
                                       (remote s2)
     = (Raise (OtherException "connection reset"), remote s2)
  /\ fst (_copy_model_version broken_api "mlflow_exim" get_model_name
            is_unity_catalog_model src_version "main.ml.wine" None Src Dst false st0)
     = Raise (OtherException "connection reset").
Proof.
  intros head s1 s2.
  assert (aliases src_version = ["champion"] ++ "staging" :: ["latest"]) as H1
    by reflexivity.
  assert (head st0 = (Ret dst_version, s1)) as H2 by (vm_compute; reflexivity).
  assert (set_aliases broken_api Dst dst_version ["champion"] s1 = (Ret tt, s2))
    as H3 by (vm_compute; reflexivity).
  assert (remote_set_registered_model_alias broken_api Dst (name dst_version)
            "staging" (version dst_version) (remote s2)
          = (Raise (OtherException "connection reset"), remote s2)) as H4
    by (vm_compute; reflexivity).
  split; [exact H1|]. split; [exact H2|]. split; [exact H3|]. split; [exact H4|].
  rewrite (other_alias_failure_aborts_copy broken_api "mlflow_exim" get_model_name
             is_unity_catalog_model src_version "main.ml.wine" None Src Dst false
             st0 dst_version s1 ["champion"] "staging" ["latest"] s2
             "connection reset" (remote s2) H1 H2 H3 H4).
  reflexivity.
Defined.

Lemma copy_creates_model_before_reading_source_witness :
  let e := MlflowException "RESOURCE_DOES_NOT_EXIST" "no such version" in
  remote_create_registered_model server_api Dst "main.ml.wine" (remote st0)
  = (Ret tt, remote st0)
  /\ remote_get_model_version server_api Src "sklearn_wine" "3" (remote st0)
     = (Raise e, remote st0)
  /\ fst (copy server_api "mlflow_exim" get_model_name is_unity_catalog_model
            "sklearn_wine" "3" "main.ml.wine" None Src Dst false st0)
     = Raise e
  /\ calls (snd (copy server_api "mlflow_exim" get_model_name is_unity_catalog_model
                   "sklearn_wine" "3" "main.ml.wine" None Src Dst false st0))
     = [CreateRegisteredModel Dst "main.ml.wine"; GetModelVersion Src "sklearn_wine" "3"].
Proof.
  intros e.
  assert (remote_create_registered_model server_api Dst "main.ml.wine" (remote st0)
          = (Ret tt, remote st0)) as H1 by reflexivity.
  assert (remote_get_model_version server_api Src "sklearn_wine" "3" (remote st0)
          = (Raise e, remote st0)) as H2 by reflexivity.
  split; [exact H1|]. split; [exact H2|].
  rewrite (copy_creates_model_before_reading_source server_api "mlflow_exim"
             get_model_name is_unity_catalog_model "sklearn_wine" "3"
             "main.ml.wine" None Src Dst false st0 (remote st0) e (remote st0) H1 H2).
  split; reflexivity.
Defined.

Lemma copy_transitions_classic_names_only_witness :
  (forall c nm ver stage,
      In (TransitionModelVersionStage c nm ver stage) (calls st0) ->
      is_unity_catalog_model nm = false /\ stage = current_stage src_version)
  /\ (forall c nm ver stage,
        In (TransitionModelVersionStage c nm ver stage)
           (calls (snd (copy_model_version src_version "wine_copy" None Src Dst false st0))) ->
        is_unity_catalog_model nm = false /\ stage = current_stage src_version).
Proof.
  assert (forall c nm ver stage,
             In (@TransitionModelVersionStage endpoint c nm ver stage) (calls st0) ->
             is_unity_catalog_model nm = false /\ stage = current_stage src_version)
    as H0 by (intros c nm ver stage []).
  split; [exact H0|].
  exact (copy_transitions_classic_names_only server_api "mlflow_exim" get_model_name
           is_unity_catalog_model src_version "wine_copy" None Src Dst false st0 H0).
Defined.

Lemma passthrough_creates_with_source_tags_witness :
  fetch_dst_run server_api src_version None Src Dst st0
  = (Ret (run_of "r1"), snd (fetch_dst_run server_api src_version None Src Dst st0))
  /\ In (CreateModelVersion Dst "wine_copy"
           "dbfs:/databricks/mlflow-tracking/1/r1/artifacts/model" "r1"
           [("team.owner", "alice")] "wine model")
        (calls (snd (copy_model_version src_version "wine_copy" None Src Dst false st0))).
Proof.
  assert (fetch_dst_run server_api src_version None Src Dst st0
          = (Ret (run_of "r1"),
             snd (fetch_dst_run server_api src_version None Src Dst st0))) as H1
    by (vm_compute; reflexivity).
  split; [exact H1|].
  exact (passthrough_creates_with_source_tags server_api "mlflow_exim" get_model_name
           is_unity_catalog_model src_version "wine_copy" None Src Dst st0
           (run_of "r1") _ H1).
Defined.

Lemma lineage_tags_extend_source_tags_witness :
  let r := _add_lineage_tags server_api "mlflow_exim" is_unity_catalog_model
             src_version (run_of "r1") "wine_copy" Src Dst st0 in
  is_unity_catalog_model "wine_copy" = false
  /\ store st0 !! tags src_version = Some src_tags
  /\ r = (Ret 1, snd r)
  /\ exists d',
       store (snd r) !! 1 = Some d'
       /\ PyDict.get "mlflow_exim.src_version.name" d' = Some "sklearn_wine"
       /\ PyDict.get "team.owner" d' = Some "alice".
Proof.
  intros r.
  assert (is_unity_catalog_model "wine_copy" = false) as H1 by reflexivity.
  assert (store st0 !! tags src_version = Some src_tags) as H2 by reflexivity.
  assert (r = (Ret 1, snd r)) as H3 by (vm_compute; reflexivity).
  split; [exact H1|]. split; [exact H2|]. split; [exact H3|].
  destruct (lineage_tags_extend_source_tags server_api "mlflow_exim"
              is_unity_catalog_model src_version (run_of "r1") "wine_copy" Src Dst
              st0 1 (snd r) src_tags H1 H2 H3)
    as (d' & Hd' & Hname & _ & _ & _ & _ & Hkeep).
  exists d'. split; [exact Hd'|]. split; [exact Hname|].
  rewrite (Hkeep "team.owner" eq_refl). reflexivity.
Defined.

Lemma lineage_copy_sends_dot_free_witness :
  is_unity_catalog_model "main.ml.wine" = true
  /\ sends_dot_free st0
  /\ sends_dot_free
       (snd (copy_model_version src_version "main.ml.wine" None Src Dst true st0)).
Proof.
  assert (is_unity_catalog_model "main.ml.wine" = true) as H1 by reflexivity.
  assert (sends_dot_free st0) as H2 by (intros c nm src rid d desc []).
  split; [exact H1|]. split; [exact H2|].
  pose proof (lineage_copy_sends_dot_free server_api "mlflow_exim" get_model_name
                is_unity_catalog_model src_version "main.ml.wine" None Src Dst
                H1 st0 H2) as H.
  unfold copy_model_version.
  destruct (_copy_model_version _ _ _ _ _ _ _ _ _ _ st0) as [[a|e] s']; exact H.
Defined.

End InMemory.

End CopyModelVersion.


(** * The Batch Export Orchestrator (experiment/export_experiment.py) *)

Module ExportExperiment.
Import Eff PyDict.
Local Open Scope eff_scope.

(** [run.info] *)
Record Run : Type := mkRun {
  run_id : string;
  run_experiment_id : string;
  start_time : Z
}.

Record Experiment : Type := mkExperiment {
  exp_name : string;
  experiment_id : string;
  lifecycle_stage : string;
  creation_time : Z;
  last_update_time : Z;
  exp_tags : dict
}.

Inductive exn : Type :=
| MlflowException (msg : string).

Inductive level : Type := INFO | WARNING | ERROR.

(** The lines the module logs, by what they report. *)
Inductive message : Type :=
| ExportingExperiment (name id : string) (experiment_type : option string)
                      (lifecycle_stage : string)
| NotExportingRun (run_id experiment_id start_time : string)
                  (run_start_time : option string)
| NoRunsExported (name id : string)
| RunsExported (num_ok : nat) (name id : string)
| RunsExportedOf (num_ok : nat) (j : nat) (name id : string)
| RunsFailedOf (num_failed : nat) (j : nat) (name id : string).

(** The [info_attr] and [mlflow_attr] of the manifest. *)
Record InfoAttr : Type := mkInfo {
  num_total_runs : nat;
  num_ok_runs : nat;
  num_failed_runs : nat;
  failed_runs : list string
}.

Record ExperimentDict : Type := mkExperimentDict {
  d_name : string;
  d_experiment_id : string;
  d_lifecycle_stage : string;
  d_creation_time : string;
  d_last_update_time : string;
  d_tags : dict
}.

Record MlflowAttr : Type := mkMlflowAttr {
  experiment : ExperimentDict;
  runs : list string
}.

(** One call of [io_utils.write_export_file]. *)
Record ExportFile : Type := mkExportFile {
  file_dir : string;
  file_name : string;
  file_mlflow : MlflowAttr;
  file_info : InfoAttr
}.

(** [sorted(tags.items())]: insertion sort on the keys. *)
Fixpoint insert_sorted (kv : string * string) (d : dict) : dict :=
  match d with
  | [] => [kv]
  | kv' :: d' =>
      if String.leb (fst kv) (fst kv') then kv :: d else kv' :: insert_sorted kv d'
  end.

Definition sorted_items (d : dict) : dict := fold_right insert_sorted [] d.

Section Orchestration.

(** The tracking server and the output directory are [W].
    [mlflow_utils.get_experiment], [mlflow_client.get_run],
    [SearchRunsIterator] (common/iterators.py), [export_run]
    (run/export_run.py) and the timestamp helpers are given. *)
Variable W : Type.
Variable remote_get_experiment : string -> W -> outcome exn Experiment.
Variable remote_get_run : string -> W -> outcome exn Run.
Variable export_run :
  string -> string -> bool -> option (list string) -> W -> outcome exn bool * W.
Variable utc_str_to_millis : string -> Z.
Variable fmt_ts_millis : Z -> string.

(** Modelled from the spec: [SearchRunsIterator] is not among the
    sources.  Section 4.2: given the experiment id and the optional filter
    and view type it produces a finite, single-pass sequence of runs; a
    transport error surfaces immediately and ends the sequence.  It yields
    the runs of the first component, then stops or raises. *)
Variable SearchRunsIterator :
  string -> option Z -> bool -> W -> list Run * option exn.

(** The process: the outside world, the log, the files written, and the two
    list objects [ok_run_ids] and [failed_run_ids] that [export_experiment]
    creates and hands to [_export_run]. *)
Record state : Type := mkState {
  world : W;
  log : list (level * message);
  files : list ExportFile;
  ok_run_ids : list string;
  failed_run_ids : list string
}.

Definition logger (lv : level) (msg : message) : M state exn unit :=
  modify (fun st => {| world := world st; log := log st ++ [(lv, msg)];
                       files := files st; ok_run_ids := ok_run_ids st;
                       failed_run_ids := failed_run_ids st |}).

(** [ok_run_ids = []; failed_run_ids = []] *)
Definition new_lists : M state exn unit :=
  modify (fun st => {| world := world st; log := log st; files := files st;
                       ok_run_ids := []; failed_run_ids := [] |}).

(** [ok_run_ids.append(x)] and [failed_run_ids.append(x)] *)
Definition ok_append (x : string) : M state exn unit :=
  modify (fun st => {| world := world st; log := log st; files := files st;
                       ok_run_ids := ok_run_ids st ++ [x];
                       failed_run_ids := failed_run_ids st |}).

Definition failed_append (x : string) : M state exn unit :=
  modify (fun st => {| world := world st; log := log st; files := files st;
                       ok_run_ids := ok_run_ids st;
                       failed_run_ids := failed_run_ids st ++ [x] |}).

Definition write_export_file (dir file : string) (mlflow_attr : MlflowAttr)
    (info_attr : InfoAttr) : M state exn unit :=
  modify (fun st => {| world := world st; log := log st;
                       files := files st ++ [mkExportFile dir file mlflow_attr info_attr];
                       ok_run_ids := ok_run_ids st;
                       failed_run_ids := failed_run_ids st |}).

Definition read {A} (f : W -> outcome exn A) : M state exn A :=
  fun st => (f (world st), st).

Definition call_export_run (rid output_dir : string) (export_deleted_runs : bool)
    (notebook_formats : option (list string)) : M state exn bool :=
  fun st =>
    let '(o, w) := export_run rid output_dir export_deleted_runs notebook_formats
                              (world st) in
    (o, {| world := w; log := log st; files := files st;
           ok_run_ids := ok_run_ids st; failed_run_ids := failed_run_ids st |}).

(** Truth value of the converted [run_start_time]: [None] and [0] are
    falsy. *)
Definition truthy_millis (t : option Z) : bool :=
  match t with
  | Some z => negb (z =? 0)%Z
  | None => false
  end.

(** [run_start_time and run.info.start_time < run_start_time] *)
Definition too_early (run_start_time : option Z) (run : Run) : bool :=
  match run_start_time with
  | Some t => negb (t =? 0)%Z && (start_time run <? t)%Z
  | None => false
  end.

Definition _export_run (run : Run) (output_dir : string)
    (run_start_time : option Z) (run_start_time_str : option string)
    (export_deleted_runs : bool) (notebook_formats : option (list string))
  : M state exn unit :=
  if too_early run_start_time run
  then logger INFO (NotExportingRun (run_id run) (run_experiment_id run)
                      (fmt_ts_millis (start_time run)) run_start_time_str)
  else
    is_success <- call_export_run (run_id run)
                    (PyStr.os_path_join output_dir (run_id run))
                    export_deleted_runs notebook_formats ;;
    if is_success : bool
    then ok_append (run_id run)
    else failed_append (run_id run).

(** A loop that counts its rounds in [num_runs_exported]. *)
Fixpoint counting {A} (l : list A) (body : A -> M state exn unit)
    (num_runs_exported : nat) : M state exn nat :=
  match l with
  | [] => ret num_runs_exported
  | x :: l' => body x ;; counting l' body (S num_runs_exported)
  end.

(** [if run_start_time: run_start_time = utc_str_to_millis(run_start_time)] *)
Definition to_millis (run_start_time : option string) : option Z :=
  match run_start_time with
  | Some s => if PyStr.truthy s then Some (utc_str_to_millis s) else None
  | None => None
  end.

(** [kwargs["filter"] = f"start_time > {run_start_time}"], set only
    [if run_start_time]. *)
Definition filter_kwarg (run_start_time : option Z) : option Z :=
  if truthy_millis run_start_time then run_start_time else None.

(** [if run_ids:] *)
Definition truthy_list {A} (l : option (list A)) : bool :=
  match l with
  | Some (_ :: _) => true
  | _ => false
  end.

(** [export_experiment]: the MLflow client of lines 48-51 is part of [W];
    [export_permissions] is not used by the code. *)
Definition export_experiment (experiment_id_or_name output_dir : string)
    (run_ids : option (list string)) (run_start_time : option string)
    (export_deleted_runs : bool) (notebook_formats : option (list string))
  : M state exn (nat * nat) :=
  let run_start_time_str := run_start_time in
  let run_start_time := to_millis run_start_time in
  exp <- read (remote_get_experiment experiment_id_or_name) ;;
  logger INFO (ExportingExperiment (exp_name exp) (experiment_id exp)
                 (PyDict.get "mlflow.experimentType" (exp_tags exp))
                 (lifecycle_stage exp)) ;;
  new_lists ;;
  num_runs_exported <-
    (if truthy_list run_ids
     then counting (default [] run_ids) (fun rid =>
            run <- read (remote_get_run rid) ;;
            _export_run run output_dir run_start_time run_start_time_str
                        export_deleted_runs notebook_formats) 0
     else
       st <- Eff.get ;;
       let it := SearchRunsIterator (experiment_id exp)
                   (filter_kwarg run_start_time) export_deleted_runs (world st) in
       n <- counting (fst it) (fun run =>
              _export_run run output_dir run_start_time run_start_time_str
                          export_deleted_runs notebook_formats) 0 ;;
       match snd it with
       | Some e => raise e
       | None => ret n
       end) ;;
  st <- Eff.get ;;
  let info_attr := {|
    num_total_runs := num_runs_exported;
    num_ok_runs := length (ok_run_ids st);
    num_failed_runs := length (failed_run_ids st);
    failed_runs := failed_run_ids st |} in
  let exp_dct := {|
    d_name := exp_name exp;
    d_experiment_id := experiment_id exp;
    d_lifecycle_stage := lifecycle_stage exp;
    d_creation_time := fmt_ts_millis (creation_time exp);
    d_last_update_time := fmt_ts_millis (last_update_time exp);
    d_tags := sorted_items (exp_tags exp) |} in
  let mlflow_attr := {| experiment := exp_dct; runs := ok_run_ids st |} in
  write_export_file output_dir "experiment.json" mlflow_attr info_attr ;;
  (* the index [j] of the last round is one less than the count *)
  let j := (num_runs_exported - 1) in
  (if (num_runs_exported =? 0)
   then logger WARNING (NoRunsExported (exp_name exp) (experiment_id exp))
   else if (length (failed_run_ids st) =? 0)
   then logger INFO (RunsExported (length (ok_run_ids st))
                                  (exp_name exp) (experiment_id exp))
   else
     logger INFO (RunsExportedOf (length (ok_run_ids st)) j
                                 (exp_name exp) (experiment_id exp)) ;;
     logger INFO (RunsFailedOf (length (failed_run_ids st)) j
                               (exp_name exp) (experiment_id exp))) ;;
  ret (length (ok_run_ids st), length (failed_run_ids st)).

(** ** What happened to each enumerated run *)

Inductive verdict : Type := Skipped | Succeeded | Failed.

Definition verdict_eqb (a b : verdict) : bool :=
  match a, b with
  | Skipped, Skipped | Succeeded, Succeeded | Failed, Failed => true
  | _, _ => false
  end.

(** The run ids of the visits that ended in [v], in order. *)
Definition ids_of (v : verdict) (vs : list (Run * verdict)) : list string :=
  map (fun p => run_id (fst p)) (List.filter (fun p => verdict_eqb (snd p) v) vs).

Definition exp_dict (exp : Experiment) : ExperimentDict := {|
  d_name := exp_name exp;
  d_experiment_id := experiment_id exp;
  d_lifecycle_stage := lifecycle_stage exp;
  d_creation_time := fmt_ts_millis (creation_time exp);
  d_last_update_time := fmt_ts_millis (last_update_time exp);
  d_tags := sorted_items (exp_tags exp) |}.

(** ** Counting verdicts *)

Lemma in_ids_of (id : string) (v : verdict) (vs : list (Run * verdict)) :
  In id (ids_of v vs) <-> exists r, In (r, v) vs /\ run_id r = id.
Proof.
  unfold ids_of. rewrite in_map_iff. split.
  - intros ([r v'] & <- & Hin). apply filter_In in Hin as [Hin Hv]. cbn in *.
    exists r. split; [|reflexivity].
    destruct v, v'; try discriminate; exact Hin.
  - intros (r & Hin & <-). exists (r, v). split; [reflexivity|].
    apply filter_In. split; [exact Hin | destruct v; reflexivity].
Qed.

Lemma ids_of_total (vs : list (Run * verdict)) :
  length (ids_of Succeeded vs) + length (ids_of Failed vs)
  + length (ids_of Skipped vs) = length vs.
Proof.
  unfold ids_of. induction vs as [|[r v] vs IH]; [reflexivity|].
  destruct v; cbn in *; lia.
Qed.

Lemma ids_of_skipped_nil (vs : list (Run * verdict)) :
  length (ids_of Skipped vs) = 0 <-> forall r, ~ In (r, Skipped) vs.
Proof.
  split.
  - intros H r Hin.
    assert (In (run_id r) (ids_of Skipped vs)) as Hid
      by (apply in_ids_of; eauto).
    destruct (ids_of Skipped vs); [destruct Hid | discriminate].
  - intros H. destruct (ids_of Skipped vs) as [|id l] eqn:E; [reflexivity|].
    assert (In id (ids_of Skipped vs)) as Hid by (rewrite E; left; reflexivity).
    apply in_ids_of in Hid as (r & Hr & _). destruct (H r Hr).
Qed.

Lemma NoDup_map_eq {A B} (f : A -> B) (l : list A) (x y : A) :
  NoDup (map f l) -> In x l -> In y l -> f x = f y -> x = y.
Proof.
  induction l as [|a l IH]; cbn; intros Hnd Hx Hy Hf; [destruct Hx|].
  apply NoDup_cons in Hnd as [Hnotin Hnd].
  destruct Hx as [->|Hx], Hy as [->|Hy]; auto.
  - exfalso. apply Hnotin, list_elem_of_In. rewrite Hf. now apply in_map.
  - exfalso. apply Hnotin, list_elem_of_In. rewrite <- Hf. now apply in_map.
Qed.

Lemma ids_of_disjoint (vs : list (Run * verdict)) (id : string) :
  NoDup (map (fun p => run_id (fst p)) vs) ->
  In id (ids_of Succeeded vs) -> In id (ids_of Failed vs) -> False.
Proof.
  intros Hnd Hok Hfailed.
  apply in_ids_of in Hok as (r & Hr & <-).
  apply in_ids_of in Hfailed as (r' & Hr' & Heq).
  assert ((r', Failed) = (r, Succeeded)) as [=].
  apply (NoDup_map_eq (fun p => run_id (fst p)) vs); auto.
Qed.

Section Visits.

Variables (experiment_id_or_name output_dir : string).
Variable run_ids : option (list string).
Variable run_start_time : option string.
Variable export_deleted_runs : bool.
Variable notebook_formats : option (list string).

(** The rounds of a loop over [xs], where [fetch] obtains the run of an
    item: each run with its verdict, up to the first round that raises. *)
Fixpoint visits {A} (fetch : A -> W -> outcome exn Run) (xs : list A) (w : W)
  : list (Run * verdict) :=
  match xs with
  | [] => []
  | x :: xs' =>
      match fetch x w with
      | Raise _ => []
      | Ret r =>
          if too_early (to_millis run_start_time) r
          then (r, Skipped) :: visits fetch xs' w
          else match export_run (run_id r) (PyStr.os_path_join output_dir (run_id r))
                                export_deleted_runs notebook_formats w with
               | (Ret true, w') => (r, Succeeded) :: visits fetch xs' w'
               | (Ret false, w') => (r, Failed) :: visits fetch xs' w'
               | (Raise _, _) => []
               end
      end
  end.

Definition round {A} (fetch : A -> W -> outcome exn Run) (x : A)
  : M state exn unit :=
  run <- read (fetch x) ;;
  _export_run run output_dir (to_millis run_start_time) run_start_time
              export_deleted_runs notebook_formats.

Lemma counting_visits {A} (fetch : A -> W -> outcome exn Run) (xs : list A) :
  forall n st n' st',
    counting xs (round fetch) n st = (Ret n', st') ->
    let vs := visits fetch xs (world st) in
    n' = n + length xs
    /\ length vs = length xs
    /\ ok_run_ids st' = ok_run_ids st ++ ids_of Succeeded vs
    /\ failed_run_ids st' = failed_run_ids st ++ ids_of Failed vs
    /\ files st' = files st.
Proof.
  induction xs as [|x xs IH]; intros n st n' st' H; cbn [counting visits] in *.
  - injection H as <- <-. cbn. rewrite !app_nil_r. auto with lia.
  - apply bind_ret_inv in H as ([] & st1 & Hx & Hrest).
    unfold round, read, bind in Hx. cbn in Hx.
    destruct (fetch x (world st)) as [r|e]; [|discriminate].
    unfold _export_run in Hx.
    destruct (too_early (to_millis run_start_time) r).
    + injection Hx as <-.
      specialize (IH _ _ _ _ Hrest). cbn in IH.
      destruct IH as (-> & Hl & Hok & Hf & Hfiles).
      cbn. rewrite Hl. repeat split; auto with lia.
    + unfold bind, call_export_run in Hx.
      destruct (export_run _ _ _ _ (world st)) as [[[]|e] w']; [| |discriminate].
      * injection Hx as <-.
        specialize (IH _ _ _ _ Hrest). cbn in IH.
        destruct IH as (-> & Hl & Hok & Hf & Hfiles).
        cbn. rewrite Hl, Hok, Hf, Hfiles, <- app_assoc.
        repeat split; auto with lia.
      * injection Hx as <-.
        specialize (IH _ _ _ _ Hrest). cbn in IH.
        destruct IH as (-> & Hl & Hok & Hf & Hfiles).
        cbn. rewrite Hl, Hok, Hf, Hfiles, <- app_assoc.
        repeat split; auto with lia.
Qed.

(** Conversely, a loop whose every round gets its run and an answer from
    [export_run] runs to its end. *)
Lemma counting_total {A} (fetch : A -> W -> outcome exn Run) (xs : list A) :
  forall n st,
    length (visits fetch xs (world st)) = length xs ->
    exists st', counting xs (round fetch) n st = (Ret (n + length xs), st').
Proof.
  induction xs as [|x xs IH]; intros n st Hlen; cbn [counting visits] in *.
  - exists st. cbn. now rewrite Nat.add_0_r.
  - cbn [length] in *.
    replace (n + S (length xs)) with (S n + length xs) by lia.
    destruct (fetch x (world st)) as [r|e] eqn:Hf; [|discriminate].
    assert (exists st1, round fetch x st = (Ret tt, st1)
                        /\ length (visits fetch xs (world st1)) = length xs)
      as (st1 & Hr & Hl).
    { unfold round, read, bind at 1. rewrite Hf. unfold _export_run.
      destruct (too_early (to_millis run_start_time) r).
      - eexists. split; [reflexivity|]. cbn in *. now injection Hlen.
      - unfold bind, call_export_run.
        destruct (export_run _ _ _ _ (world st)) as [[[]|e] w']; [| |discriminate];
          (eexists; split; [reflexivity|]; cbn in *; now injection Hlen). }
    destruct (IH (S n) st1 Hl) as (st' & H'). exists st'.
    unfold bind. rewrite Hr. exact H'.
Qed.

Lemma counting_ext {A} (xs : list A) (f g : A -> M state exn unit) n st :
  (forall x s, f x s = g x s) -> counting xs f n st = counting xs g n st.
Proof.
  intros Hfg. revert n st. induction xs as [|x xs IH]; intros n st; cbn.
  - reflexivity.
  - unfold bind. rewrite Hfg. destruct (g x st) as [[[]|e] s1]; auto.
Qed.

Lemma visits_skipped_iff {A} (fetch : A -> W -> outcome exn Run) (xs : list A) :
  forall w r v,
    In (r, v) (visits fetch xs w) ->
    (v = Skipped <-> too_early (to_millis run_start_time) r = true).
Proof.
  induction xs as [|x xs IH]; intros w r v Hin; cbn [visits] in Hin; [destruct Hin|].
  destruct (fetch x w) as [r0|e]; [|destruct Hin].
  destruct (too_early (to_millis run_start_time) r0) eqn:Hearly.
  - destruct Hin as [[= <- <-]|Hin]; [|exact (IH _ _ _ Hin)].
    split; [intros _; exact Hearly | reflexivity].
  - destruct (export_run _ _ _ _ w) as [[[]|e] w'].
    + destruct Hin as [[= <- <-]|Hin]; [|exact (IH _ _ _ Hin)].
      split; [discriminate | intros H; rewrite H in Hearly; discriminate].
    + destruct Hin as [[= <- <-]|Hin]; [|exact (IH _ _ _ Hin)].
      split; [discriminate | intros H; rewrite H in Hearly; discriminate].
    + destruct Hin.
Qed.

(** The visit record of one export: over the explicit id list when one
    is given, over what the iterator yields otherwise. *)
Definition iterated (exp : Experiment) (w : W) : list Run * option exn :=
  SearchRunsIterator (experiment_id exp) (filter_kwarg (to_millis run_start_time))
                     export_deleted_runs w.

Definition visit_record (exp : Experiment) (w : W) : list (Run * verdict) :=
  if truthy_list run_ids
  then visits remote_get_run (default [] run_ids) w
  else visits (fun r _ => Ret r) (fst (iterated exp w)) w.

(** How many runs the export enumerates. *)
Definition enumeration_size (exp : Experiment) (w : W) : nat :=
  if truthy_list run_ids
  then length (default [] run_ids)
  else length (fst (iterated exp w)).

Definition manifest (exp : Experiment) (vs : list (Run * verdict)) : ExportFile := {|
  file_dir := output_dir;
  file_name := "experiment.json";
  file_mlflow := {| experiment := exp_dict exp; runs := ids_of Succeeded vs |};
  file_info := {| num_total_runs := length vs;
                  num_ok_runs := length (ids_of Succeeded vs);
                  num_failed_runs := length (ids_of Failed vs);
                  failed_runs := ids_of Failed vs |} |}.

Definition run_export : M state exn (nat * nat) :=
  export_experiment experiment_id_or_name output_dir run_ids run_start_time
                    export_deleted_runs notebook_formats.

(** An export that returns has visited every enumerated run, holds the
    succeeded and the failed ids in its two lists, and has written one
    manifest that reports them. *)
Lemma export_experiment_returns st res st' :
  run_export st = (Ret res, st') ->
  exists exp,
    remote_get_experiment experiment_id_or_name (world st) = Ret exp
    /\ let vs := visit_record exp (world st) in
       length vs = enumeration_size exp (world st)
       /\ ok_run_ids st' = ids_of Succeeded vs
       /\ failed_run_ids st' = ids_of Failed vs
       /\ files st' = files st ++ [manifest exp vs]
       /\ res = (length (ids_of Succeeded vs), length (ids_of Failed vs)).
Proof.
  unfold run_export, export_experiment. intros H.
  apply bind_ret_inv in H as (exp & s1 & Hexp & H).
  unfold read in Hexp.
  destruct (remote_get_experiment _ (world st)) as [exp'|] eqn:Hget;
    [|discriminate].
  injection Hexp as -> <-. exists exp. split; [reflexivity|].
  apply bind_ret_inv in H as ([] & s2 & Hlog & H). injection Hlog as <-.
  apply bind_ret_inv in H as ([] & s3 & Hnew & H). injection Hnew as <-.
  apply bind_ret_inv in H as (num & s4 & Hloop & H).
  assert (num = enumeration_size exp (world st)
          /\ length (visit_record exp (world st)) = enumeration_size exp (world st)
          /\ ok_run_ids s4 = ids_of Succeeded (visit_record exp (world st))
          /\ failed_run_ids s4 = ids_of Failed (visit_record exp (world st))
          /\ files s4 = files st) as (-> & Hlen & Hok & Hfailed & Hfiles).
  { unfold visit_record, enumeration_size.
    destruct (truthy_list run_ids).
    - apply (counting_visits remote_get_run) in Hloop. cbn in Hloop.
      exact Hloop.
    - apply bind_ret_inv in Hloop as (s & s5 & Hs & Hloop).
      injection Hs as <- <-.
      apply bind_ret_inv in Hloop as (n & s6 & Hcount & Hend).
      cbn [world] in Hcount, Hend.
      fold (iterated exp (world st)) in Hcount, Hend.
      destruct (snd (iterated exp (world st))); [discriminate|].
      injection Hend as <- <-.
      erewrite counting_ext in Hcount;
        [apply (counting_visits (fun r _ => Ret r)) in Hcount|reflexivity].
      cbn in Hcount. exact Hcount. }
  cbn -[Nat.eqb] in H. unfold bind in H. cbn -[Nat.eqb] in H.
  set (vs := visit_record exp (world st)) in *.
  rewrite Hok, Hfailed, Hfiles in H. rewrite <- Hlen in H.
  assert (res = (length (ids_of Succeeded vs), length (ids_of Failed vs))
          /\ ok_run_ids st' = ids_of Succeeded vs
          /\ failed_run_ids st' = ids_of Failed vs
          /\ files st' = files st ++ [manifest exp vs]) as (-> & ? & ? & ?).
  { destruct (length vs =? 0); [|destruct (length (ids_of Failed vs) =? 0)];
      cbn in H; injection H as <- <-; cbn; auto. }
  cbn. auto.
Qed.

(** An export whose reads succeed returns: the experiment is found, every
    round gets its run and an answer, and the iterator ends without an
    error. *)
Lemma export_experiment_completes st exp :
  remote_get_experiment experiment_id_or_name (world st) = Ret exp ->
  length (visit_record exp (world st)) = enumeration_size exp (world st) ->
  (truthy_list run_ids = false -> snd (iterated exp (world st)) = None) ->
  exists res st', run_export st = (Ret res, st').
Proof.
  intros Hexp Hlen Hend.
  unfold run_export, export_experiment.
  erewrite bind_ret_run; [|unfold read; rewrite Hexp; reflexivity].
  erewrite bind_ret_run; [|reflexivity].
  erewrite bind_ret_run; [|reflexivity].
  unfold visit_record, enumeration_size in Hlen.
  match goal with |- exists _ _, bind _ _ ?s = _ => set (s3 := s) end.
  assert (world s3 = world st) as Hw by reflexivity.
  destruct (truthy_list run_ids).
  - destruct (counting_total remote_get_run (default [] run_ids) 0 s3)
      as (s4 & Hloop); [rewrite Hw; exact Hlen|].
    unfold round in Hloop. erewrite bind_ret_run; [|exact Hloop].
    unfold bind, Eff.get, write_export_file, logger, modify, ret.
    destruct (_ =? 0); [|destruct (_ =? 0)]; eauto.
  - specialize (Hend eq_refl).
    destruct (counting_total (fun r _ => Ret r) (fst (iterated exp (world st))) 0 s3)
      as (s4 & Hloop); [rewrite Hw; exact Hlen|].
    erewrite bind_ret_run; [|].
    2:{ erewrite bind_ret_run; [|reflexivity]. rewrite Hw.
        fold (iterated exp (world st)).
        erewrite bind_ret_run;
          [|erewrite counting_ext; [exact Hloop | reflexivity]].
        rewrite Hend. reflexivity. }
    unfold bind, Eff.get, write_export_file, logger, modify, ret.
    destruct (_ =? 0); [|destruct (_ =? 0)]; eauto.
Qed.

Lemma export_experiment_returns_at st res st' exp :
  remote_get_experiment experiment_id_or_name (world st) = Ret exp ->
  run_export st = (Ret res, st') ->
  let vs := visit_record exp (world st) in
  length vs = enumeration_size exp (world st)
  /\ ok_run_ids st' = ids_of Succeeded vs
  /\ failed_run_ids st' = ids_of Failed vs
  /\ files st' = files st ++ [manifest exp vs]
  /\ res = (length (ids_of Succeeded vs), length (ids_of Failed vs)).
Proof.
  intros Hexp Hrun.
  destruct (export_experiment_returns _ _ _ Hrun) as (exp' & Hexp' & H).
  rewrite Hexp in Hexp'. injection Hexp' as <-. exact H.
Qed.

Lemma visit_record_skipped_iff exp w r v :
  In (r, v) (visit_record exp w) ->
  (v = Skipped <-> too_early (to_millis run_start_time) r = true).
Proof.
  unfold visit_record. destruct (truthy_list run_ids); apply visits_skipped_iff.
Qed.

Lemma too_early_iff T r :
  too_early (Some T) r = true <-> T <> 0%Z /\ (start_time r < T)%Z.
Proof.
  unfold too_early. rewrite andb_true_iff, negb_true_iff, Z.eqb_neq, Z.ltb_lt.
  reflexivity.
Qed.

(** C10.  The manifest's [num_total_runs] is the number of enumerated
    runs, those skipped by the start-time filter included; the two lists
    hold the succeeded and the failed runs only, so ok + failed + skipped
    = total, ok + failed <= total, and the two are equal exactly when no
    enumerated run was skipped. *)
Theorem total_counts_every_enumerated_run st res st' exp :
  remote_get_experiment experiment_id_or_name (world st) = Ret exp ->
  run_export st = (Ret res, st') ->
  let vs := visit_record exp (world st) in
  let info := file_info (manifest exp vs) in
  files st' = files st ++ [manifest exp vs]
  /\ num_total_runs info = enumeration_size exp (world st)
  /\ (forall r v, In (r, v) vs ->
        (v = Skipped <-> too_early (to_millis run_start_time) r = true))
  /\ ok_run_ids st' = ids_of Succeeded vs
  /\ failed_run_ids st' = ids_of Failed vs
  /\ num_ok_runs info = length (ok_run_ids st')
  /\ num_failed_runs info = length (failed_run_ids st')
  /\ num_ok_runs info + num_failed_runs info + length (ids_of Skipped vs)
     = num_total_runs info
  /\ num_ok_runs info + num_failed_runs info <= num_total_runs info
  /\ (num_ok_runs info + num_failed_runs info = num_total_runs info
      <-> forall r, ~ In (r, Skipped) vs).
Proof.
  intros Hexp Hrun vs info.
  destruct (export_experiment_returns_at _ _ _ _ Hexp Hrun)
    as (Hlen & Hok & Hfailed & Hfiles & _).
  fold vs in Hlen, Hok, Hfailed, Hfiles.
  pose proof (ids_of_total vs) as Htotal.
  pose proof (ids_of_skipped_nil vs) as Hnil.
  subst info. cbn [file_info manifest num_total_runs num_ok_runs num_failed_runs].
  rewrite Hok, Hfailed.
  split; [exact Hfiles|]. split; [exact Hlen|].
  split; [intros r v Hin; exact (visit_record_skipped_iff exp (world st) r v Hin)|].
  do 4 (split; [reflexivity|]).
  split; [exact Htotal|]. split; [lia|].
  rewrite <- Hnil. lia.
Qed.

(** C7.  With a start-time filter [T], a run that started before [T] is
    skipped, and every id in the ok or the failed list is the id of an
    enumerated, exported run that started at [T] or later; this in both
    enumeration modes.  The code reads a threshold of [0] as no filter, so
    for [T = 0] this rests on start times being Unix-epoch milliseconds,
    none below [0]. *)
Theorem early_runs_are_not_exported st res st' exp T :
  to_millis run_start_time = Some T ->
  (T <> 0%Z \/
   forall r v, In (r, v) (visit_record exp (world st)) -> (0 <= start_time r)%Z) ->
  remote_get_experiment experiment_id_or_name (world st) = Ret exp ->
  run_export st = (Ret res, st') ->
  let vs := visit_record exp (world st) in
  (forall r v, In (r, v) vs -> (start_time r < T)%Z -> v = Skipped)
  /\ (forall id, In id (ok_run_ids st' ++ failed_run_ids st') ->
        exists r v, In (r, v) vs /\ v <> Skipped /\ run_id r = id
                    /\ (T <= start_time r)%Z).
Proof.
  intros HT Hfilter Hexp Hrun vs.
  destruct (export_experiment_returns_at _ _ _ _ Hexp Hrun)
    as (_ & Hok & Hfailed & _).
  fold vs in Hok, Hfailed.
  assert (forall r v, In (r, v) vs ->
            (v = Skipped <-> T <> 0%Z /\ (start_time r < T)%Z)) as Hskip.
  { intros r v Hin. rewrite <- too_early_iff, <- HT.
    exact (visit_record_skipped_iff exp (world st) r v Hin). }
  assert (forall r v, In (r, v) vs -> T = 0%Z -> (0 <= start_time r)%Z) as Hzero.
  { intros r v Hin HT0. destruct Hfilter as [Hne|Hnn]; [contradiction|].
    exact (Hnn r v Hin). }
  split.
  - intros r v Hin Hlt. apply (Hskip r v Hin).
    split; [|exact Hlt]. intros HT0. specialize (Hzero r v Hin HT0). lia.
  - intros id Hin. rewrite Hok, Hfailed in Hin.
    assert (exists r v, In (r, v) vs /\ v <> Skipped /\ run_id r = id)
      as (r & v & Hrv & Hv & Hid).
    { apply in_app_or in Hin as [Hin|Hin];
        apply in_ids_of in Hin as (r & Hr & Hid).
      - exists r, Succeeded. split; [exact Hr|]. split; [discriminate | exact Hid].
      - exists r, Failed. split; [exact Hr|]. split; [discriminate | exact Hid]. }
    exists r, v. repeat split; try assumption.
    destruct (Z.eq_dec T 0%Z) as [HT0|HT0].
    + specialize (Hzero r v Hrv HT0). lia.
    + destruct (Z.lt_ge_cases (start_time r) T) as [Hlt|Hge]; [|exact Hge].
      exfalso. apply Hv, (Hskip r v Hrv). split; assumption.
Qed.

(** C3, as the code has it.  When no enumerated run is skipped by the
    start-time filter and the enumerated run ids are pairwise distinct, the
    ok and failed lists are disjoint, their lengths add up to the number [N]
    of enumerated runs, which is the manifest's [num_total_runs], and the
    manifest's [failed_runs] is exactly the list of runs whose export
    failed. *)
Theorem outcome_lists_partition_runs st res st' exp :
  remote_get_experiment experiment_id_or_name (world st) = Ret exp ->
  run_export st = (Ret res, st') ->
  (forall r, ~ In (r, Skipped) (visit_record exp (world st))) ->
  NoDup (map (fun p => run_id (fst p)) (visit_record exp (world st))) ->
  let vs := visit_record exp (world st) in
  let info := file_info (manifest exp vs) in
  files st' = files st ++ [manifest exp vs]
  /\ (forall id, In id (ok_run_ids st') -> In id (failed_run_ids st') -> False)
  /\ length (ok_run_ids st') + length (failed_run_ids st')
     = enumeration_size exp (world st)
  /\ num_total_runs info = enumeration_size exp (world st)
  /\ failed_runs info = failed_run_ids st'
  /\ (forall id, In id (failed_runs info)
                 <-> exists r, In (r, Failed) vs /\ run_id r = id)
  /\ res = (length (ok_run_ids st'), length (failed_run_ids st')).
Proof.
  intros Hexp Hrun Hnoskip Hnodup vs info.
  destruct (export_experiment_returns_at _ _ _ _ Hexp Hrun)
    as (Hlen & Hok & Hfailed & Hfiles & Hres).
  fold vs in Hlen, Hok, Hfailed, Hfiles, Hres, Hnoskip, Hnodup.
  pose proof (ids_of_total vs) as Htotal.
  apply ids_of_skipped_nil in Hnoskip.
  subst info. cbn [file_info manifest num_total_runs failed_runs].
  rewrite Hok, Hfailed.
  repeat split; try assumption; try lia.
  - intros id. apply ids_of_disjoint, Hnodup.
  - apply in_ids_of.
  - apply in_ids_of.
Qed.

(** C8.  When the enumeration is empty the export returns [(0, 0)], both
    lists are empty, one manifest is written that reports no run, and the
    one line logged about the outcome is a warning. *)
Theorem empty_export_warns st exp :
  remote_get_experiment experiment_id_or_name (world st) = Ret exp ->
  truthy_list run_ids = false ->
  iterated exp (world st) = ([], None) ->
  run_export st
  = (Ret (0, 0),
     {| world := world st;
        log := (log st ++
                [(INFO, ExportingExperiment (exp_name exp) (experiment_id exp)
                          (PyDict.get "mlflow.experimentType" (exp_tags exp))
                          (lifecycle_stage exp))]) ++
               [(WARNING, NoRunsExported (exp_name exp) (experiment_id exp))];
        files := files st ++
                 [{| file_dir := output_dir;
                     file_name := "experiment.json";
                     file_mlflow := {| experiment := exp_dict exp; runs := [] |};
                     file_info := {| num_total_runs := 0; num_ok_runs := 0;
                                     num_failed_runs := 0; failed_runs := [] |} |}];
        ok_run_ids := [];
        failed_run_ids := [] |}).
Proof.
  intros Hexp Hids Hiter.
  unfold run_export, export_experiment, bind at 1, read. rewrite Hexp, Hids.
  unfold bind, logger, new_lists, modify, Eff.get. cbn.
  fold (iterated exp (world st)). rewrite Hiter. reflexivity.
Qed.

(** ** When a manifest is written *)






(** ** When the export returns *)

Lemma visits_complete {A} (fetch : A -> W -> outcome exn Run) (xs : list A) :
  (forall x w, exists r, fetch x w = Ret r) ->
  (forall rid dir w, exists b w',
      export_run rid dir export_deleted_runs notebook_formats w = (Ret b, w')) ->
  forall w, length (visits fetch xs w) = length xs.
Proof.
  intros Hfetch Hexport. induction xs as [|x xs IH]; intros w; cbn [visits].
  - reflexivity.
  - destruct (Hfetch x w) as [r ->].
    destruct (too_early (to_millis run_start_time) r); [cbn; now rewrite IH|].
    destruct (Hexport (run_id r) (PyStr.os_path_join output_dir (run_id r)) w)
      as (b & w' & ->).
    destruct b; cbn; now rewrite IH.
Qed.

(** X19.  A run whose export fails does not stop the export of the experiment:
    when the experiment is found, every [get_run] and [export_run] answers
    (with success or with failure) and the iterator ends without an error,
    the export returns. *)
Theorem export_returns_when_calls_answer st exp :
  remote_get_experiment experiment_id_or_name (world st) = Ret exp ->
  (forall rid w, exists r, remote_get_run rid w = Ret r) ->
  (forall rid dir w, exists b w',
      export_run rid dir export_deleted_runs notebook_formats w = (Ret b, w')) ->
  (truthy_list run_ids = false -> snd (iterated exp (world st)) = None) ->
  exists res st', run_export st = (Ret res, st').
Proof.
  intros Hexp Hget Hexport Hend.
  apply (export_experiment_completes st exp Hexp); [|exact Hend].
  unfold visit_record, enumeration_size. destruct (truthy_list run_ids).
  - now apply visits_complete.
  - apply visits_complete; [|exact Hexport]. intros r w. now exists r.
Qed.

(** ** What is logged *)

(** The line logged for each skipped run, in order. *)
Definition skip_lines (vs : list (Run * verdict)) : list (level * message) :=
  map (fun p => (INFO, NotExportingRun (run_id (fst p)) (run_experiment_id (fst p))
                         (fmt_ts_millis (start_time (fst p))) run_start_time))
      (List.filter (fun p => verdict_eqb (snd p) Skipped) vs).

(** The lines that close an export of [n] enumerated runs. *)
Definition summary_lines (exp : Experiment) (n num_ok num_failed : nat)
  : list (level * message) :=
  if n =? 0
  then [(WARNING, NoRunsExported (exp_name exp) (experiment_id exp))]
  else if num_failed =? 0
  then [(INFO, RunsExported num_ok (exp_name exp) (experiment_id exp))]
  else [(INFO, RunsExportedOf num_ok (n - 1) (exp_name exp) (experiment_id exp));
        (INFO, RunsFailedOf num_failed (n - 1) (exp_name exp) (experiment_id exp))].

Lemma counting_log {A} (fetch : A -> W -> outcome exn Run) (xs : list A) :
  forall n st n' st',
    counting xs (round fetch) n st = (Ret n', st') ->
    log st' = log st ++ skip_lines (visits fetch xs (world st)).
Proof.
  induction xs as [|x xs IH]; intros n st n' st' H; cbn [counting visits] in *.
  - injection H as _ <-. cbn. now rewrite app_nil_r.
  - apply bind_ret_inv in H as ([] & st1 & Hx & Hrest).
    unfold round, read, bind in Hx. cbn in Hx.
    destruct (fetch x (world st)) as [r|e]; [|discriminate].
    unfold _export_run in Hx.
    destruct (too_early (to_millis run_start_time) r).
    + injection Hx as <-. specialize (IH _ _ _ _ Hrest). cbn in IH.
      rewrite IH, <- app_assoc. reflexivity.
    + unfold bind, call_export_run in Hx.
      destruct (export_run _ _ _ _ (world st)) as [[[]|e] w']; [| |discriminate];
        injection Hx as <-; specialize (IH _ _ _ _ Hrest); cbn in IH; exact IH.
Qed.

(** X20.  The log of an export that returns: the line that announces the
    experiment, one line for each run skipped by the start-time test, and
    the closing lines.  The export closes with a warning exactly when no run
    was enumerated; when runs were enumerated and none failed it reports the
    number exported, also when that number is 0 because every run was
    skipped; when some failed, the two closing lines give the counts over
    [j], the index of the last run, which is one less than the number of
    runs.  No line is logged at error level. *)
Theorem export_log_lines st res st' exp :
  remote_get_experiment experiment_id_or_name (world st) = Ret exp ->
  run_export st = (Ret res, st') ->
  let vs := visit_record exp (world st) in
  log st' = log st
            ++ [(INFO, ExportingExperiment (exp_name exp) (experiment_id exp)
                         (PyDict.get "mlflow.experimentType" (exp_tags exp))
                         (lifecycle_stage exp))]
            ++ skip_lines vs
            ++ summary_lines exp (length vs) (length (ids_of Succeeded vs))
                             (length (ids_of Failed vs)).
Proof.
  intros Hexp0 H vs.
  destruct (export_experiment_returns_at _ _ _ _ Hexp0 H)
    as (Hlen & Hok & Hfailed & _ & _). fold vs in Hlen, Hok, Hfailed.
  unfold run_export, export_experiment in H.
  apply bind_ret_inv in H as (exp' & s1 & Hexp & H).
  unfold read in Hexp. rewrite Hexp0 in Hexp. injection Hexp as <- <-.
  apply bind_ret_inv in H as ([] & s2 & Hlog & H). injection Hlog as <-.
  apply bind_ret_inv in H as ([] & s3 & Hnew & H). injection Hnew as <-.
  apply bind_ret_inv in H as (num & s4 & Hloop & H).
  assert (num = enumeration_size exp (world st)
          /\ ok_run_ids s4 = ids_of Succeeded vs
          /\ failed_run_ids s4 = ids_of Failed vs
          /\ log s4 = (log st ++
                       [(INFO, ExportingExperiment (exp_name exp) (experiment_id exp)
                                 (PyDict.get "mlflow.experimentType" (exp_tags exp))
                                 (lifecycle_stage exp))]) ++ skip_lines vs)
    as (-> & Hok4 & Hfailed4 & Hlog4).
  { subst vs. unfold visit_record, enumeration_size in *.
    destruct (truthy_list run_ids).
    - pose proof (counting_log remote_get_run _ _ _ _ _ Hloop) as Hl.
      apply (counting_visits remote_get_run) in Hloop. cbn in Hloop, Hl.
      destruct Hloop as (-> & _ & Ho & Hf & _). auto.
    - apply bind_ret_inv in Hloop as (s & s5 & Hs & Hloop).
      injection Hs as <- <-.
      apply bind_ret_inv in Hloop as (n & s6 & Hcount & Hend).
      cbn [world] in Hcount, Hend.
      fold (iterated exp (world st)) in Hcount, Hend.
      destruct (snd (iterated exp (world st))); [discriminate|].
      injection Hend as <- <-.
      erewrite counting_ext in Hcount by reflexivity.
      pose proof (counting_log (fun r _ => Ret r) _ _ _ _ _ Hcount) as Hl.
      apply (counting_visits (fun r _ => Ret r)) in Hcount. cbn in Hcount, Hl.
      destruct Hcount as (-> & _ & Ho & Hf & _). auto. }
  cbn -[Nat.eqb] in H. unfold bind in H. cbn -[Nat.eqb] in H.
  rewrite Hok4, Hfailed4, Hlog4 in H. rewrite <- Hlen in H.
  unfold summary_lines.
  destruct (length vs =? 0); [|destruct (length (ids_of Failed vs) =? 0)];
    cbn in H; injection H as _ <-; cbn [log]; rewrite <- ?app_assoc; reflexivity.
Qed.

(** ** The tags in the manifest *)

Definition key_le (a b : string * string) : Prop :=
  String.leb (fst a) (fst b) = true.

Lemma insert_sorted_perm (kv : string * string) (d : dict) :
  Permutation (insert_sorted kv d) (kv :: d).
Proof.
  induction d as [|kv' d IH]; cbn; [reflexivity|].
  destruct (String.leb (fst kv) (fst kv')); [reflexivity|].
  rewrite IH. apply perm_swap.
Qed.

Lemma insert_sorted_hd (kv x : string * string) (d : dict) :
  key_le x kv -> HdRel key_le x d -> HdRel key_le x (insert_sorted kv d).
Proof.
  intros Hx Hd. destruct d as [|kv' d]; cbn; [now constructor|].
  destruct (String.leb (fst kv) (fst kv')); constructor; [exact Hx|].
  now inversion Hd.
Qed.

Lemma insert_sorted_sorted (kv : string * string) (d : dict) :
  Sorted key_le d -> Sorted key_le (insert_sorted kv d).
Proof.
  induction d as [|kv' d IH]; intros Hs; cbn.
  - repeat constructor.
  - inversion Hs as [|? ? Hs' Hhd]; subst.
    destruct (String.leb (fst kv) (fst kv')) eqn:E.
    + constructor; [exact Hs | constructor; exact E].
    + constructor; [now apply IH|].
      apply insert_sorted_hd; [|exact Hhd].
      destruct (String.leb_total (fst kv) (fst kv')) as [H|H]; [congruence | exact H].
Qed.

Lemma sorted_items_sorted (d : dict) :
  Sorted key_le (sorted_items d) /\ Permutation (sorted_items d) d.
Proof.
  unfold sorted_items. induction d as [|kv d [IHs IHp]]; cbn.
  - split; constructor.
  - split; [now apply insert_sorted_sorted|].
    rewrite insert_sorted_perm. now constructor.
Qed.

(** X21.  The manifest an export writes holds the experiment's tags in ascending
    order of their keys: the same entries as the experiment has, each key no
    greater than the next. *)
Theorem manifest_tags_sorted st res st' exp :
  remote_get_experiment experiment_id_or_name (world st) = Ret exp ->
  run_export st = (Ret res, st') ->
  exists f, files st' = files st ++ [f]
            /\ Sorted key_le (d_tags (experiment (file_mlflow f)))
            /\ Permutation (d_tags (experiment (file_mlflow f))) (exp_tags exp).
Proof.
  intros Hexp H.
  destruct (export_experiment_returns_at _ _ _ _ Hexp H) as (_ & _ & _ & Hfiles & _).
  eexists. split; [exact Hfiles|]. cbn. apply sorted_items_sorted.
Qed.

(** ** The lists follow the enumeration *)

Lemma visits_yielded (rs : list Run) :
  forall w, length (visits (fun r _ => Ret r) rs w) = length rs ->
            map fst (visits (fun r _ => Ret r) rs w) = rs.
Proof.
  induction rs as [|r rs IH]; intros w Hlen; cbn [visits] in *; [reflexivity|].
  destruct (too_early (to_millis run_start_time) r).
  - cbn in *. f_equal. apply IH. lia.
  - destruct (export_run _ _ _ _ w) as [[[]|e] w']; [| |discriminate];
      cbn in *; f_equal; apply IH; lia.
Qed.

Lemma ids_of_sublist (v : verdict) (vs : list (Run * verdict)) :
  sublist (ids_of v vs) (map run_id (map fst vs)).
Proof.
  unfold ids_of. induction vs as [|[r v'] vs IH]; cbn; [constructor|].
  destruct (verdict_eqb v' v); cbn; now constructor.
Qed.

(** X22.  When the runs come from the iterator, the ok list and the failed list
    of an export that returns are made of ids of the runs it yielded, in the
    order in which it yielded them. *)
Theorem iterator_lists_follow_enumeration st res st' exp :
  truthy_list run_ids = false ->
  remote_get_experiment experiment_id_or_name (world st) = Ret exp ->
  run_export st = (Ret res, st') ->
  sublist (ok_run_ids st') (map run_id (fst (iterated exp (world st))))
  /\ sublist (failed_run_ids st') (map run_id (fst (iterated exp (world st)))).
Proof.
  intros Hmode Hexp H.
  destruct (export_experiment_returns_at _ _ _ _ Hexp H)
    as (Hlen & Hok & Hfailed & _ & _).
  unfold visit_record, enumeration_size in *. rewrite Hmode in *.
  rewrite Hok, Hfailed.
  rewrite <- (visits_yielded _ _ Hlen) at 2 4.
  split; apply ids_of_sublist.
Qed.

End Visits.

End Orchestration.

Arguments world {W}.
Arguments log {W}.
Arguments files {W}.
Arguments ok_run_ids {W}.
Arguments failed_run_ids {W}.

(** ** A scripted tracking server

    The world is the list of outcomes the coming [export_run] calls will
    have.  Run [a] started at 50, every other run at 200; every date
    converts to 100; the experiment has no runs of its own to search. *)

Module Scripted.

Definition W : Type := list bool.

Definition exp0 : Experiment := {|
  exp_name := "wine"; experiment_id := "3"; lifecycle_stage := "active";
  creation_time := 0; last_update_time := 0;
  exp_tags := [("mlflow.experimentType", "MLFLOW_EXPERIMENT")] |}.

Definition get_experiment (_ : string) (_ : W) : outcome exn Experiment := Ret exp0.

Definition get_run (rid : string) (_ : W) : outcome exn Run :=
  Ret (mkRun rid "3" (if String.eqb rid "a" then 50 else 200)).

Definition export_run (_ _ : string) (_ : bool) (_ : option (list string)) (w : W)
  : outcome exn bool * W :=
  match w with
  | b :: w' => (Ret b, w')
  | [] => (Ret true, [])
  end.

Definition utc_str_to_millis (_ : string) : Z := 100.
Definition fmt_ts_millis (_ : Z) : string := "1970-01-01 00:00:00".
Definition search (_ : string) (_ : option Z) (_ : bool) (_ : W)
  : list Run * option exn := ([], None).

Definition export (run_ids : option (list string)) (run_start_time : option string)
  : M (state W) exn (nat * nat) :=
  export_experiment W get_experiment get_run export_run utc_str_to_millis
                    fmt_ts_millis search "wine" "out" run_ids run_start_time
                    false None.

Definition record (run_ids : option (list string)) (run_start_time : option string)
    (w : W) : list (Run * verdict) :=
  visit_record W get_run export_run utc_str_to_millis search "out" run_ids
               run_start_time false None exp0 w.

Definition start (w : W) : state W :=
  {| world := w; log := []; files := []; ok_run_ids := []; failed_run_ids := [] |}.

Definition size (run_ids : option (list string)) (run_start_time : option string)
    (w : W) : nat :=
  enumeration_size W utc_str_to_millis search run_ids run_start_time false exp0 w.

(** C3 refuted as stated: three runs are enumerated, [a], [b] and [b]
    again, with a start-time filter.  Run [a] started before the threshold
    and is skipped; the first export of [b] succeeds and the second fails.
    The manifest counts 3 runs, the two lists hold 2 ids, and [b] is in
    both. *)
Lemma skipped_and_repeated_runs_break_partition :
  let r := export (Some ["a"; "b"; "b"]) (Some "2024-01-01") (start [true; false]) in
  fst r = Ret (1, 1)
  /\ map (fun f => num_total_runs (file_info f)) (files (snd r)) = [3]
  /\ ok_run_ids (snd r) = ["b"]
  /\ failed_run_ids (snd r) = ["b"]
  /\ length (ok_run_ids (snd r)) + length (failed_run_ids (snd r)) <> 3
  /\ (In "b" (ok_run_ids (snd r)) /\ In "b" (failed_run_ids (snd r))).
Proof.
  vm_compute. repeat split; try reflexivity; try discriminate; left; reflexivity.
Qed.

Lemma outcome_lists_partition_runs_witness :
  let ids := Some ["a"; "b"] in
  let st := start [true; false] in
  let st' := snd (export ids None st) in
  get_experiment "wine" (world st) = Ret exp0
  /\ export ids None st = (Ret (1, 1), st')
  /\ (forall r, ~ In (r, Skipped) (record ids None (world st)))
  /\ NoDup (map (fun p => run_id (fst p)) (record ids None (world st)))
  /\ (forall id, In id (ok_run_ids st') -> In id (failed_run_ids st') -> False)
  /\ length (ok_run_ids st') + length (failed_run_ids st') = size ids None (world st).
Proof.
  intros ids st st'.
  assert (get_experiment "wine" (world st) = Ret exp0) as H1 by reflexivity.
  assert (export ids None st = (Ret (1, 1), st')) as H2 by (vm_compute; reflexivity).
  assert (forall r, ~ In (r, Skipped) (record ids None (world st))) as H3.
  { vm_compute. intros r [H|[H|[]]]; discriminate H. }
  assert (NoDup (map (fun p => run_id (fst p)) (record ids None (world st)))) as H4.
  { vm_compute. apply NoDup_cons. split.
    - rewrite list_elem_of_In. intros [H|[]]. discriminate H.
    - apply NoDup_singleton. }
  split; [exact H1|]. split; [exact H2|]. split; [exact H3|]. split; [exact H4|].
  pose proof (outcome_lists_partition_runs W get_experiment get_run export_run
                utc_str_to_millis fmt_ts_millis search "wine" "out" ids None
                false None st (1, 1) st' exp0 H1 H2 H3 H4) as H.
  cbv zeta in H. destruct H as (_ & Hdisj & Hsum & _).
  split; [exact Hdisj | exact Hsum].
Defined.

Lemma early_runs_are_not_exported_witness :
  let ids := Some ["a"; "b"] in
  let st := start [false] in
  let st' := snd (export ids (Some "2024-01-01") st) in
  to_millis utc_str_to_millis (Some "2024-01-01") = Some 100%Z
  /\ 100%Z <> 0%Z
  /\ get_experiment "wine" (world st) = Ret exp0
  /\ export ids (Some "2024-01-01") st = (Ret (0, 1), st')
  /\ (forall r v, In (r, v) (record ids (Some "2024-01-01") (world st)) ->
                  (start_time r < 100)%Z -> v = Skipped)
  /\ (forall id, In id (ok_run_ids st' ++ failed_run_ids st') ->
        exists r v, In (r, v) (record ids (Some "2024-01-01") (world st))
                    /\ v <> Skipped /\ run_id r = id /\ (100 <= start_time r)%Z).
Proof.
  intros ids st st'.
  assert (to_millis utc_str_to_millis (Some "2024-01-01") = Some 100%Z) as H1
    by reflexivity.
  assert (100%Z <> 0%Z) as H2 by lia.
  assert (get_experiment "wine" (world st) = Ret exp0) as H3 by reflexivity.
  assert (export ids (Some "2024-01-01") st = (Ret (0, 1), st')) as H4
    by (vm_compute; reflexivity).
  split; [exact H1|]. split; [exact H2|]. split; [exact H3|]. split; [exact H4|].
  exact (early_runs_are_not_exported W get_experiment get_run export_run
           utc_str_to_millis fmt_ts_millis search "wine" "out" ids
           (Some "2024-01-01") false None st (0, 1) st' exp0 100%Z
           H1 (or_introl H2) H3 H4).
Defined.

Lemma empty_export_warns_witness :
  let st := start [] in
  get_experiment "wine" (world st) = Ret exp0
  /\ truthy_list (@None (list string)) = false
  /\ iterated W utc_str_to_millis search None false exp0 (world st) = ([], None)
  /\ fst (export None None st) = Ret (0, 0)
  /\ map fst (log (snd (export None None st))) = [INFO; WARNING]
  /\ map (fun f => (runs (file_mlflow f), failed_runs (file_info f)))
         (files (snd (export None None st))) = [([], [])].
Proof.
  intros st.
  assert (get_experiment "wine" (world st) = Ret exp0) as H1 by reflexivity.
  assert (truthy_list (@None (list string)) = false) as H2 by reflexivity.
  assert (iterated W utc_str_to_millis search None false exp0 (world st)
          = ([], None)) as H3 by reflexivity.
  split; [exact H1|]. split; [exact H2|]. split; [exact H3|].
  pose proof (empty_export_warns W get_experiment get_run export_run
                utc_str_to_millis fmt_ts_millis search "wine" "out" None None
                false None st exp0 H1 H2 H3) as H.
  unfold run_export in H. fold (export None None) in H. rewrite H.
  repeat split.
Defined.

Lemma total_counts_every_enumerated_run_witness :
  let ids := Some ["a"; "b"; "b"] in
  let rst := Some "2024-01-01" in
  let st := start [true; false] in
  let st' := snd (export ids rst st) in
  let info := file_info (manifest fmt_ts_millis "out" exp0 (record ids rst (world st))) in
  get_experiment "wine" (world st) = Ret exp0
  /\ export ids rst st = (Ret (1, 1), st')
  /\ num_total_runs info = size ids rst (world st)
  /\ num_ok_runs info + num_failed_runs info <= num_total_runs info.
Proof.
  intros ids rst st st' info.
  assert (get_experiment "wine" (world st) = Ret exp0) as H1 by reflexivity.
  assert (export ids rst st = (Ret (1, 1), st')) as H2 by (vm_compute; reflexivity).
  split; [exact H1|]. split; [exact H2|].
  pose proof (total_counts_every_enumerated_run W get_experiment get_run export_run
                utc_str_to_millis fmt_ts_millis search "wine" "out" ids rst
                false None st (1, 1) st' exp0 H1 H2) as H.
  cbv zeta in H. destruct H as (_ & Htotal & _ & _ & _ & _ & _ & _ & Hle & _).
  split; [exact Htotal | exact Hle].
Defined.

(** A search that yields two runs, both started after every threshold. *)
Definition search_two (_ : string) (_ : option Z) (_ : bool) (_ : W)
  : list Run * option exn := ([mkRun "a" "3" 200; mkRun "b" "3" 200], None).

Definition exp_tagged : Experiment := {|
  exp_name := "wine"; experiment_id := "3"; lifecycle_stage := "active";
  creation_time := 0; last_update_time := 0;
  exp_tags := [("team", "ml"); ("mlflow.experimentType", "MLFLOW_EXPERIMENT");
               ("owner", "ann")] |}.

Definition get_tagged (_ : string) (_ : W) : outcome exn Experiment := Ret exp_tagged.

Lemma export_log_lines_witness :
  let ids := Some ["a"; "b"; "b"] in
  let rst := Some "2024-01-01" in
  let st := start [true; false] in
  let st' := snd (export ids rst st) in
  get_experiment "wine" (world st) = Ret exp0
  /\ export ids rst st = (Ret (1, 1), st')
  /\ log st' = [(INFO, ExportingExperiment "wine" "3" (Some "MLFLOW_EXPERIMENT") "active");
                (INFO, NotExportingRun "a" "3" "1970-01-01 00:00:00" (Some "2024-01-01"));
                (INFO, RunsExportedOf 1 2 "wine" "3");
                (INFO, RunsFailedOf 1 2 "wine" "3")].
Proof.
  intros ids rst st st'.
  assert (get_experiment "wine" (world st) = Ret exp0) as H1 by reflexivity.
  assert (export ids rst st = (Ret (1, 1), st')) as H2 by (vm_compute; reflexivity).
  split; [exact H1|]. split; [exact H2|].
  pose proof (export_log_lines W get_experiment get_run export_run
                utc_str_to_millis fmt_ts_millis search "wine" "out" ids rst
                false None st (1, 1) st' exp0 H1 H2) as H.
  cbv zeta in H. rewrite H. vm_compute. reflexivity.
Defined.

Lemma manifest_tags_sorted_witness :
  let st := start [true] in
  let run := export_experiment W get_tagged get_run export_run utc_str_to_millis
               fmt_ts_millis search "wine" "out" (Some ["b"]) None false None in
  get_tagged "wine" (world st) = Ret exp_tagged
  /\ run st = (Ret (1, 0), snd (run st))
  /\ exists f, files (snd (run st)) = files st ++ [f]
               /\ Sorted key_le (d_tags (experiment (file_mlflow f)))
               /\ Permutation (d_tags (experiment (file_mlflow f)))
                              (exp_tags exp_tagged).
Proof.
  intros st run.
  assert (get_tagged "wine" (world st) = Ret exp_tagged) as H1 by reflexivity.
  assert (run st = (Ret (1, 0), snd (run st))) as H2 by (vm_compute; reflexivity).
  split; [exact H1|]. split; [exact H2|].
  exact (manifest_tags_sorted W get_tagged get_run export_run utc_str_to_millis
           fmt_ts_millis search "wine" "out" (Some ["b"]) None false None
           st (1, 0) (snd (run st)) exp_tagged H1 H2).
Defined.

Lemma iterator_lists_follow_enumeration_witness :
  let st := start [false; true] in
  let run := export_experiment W get_experiment get_run export_run utc_str_to_millis
               fmt_ts_millis search_two "wine" "out" None None false None in
  truthy_list (@None (list string)) = false
  /\ get_experiment "wine" (world st) = Ret exp0
  /\ run st = (Ret (1, 1), snd (run st))
  /\ sublist (ok_run_ids (snd (run st))) ["a"; "b"]
  /\ sublist (failed_run_ids (snd (run st))) ["a"; "b"].
Proof.
  intros st run.
  assert (truthy_list (@None (list string)) = false) as H0 by reflexivity.
  assert (get_experiment "wine" (world st) = Ret exp0) as H1 by reflexivity.
  assert (run st = (Ret (1, 1), snd (run st))) as H2 by (vm_compute; reflexivity).
  split; [exact H0|]. split; [exact H1|]. split; [exact H2|].
  exact (iterator_lists_follow_enumeration W get_experiment get_run export_run
           utc_str_to_millis fmt_ts_millis search_two "wine" "out" None None
           false None st (1, 1) (snd (run st)) exp0 H0 H1 H2).
Defined.

Lemma export_returns_when_calls_answer_witness :
  let ids := Some ["a"; "b"] in
  let st := start [false; false] in
  get_experiment "wine" (world st) = Ret exp0
  /\ (forall rid w, exists r, get_run rid w = Ret r)
  /\ (forall rid dir w, exists b w', export_run rid dir false None w = (Ret b, w'))
  /\ exists res st', export ids None st = (Ret res, st').
Proof.
  intros ids st.
  assert (get_experiment "wine" (world st) = Ret exp0) as H1 by reflexivity.
  assert (forall rid w, exists r, get_run rid w = Ret r) as H2
    by (intros rid w; eexists; reflexivity).
  assert (forall rid dir w, exists b w', export_run rid dir false None w = (Ret b, w'))
    as H3 by (intros rid dir [|b w]; eexists _, _; reflexivity).
  assert (truthy_list ids = false ->
          snd (iterated W utc_str_to_millis search None false exp0 (world st)) = None)
    as H4 by (intros _; reflexivity).
  split; [exact H1|]. split; [exact H2|]. split; [exact H3|].
  exact (export_returns_when_calls_answer W get_experiment get_run export_run
           utc_str_to_millis fmt_ts_millis search "wine" "out" ids None false None
           st exp0 H1 H2 H3 H4).
Defined.

End Scripted.

End ExportExperiment.


(** * More of Python's [str] *)

Module PyText.

#[local] Arguments String.append _ _ : simpl nomatch.

(** [s.replace(old, new)] for a non-empty [old]: the occurrences of [old]
    are found from the left and do not overlap; [skip] counts the
    characters of the occurrence just replaced that are still to be passed
    over. *)
Fixpoint replace_from (old new : string) (skip : nat) (s : string) : string :=
  match s with
  | EmptyString => EmptyString
  | String c s' =>
      match skip with
      | S k => replace_from old new k s'
      | O =>
          if String.prefix old s
          then new +:+ replace_from old new (String.length old - 1) s'
          else String c (replace_from old new 0 s')
      end
  end.

Definition replace (old new s : string) : string := replace_from old new 0 s.

(** [c.isspace()] for the code points below 256: the ASCII white space,
    the four separators 0x1c..0x1f, NEL and the no-break space. *)
Definition isspace (c : ascii) : bool :=
  let n := nat_of_ascii c in
  ((9 <=? n) && (n <=? 13)) || ((28 <=? n) && (n <=? 32)) || (n =? 133) || (n =? 160).

(** [s.rstrip()] *)
Fixpoint rstrip (s : string) : string :=
  match s with
  | EmptyString => EmptyString
  | String c s' =>
      match rstrip s' with
      | EmptyString => if isspace c then EmptyString else String c EmptyString
      | t => String c t
      end
  end.

(** Every character of [s] is white space: [s] is empty or blank. *)
Fixpoint blank (s : string) : bool :=
  match s with
  | EmptyString => true
  | String c s' => isspace c && blank s'
  end.

Lemma replace_from_skip (old new q rest : string) :
  replace_from old new (String.length q) (q +:+ rest) = replace_from old new 0 rest.
Proof.
  induction q as [|c q IH]; cbn [String.length String.append].
  - destruct rest; reflexivity.
  - cbn [replace_from]. exact IH.
Qed.

(** An occurrence at the head is replaced and the scan goes on behind it. *)
Lemma replace_hit (c : ascii) (o new rest : string) :
  replace (String c o) new (String c o +:+ rest)
  = new +:+ replace (String c o) new rest.
Proof.
  unfold replace. cbn [String.append replace_from].
  change (String c (o +:+ rest)) with (String c o +:+ rest).
  rewrite PyStr.prefix_app. cbn [String.length].
  replace (S (String.length o) - 1) with (String.length o) by lia.
  now rewrite replace_from_skip.
Qed.

(** A string in which [old] does not occur is left as it is. *)
Lemma replace_miss (old new s : string) :
  PyStr.find old s = None -> replace old new s = s.
Proof.
  unfold replace. induction s as [|c s IH]; intros H; [reflexivity|].
  cbn [PyStr.find] in H. cbn [replace_from].
  destruct (String.prefix old (String c s)); [discriminate|].
  destruct (PyStr.find old s); [discriminate|].
  now rewrite IH.
Qed.

Lemma rstrip_empty_iff (s : string) : rstrip s = EmptyString <-> blank s = true.
Proof.
  induction s as [|c s IH]; cbn; [tauto|].
  destruct (rstrip s) as [|d t].
  - destruct (isspace c); cbn; [tauto|]. split; discriminate.
  - split; [discriminate|]. intros H. apply andb_true_iff in H as [_ H].
    apply IH in H. discriminate.
Qed.

(** What [rstrip] takes away is white space, and what it leaves does not
    end in white space. *)
Lemma rstrip_split (s : string) :
  exists ws, s = rstrip s +:+ ws /\ blank ws = true.
Proof.
  induction s as [|c s (ws & Hs & Hws)]; cbn.
  - exists EmptyString. split; reflexivity.
  - destruct (rstrip s) as [|d t] eqn:E.
    + destruct (isspace c) eqn:Hc.
      * exists (String c s). split; [reflexivity|]. cbn. rewrite Hc. cbn.
        apply rstrip_empty_iff. exact E.
      * exists ws. split; [|exact Hws]. cbn. cbn in Hs. now rewrite <- Hs.
    + exists ws. split; [|exact Hws]. cbn. cbn in Hs. now rewrite <- Hs.
Qed.

End PyText.


(** * The command line of the copy (copy/copy_model_version.py, [main]) *)

Module CopyMain.

#[local] Arguments String.append _ _ : simpl nomatch.

(** [mk_tracking_uri], the function [main] derives the two tracking URIs
    with. *)
Definition mk_tracking_uri (registry_uri : option string) : option string :=
  match registry_uri with
  | None => None
  | Some u =>
      if negb (PyStr.truthy u) then None
      else if PyStr.startswith u "databricks-uc"
           then Some (PyText.replace "databricks-uc" "databricks" u)
           else Some u
  end.

(** X23.  The tracking URI of a Unity Catalog registry URI is the workspace URI
    with the same profile: [databricks-uc] followed by a text in which
    [databricks-uc] does not occur again gives [databricks] followed by that
    text. *)
Theorem uc_registry_uri_gives_workspace_tracking_uri (rest : string) :
  PyStr.find "databricks-uc" rest = None ->
  mk_tracking_uri (Some ("databricks-uc" +:+ rest)) = Some ("databricks" +:+ rest).
Proof.
  intros H. unfold mk_tracking_uri.
  change (PyStr.truthy ("databricks-uc" +:+ rest)) with true. cbn [negb].
  unfold PyStr.startswith. rewrite PyStr.prefix_app.
  rewrite PyText.replace_hit. now rewrite PyText.replace_miss.
Qed.

Lemma uc_registry_uri_gives_workspace_tracking_uri_witness :
  PyStr.find "databricks-uc" "://prod" = None
  /\ mk_tracking_uri (Some "databricks-uc://prod") = Some "databricks://prod".
Proof.
  assert (PyStr.find "databricks-uc" "://prod" = None) as H by reflexivity.
  split; [exact H|].
  exact (uc_registry_uri_gives_workspace_tracking_uri "://prod" H).
Defined.

End CopyMain.


(** * The notebooks (databricks_notebooks)

    copy/Common.py and bulk/Import_Experiments.py.  The widgets are the
    values they hold when the notebook reads them; [import_experiments]
    (mlflow_export_import/bulk/import_experiments.py) is given.  The cells
    of Common that install the package and print versions are left out. *)

Module Notebooks.
Import Eff.
Local Open Scope eff_scope.

#[local] Arguments String.append _ _ : simpl nomatch.

Inductive exn : Type := Exception (msg : string).



(** The keyword arguments of [import_experiments]. *)
Record ImportArgs : Type := mkImportArgs {
  input_dir : string;
  import_source_tags : bool;
  experiment_renames : option string;
  import_permissions : bool;
  use_threads : bool
}.

Section ImportExperiments.

Variable W : Type.
Variable import_experiments : ImportArgs -> W -> outcome exn unit * W.

Record state : Type := mkState {
  world : W;
  stdout : list string;
  imported : list ImportArgs
}.

Definition print (line : string) : M state exn unit :=
  modify (fun st => {| world := world st; stdout := stdout st ++ [line];
                       imported := imported st |}).




End ImportExperiments.

Arguments world {W}.
Arguments stdout {W}.
Arguments imported {W}.






End Notebooks.
